(** * Horse64: program object, resolver, stack, VM and unicode helpers

    A shallow embedding of the C sources of horse64 (bytecode.c, stack.c,
    unicode.c, vmexec.c, compiler/scoperesolver.c) together with the
    properties stated about them.

    Conventions of the embedding:
    - C integers are [Z]; [%] on signed operands is [Z.rem] (truncating),
      bit operations are [Z.land], [Z.lor], [Z.shiftl], [Z.shiftr].
    - A C array together with its element count is a [list]; a slot that is
      written before the count is incremented is kept in a local value and
      pushed when the count is incremented, since it cannot be observed
      before.
    - [malloc], [realloc] and [strdup] may fail.  Each request consumes one
      entry of an [alloc_oracle]; an exhausted oracle lets every further
      request succeed.
    - Reading through a pointer that does not designate an object, or an
      array out of its bounds, is a [Fault]. *)

From Stdlib Require Import ZArith Lia Ascii String.
From stdpp Require Import base option list strings gmap.

Local Open Scope Z_scope.

(** ** Allocation outcomes *)

Definition alloc_oracle := list bool.

Definition alloc_request (o : alloc_oracle) : bool * alloc_oracle :=
  match o with
  | [] => (true, [])
  | b :: o' => (b, o')
  end.

(** ** unicode.c *)

Module Unicode.

(** [unicodechar] is a 32 bit unsigned integer (unicode.h); all values
    computed below stay under [2^32], the type is kept as [Z]. *)
Definition unicodechar := Z.

Definition byte_at (p : list Z) (k : nat) : Z := nth k p 0.

(** Storing an [int] into a [char] cell keeps the low eight bits. *)
Definition to_char (v : Z) : Z := v mod 256.

Definition is_utf8_start (c : Z) : bool :=
  if Z.land c 0xE0 =? 0xC0 then true          (* 110xxxxx *)
  else if Z.land c 0xF0 =? 0xE0 then true     (* 1110xxxx *)
  else if Z.land c 0xF8 =? 0xF0 then true     (* 11110xxx *)
  else false.

Definition utf8_char_len (p : list Z) : Z :=
  if Z.land (byte_at p 0) 0xE0 =? 0xC0 then 2
  else if Z.land (byte_at p 0) 0xF0 =? 0xE0 then 3
  else if Z.land (byte_at p 0) 0xF8 =? 0xF0 then 4
  else 1.

(** [write_codepoint_as_utf8 codepoint surrogateunescape buf out outbuflen]:
    [buf] is the memory the pointer [out] points into, [out] the offset of
    the pointer.  Returns [None] for the C result 0, and otherwise the
    buffer after the writes and [*outlen]. *)
Definition write_codepoint_as_utf8
    (codepoint : Z) (surrogateunescape : bool)
    (buf : list Z) (out : nat) (outbuflen : Z) : option (list Z * Z) :=
  if codepoint <? 0x80 then
    if outbuflen <? 1 then None else
    let buf := <[out := to_char codepoint]> buf in
    let buf := if 2 <=? outbuflen then <[(out + 1)%nat := 0]> buf else buf in
    Some (buf, 1)
  else if codepoint <? 0x800 then
    let byte2val := Z.land codepoint 0x3F in
    let byte1val := Z.shiftr (Z.land codepoint 0x7C0) 6 in
    if outbuflen <? 2 then None else
    let buf := <[out := to_char (Z.lor byte1val 0xC0)]> buf in
    let buf := <[(out + 1)%nat := to_char (Z.lor byte2val 0x80)]> buf in
    let buf := if 3 <=? outbuflen then <[(out + 2)%nat := 0]> buf else buf in
    Some (buf, 2)
  else if codepoint <? 0x10000 then
    let byte3val := Z.land codepoint 0x3F in
    let byte2val := Z.shiftr (Z.land codepoint 0xFC0) 6 in
    let byte1val := Z.shiftr (Z.land codepoint 0xF000) 12 in
    if outbuflen <? 3 then None else
    let buf := <[out := to_char (Z.lor byte1val 0xC0)]> buf in
    let buf := <[(out + 1)%nat := to_char (Z.lor byte2val 0x80)]> buf in
    let buf := <[(out + 2)%nat := to_char (Z.lor byte3val 0x80)]> buf in
    let buf := if 4 <=? outbuflen then <[(out + 3)%nat := 0]> buf else buf in
    Some (buf, 3)
  else if codepoint <? 0x200000 then
    let byte4val := Z.land codepoint 0x3F in
    let byte3val := Z.shiftr (Z.land codepoint 0xFC0) 6 in
    let byte2val := Z.shiftr (Z.land codepoint 0x3F000) 12 in
    let byte1val := Z.shiftr (Z.land codepoint 0x1C0000) 18 in
    if outbuflen <? 4 then None else
    let buf := <[out := to_char (Z.lor byte1val 0xC0)]> buf in
    let buf := <[(out + 1)%nat := to_char (Z.lor byte2val 0x80)]> buf in
    let buf := <[(out + 2)%nat := to_char (Z.lor byte3val 0x80)]> buf in
    let buf := <[(out + 3)%nat := to_char (Z.lor byte4val 0x80)]> buf in
    let buf := if 5 <=? outbuflen then <[(out + 4)%nat := 0]> buf else buf in
    Some (buf, 4)
  else None.

(** [get_utf8_codepoint p size]: [p] is the input from the pointer on.
    [None] is the C result 0, [Some (c, len)] gives [*out] and [*outlen]. *)
Definition get_utf8_codepoint (p : list Z) (size : Z)
  : option (unicodechar * Z) :=
  if size <? 1 then None else
  if negb (is_utf8_start (byte_at p 0)) then
    if 127 <? byte_at p 0 then None else Some (byte_at p 0, 1)
  else
  let c := byte_at p 0 in
  if (Z.land c 0xE0 =? 0xC0) && (2 <=? size) then
    if negb (Z.land (byte_at p 1) 0xC0 =? 0x80) then None else
    if (3 <=? size) && (Z.land (byte_at p 2) 0xC0 =? 0x80) then None else
    let c := Z.shiftl (Z.land (byte_at p 0) 0x1F) 6 in
    let c := c + Z.land (byte_at p 1) 0x3F in
    if c <=? 127 then None else Some (c, 2)
  else if (Z.land c 0xF0 =? 0xE0) && (3 <=? size) then
    if negb (Z.land (byte_at p 1) 0xC0 =? 0x80) then None else
    if negb (Z.land (byte_at p 2) 0xC0 =? 0x80) then None else
    if (4 <=? size) && (Z.land (byte_at p 3) 0xC0 =? 0x80) then None else
    let c := Z.shiftl (Z.land (byte_at p 0) 0x1F) 12 in
    let c := c + Z.shiftl (Z.land (byte_at p 1) 0x3F) 6 in
    let c := c + Z.land (byte_at p 2) 0x3F in
    if c <=? 0x7FF then None else
    if (0xD800 <=? c) && (c <=? 0xDFFF) then None else
    Some (c, 3)
  else if (Z.land c 0xF8 =? 0xF0) && (4 <=? size) then
    if negb (Z.land (byte_at p 1) 0xC0 =? 0x80) then None else
    if negb (Z.land (byte_at p 2) 0xC0 =? 0x80) then None else
    if negb (Z.land (byte_at p 3) 0xC0 =? 0x80) then None else
    if (5 <=? size) && (Z.land (byte_at p 4) 0xC0 =? 0x80) then None else
    let c := Z.shiftl (Z.land (byte_at p 0) 0x1F) 18 in
    let c := c + Z.shiftl (Z.land (byte_at p 1) 0x3F) 12 in
    let c := c + Z.shiftl (Z.land (byte_at p 2) 0x3F) 6 in
    let c := c + Z.land (byte_at p 3) 0x3F in
    if c <=? 0xFFFF then None else Some (c, 4)
  else None.

Definition is_valid_utf8_char (p : list Z) (size : Z) : bool :=
  match get_utf8_codepoint p size with
  | None => false
  | Some _ => true
  end.

Inductive utf32_result :=
| Utf32 (chars : list unicodechar)   (* result buffer, [*out_len] its length *)
| AbortedInvalid
| AbortedOutOfMemory
| BufferOverrun.                     (* an access past the end of [temp_buf] *)

(** The [while (i < input_len)] loop of [utf8_to_utf32_ex].  [rest] is the
    input from offset [i] on and [acc] the first [k] cells of [temp_buf].
    Every round consumes at least one byte, so [length rest] rounds of
    [fuel] are enough. *)
Fixpoint utf8_to_utf32_loop (fuel : nat) (rest : list Z)
    (surrogatereplaceinvalid : bool) (acc : list unicodechar)
  : option (list unicodechar) :=
  match rest with
  | [] => Some acc
  | b :: _ =>
    match fuel with
    | O => Some acc
    | S fuel' =>
      match get_utf8_codepoint rest (Z.of_nat (length rest)) with
      | None =>
        if negb surrogatereplaceinvalid then None else
        let invalidbyte := 0xDC80 + b in
        utf8_to_utf32_loop fuel' (drop 1 rest) surrogatereplaceinvalid
          (acc ++ [invalidbyte])
      | Some (c, cbytes) =>
        utf8_to_utf32_loop fuel' (drop (Z.to_nat cbytes) rest)
          surrogatereplaceinvalid (acc ++ [c])
      end
    end
  end.

(** [utf8_to_utf32_ex] with [out_alloc = NULL].  [temp_buf] has
    [input_len * sizeof(unicodechar)] bytes, from [alloca] when that is
    below 2048 and from [malloc] otherwise.  After the loop the byte at
    [k * sizeof(unicodechar)] is written, and [(k + 1) * sizeof(unicodechar)]
    bytes are copied out of [temp_buf]: both accesses pass the end of the
    buffer when every byte of the input gave a code point of its own
    ([k = input_len]). *)
Definition utf8_to_utf32_ex (input : list Z) (o : alloc_oracle)
    (surrogatereplaceinvalid : bool) : utf32_result * alloc_oracle :=
  let input_len := Z.of_nat (length input) in
  let temp_buf_len := input_len * 4 in
  let '(temp_ok, o) :=
    if temp_buf_len <? 1024 * 2 then (true, o)       (* alloca *)
    else alloc_request o in
  if negb temp_ok then (AbortedOutOfMemory, o) else
  match utf8_to_utf32_loop (length input) input surrogatereplaceinvalid [] with
  | None => (AbortedInvalid, o)
  | Some temp_buf =>
    let k := Z.of_nat (length temp_buf) in
    (* [temp_buf[k * sizeof(unicodechar)] = 0] *)
    if temp_buf_len <=? k * 4 then (BufferOverrun, o) else
    let '(result_ok, o) := alloc_request o in
    if negb result_ok then (AbortedOutOfMemory, o)
    else (Utf32 temp_buf, o)
  end.

Definition utf8_to_utf32 (input : list Z) (o : alloc_oracle)
  : utf32_result * alloc_oracle :=
  utf8_to_utf32_ex input o true.

(** The loop of [utf32_to_utf8]; [outbuf] is the offset of the moving
    output pointer into [buf]. *)
Fixpoint utf32_to_utf8_loop (input : list unicodechar)
    (buf : list Z) (outbuf : nat) (outbuflen : Z) (totallen : Z)
    (surrogateunescape : bool) : option (list Z * Z) :=
  match input with
  | [] => Some (buf, totallen)
  | c :: input' =>
    match write_codepoint_as_utf8 c surrogateunescape buf outbuf outbuflen with
    | None => None
    | Some (buf', inneroutlen) =>
      utf32_to_utf8_loop input' buf' (outbuf + Z.to_nat inneroutlen)%nat
        (outbuflen - inneroutlen) (totallen + inneroutlen) surrogateunescape
    end
  end.

(** [utf32_to_utf8 input outbuf surrogateunescape]: [outbuf] is the output
    buffer, [outbuflen] its length.  [Some (buf, len)] is the C result 1
    with the buffer contents and [*out_len]. *)
Definition utf32_to_utf8 (input : list unicodechar) (outbuf : list Z)
    (surrogateunescape : bool) : option (list Z * Z) :=
  utf32_to_utf8_loop input outbuf 0%nat (Z.of_nat (length outbuf)) 0
    surrogateunescape.

(** The bytes a successful [utf32_to_utf8] leaves in the buffer. *)
Definition utf32_to_utf8_bytes (input : list unicodechar) (buflen : nat)
  : option (list Z) :=
  match utf32_to_utf8 input (replicate buflen 0) false with
  | None => None
  | Some (buf, len) => Some (take (Z.to_nat len) buf)
  end.

(** Well-formed UTF-8 (RFC 3629) of one code point; the reference against
    which the code's encoder and decoder are compared. *)
Definition rfc3629_encode (cp : Z) : list Z :=
  if cp <? 0x80 then [cp]
  else if cp <? 0x800 then
    [Z.lor 0xC0 (Z.shiftr cp 6); Z.lor 0x80 (Z.land cp 0x3F)]
  else if cp <? 0x10000 then
    [Z.lor 0xE0 (Z.shiftr cp 12);
     Z.lor 0x80 (Z.land (Z.shiftr cp 6) 0x3F);
     Z.lor 0x80 (Z.land cp 0x3F)]
  else
    [Z.lor 0xF0 (Z.shiftr cp 18);
     Z.lor 0x80 (Z.land (Z.shiftr cp 12) 0x3F);
     Z.lor 0x80 (Z.land (Z.shiftr cp 6) 0x3F);
     Z.lor 0x80 (Z.land cp 0x3F)].

(** utf8 -> utf32 -> utf8 on a byte string, with an output buffer of
    [buflen] bytes. *)
Definition utf8_roundtrip (bytes : list Z) (buflen : nat) : option (list Z) :=
  match fst (utf8_to_utf32 bytes []) with
  | Utf32 chars => utf32_to_utf8_bytes chars buflen
  | _ => None
  end.

End Unicode.


(** ** Outcomes of code that can stop the process *)

Inductive outcome (A : Type) : Type :=
| Ret (a : A)        (* the call returns *)
| AssertFail         (* an [assert] does not hold: abort *)
| Fault.             (* invalid pointer or out of bounds access *)
Arguments Ret {A} a.
Arguments AssertFail {A}.
Arguments Fault {A}.

Definition obind {A B} (m : outcome A) (f : A -> outcome B) : outcome B :=
  match m with
  | Ret a => f a
  | AssertFail => AssertFail
  | Fault => Fault
  end.

#[global] Instance outcome_ret : MRet outcome := fun _ a => Ret a.
#[global] Instance outcome_bind : MBind outcome := fun _ _ f m => obind m f.

Definition assert (b : bool) : outcome unit :=
  if b then Ret tt else AssertFail.

(** ** Value contents (bytecode.h) *)

Module Values.

(** Modelled from the spec: the [valuetype] enumeration of bytecode.h, which
    is not among the sources.  The variants are those of the value content
    model, [NONE] being the tag of a zero-filled cell. *)
Inductive valuetype :=
| H64VALTYPE_NONE
| H64VALTYPE_BOOL
| H64VALTYPE_INT64
| H64VALTYPE_FLOAT64
| H64VALTYPE_GCVAL
| H64VALTYPE_CONSTPREALLOCSTR.

#[global] Instance valuetype_eq_dec : EqDecision valuetype.
Proof. solve_decision. Defined.

(** The fields of [valuecontent] the sources use.  [ptr_value] is an address
    in the thread's heap pool, [None] being [NULL]; [float_value] is left
    out, no modelled code reads it. *)
Record valuecontent := {
  type : valuetype;
  int_value : Z;
  ptr_value : option nat;
  constpreallocstr_len : Z;
  constpreallocstr_value : list Z;
}.

(** [memset(&vc, 0, sizeof(vc))] *)
Definition zero_valuecontent : valuecontent :=
  {| type := H64VALTYPE_NONE; int_value := 0; ptr_value := None;
     constpreallocstr_len := 0; constpreallocstr_value := [] |}.

(** [valuecontent_Free] (bytecode.c) releases the buffer of a preallocated
    string and leaves every field of the content as it was. *)
Definition valuecontent_Free (content : valuecontent) : valuecontent := content.

End Values.

(** ** stack.c *)

Module Stack.
Import Values.

Record h64stack := {
  entry_count : Z;
  alloc_count : Z;
  entry : list valuecontent;       (* the [alloc_count] allocated cells *)
  current_func_floor : Z;
}.

Definition stack_New : h64stack :=
  {| entry_count := 0; alloc_count := 0; entry := [];
     current_func_floor := 0 |}.

Section WithTunables.

(** The tunables of stack.h and the contents of memory that [realloc]
    hands out beyond the old block. *)
Variables ALLOC_OVERSHOOT ALLOC_MAXOVERSHOOT ALLOC_EMERGENCY_MARGIN : Z.
Variable indeterminate : valuecontent.

(** [realloc] of [st->entry] to [n] cells, when it succeeds. *)
Definition realloc_entries (cells : list valuecontent) (n : Z)
  : list valuecontent :=
  take (Z.to_nat n) cells
  ++ replicate (Z.to_nat n - length cells) indeterminate.

Definition stack_FreeEntry (st : h64stack) (slot : Z) : outcome unit :=
  if slot <? 0 then Fault else
  match entry st !! Z.to_nat slot with
  | None => Fault
  | Some vc =>
    _ ← assert (negb (bool_decide (type vc = H64VALTYPE_CONSTPREALLOCSTR)));
    let _ := valuecontent_Free vc in
    Ret tt
  end.

(** [while (i > total_entries) { stack_FreeEntry(st, i - 1); i--; }],
    [rounds] being the number of rounds the loop makes. *)
Fixpoint stack_Shrink_loop (rounds : nat) (st : h64stack) (i : Z)
  : outcome Z :=
  match rounds with
  | O => Ret i
  | S rounds' =>
    _ ← stack_FreeEntry st (i - 1);
    stack_Shrink_loop rounds' st (i - 1)
  end.

Definition stack_Shrink (st : h64stack) (total_entries : Z) (o : alloc_oracle)
  : outcome (h64stack * alloc_oracle) :=
  i ← stack_Shrink_loop (Z.to_nat (entry_count st - total_entries))
          st (entry_count st);
  let st := {| entry_count := i; alloc_count := alloc_count st;
               entry := entry st;
               current_func_floor := current_func_floor st |} in
  if alloc_count st + ALLOC_MAXOVERSHOOT >? entry_count st then
    let new_alloc := entry_count st + ALLOC_OVERSHOOT in
    let '(ok, o) := alloc_request o in
    if negb ok then Ret (st, o) else
    Ret ({| entry_count := entry_count st; alloc_count := new_alloc;
            entry := realloc_entries (entry st) new_alloc;
            current_func_floor := current_func_floor st |}, o)
  else Ret (st, o).

(** [while (k < total_entries) { memset(&st->entry[k], 0, ...); k++; }] *)
Fixpoint stack_ToSize_fill (rounds : nat) (cells : list valuecontent)
    (k : nat) : list valuecontent :=
  match rounds with
  | O => cells
  | S rounds' =>
    stack_ToSize_fill rounds' (<[k := zero_valuecontent]> cells) (S k)
  end.

(** [stack_ToSize]; the result carries the C return value. *)
Definition stack_ToSize (st : h64stack) (total_entries : Z)
    (can_use_emergency_margin : bool) (o : alloc_oracle)
  : outcome (Z * h64stack * alloc_oracle) :=
  _ ← assert (0 <=? total_entries);
  let alloc_needed_margin :=
    if can_use_emergency_margin then 0 else ALLOC_EMERGENCY_MARGIN in
  (* Grow if needed: *)
  let '(grown, o) :=
    if alloc_count st <? total_entries + alloc_needed_margin then
      let '(ok, o) := alloc_request o in
      if negb ok then
        if negb can_use_emergency_margin
           || (total_entries >? alloc_count st)
        then (None, o)
        else (Some st, o)
      else
        let n := total_entries + alloc_needed_margin + ALLOC_OVERSHOOT in
        (Some {| entry_count := entry_count st; alloc_count := n;
                 entry := realloc_entries (entry st) n;
                 current_func_floor := current_func_floor st |}, o)
    else (Some st, o) in
  match grown with
  | None => Ret (0, st, o)
  | Some st =>
    if total_entries <? entry_count st then
      (* Shrink or be done: *)
      '(st, o) ← stack_Shrink st total_entries o;
      Ret (1, st, o)
    else
      _ ← assert (alloc_count st >? total_entries);
      let cells :=
        stack_ToSize_fill (Z.to_nat (total_entries - entry_count st))
          (entry st) (Z.to_nat (entry_count st)) in
      Ret (1, {| entry_count := total_entries;
                 alloc_count := alloc_count st;
                 entry := cells;
                 current_func_floor := current_func_floor st |}, o)
  end.

(** A sequence of [stack_ToSize] calls on one stack, each given as its
    [total_entries] and [can_use_emergency_margin]. *)
Fixpoint stack_ToSize_seq (st : h64stack) (calls : list (Z * bool))
    (o : alloc_oracle) : outcome (h64stack * alloc_oracle) :=
  match calls with
  | [] => Ret (st, o)
  | (n, margin) :: calls' =>
    '(_, st, o) ← stack_ToSize st n margin o;
    stack_ToSize_seq st calls' o
  end.

End WithTunables.

(** *** Predicates of the statements about the stack *)

(** The cells are those of the allocation, and the entries lie in it. *)
Definition stack_wf (st : h64stack) : Prop :=
  0 <= entry_count st /\ entry_count st <= alloc_count st /\
  Z.of_nat (length (entry st)) = alloc_count st.

(** [st'] has the slots of [st] below [n]. *)
Definition keeps_below (n : Z) (st st' : h64stack) : Prop :=
  forall k : nat, Z.of_nat k < n -> entry st' !! k = entry st !! k.

(** No entry of the stack is a preallocated string. *)
Definition no_preallocstr (st : h64stack) : Prop :=
  forall (k : nat) vc,
    Z.of_nat k < entry_count st -> entry st !! k = Some vc ->
    type vc <> H64VALTYPE_CONSTPREALLOCSTR.

Fixpoint nonincreasing (l : list Z) : bool :=
  match l with
  | a :: (b :: _) as t => (b <=? a) && nonincreasing t
  | _ => true
  end.

(** The sizes first increase and then decrease. *)
Fixpoint increasing_then_decreasing (l : list Z) : bool :=
  match l with
  | a :: (b :: _) as t =>
    if a <=? b then increasing_then_decreasing t else nonincreasing t
  | _ => true
  end.

End Stack.


(** ** hash.h *)

Module Hash.

(** Modelled from the spec: the string and integer keyed maps of hash.c,
    which is not among the sources.  Setting a key stores its value and can
    fail for lack of memory, unsetting removes the key. *)
Definition hash_StringMapSet (m : gmap string Z) (key : string) (number : Z)
    (o : alloc_oracle) : option (gmap string Z) * alloc_oracle :=
  let '(ok, o) := alloc_request o in
  if ok then (Some (<[key := number]> m), o) else (None, o).

Definition hash_StringMapUnset (m : gmap string Z) (key : string)
  : gmap string Z := delete key m.

Definition hash_StringMapGet (m : gmap string Z) (key : string) : option Z :=
  m !! key.

Definition hash_IntMapSet (m : gmap Z Z) (key : Z) (number : Z)
    (o : alloc_oracle) : option (gmap Z Z) * alloc_oracle :=
  let '(ok, o) := alloc_request o in
  if ok then (Some (<[key := number]> m), o) else (None, o).

Definition hash_IntMapUnset (m : gmap Z Z) (key : Z) : gmap Z Z :=
  delete key m.

End Hash.

(** ** debugsymbols.h *)

Module DebugSymbols.

Record h64funcsymbol := {
  fsym_name : option string;
  fsym_fileuri_index : Z;
  fsym_arg_count : Z;
  fsym_arg_kwarg_name : list (option string);
  fsym_last_arg_is_multiarg : Z;
  fsym_has_self_arg : bool;
  fsym_global_id : Z;
}.

Record h64classsymbol := {
  csym_name : string;
  csym_fileuri_index : Z;
}.

Record h64globalvarsymbol := {
  gsym_name : string;
  gsym_fileuri_index : Z;
  gsym_is_const : Z;
}.

Record h64modulesymbols := {
  index : Z;
  module_path : option string;
  library_name : option string;
  func_name_to_entry : gmap string Z;
  func_symbols : list h64funcsymbol;
  class_name_to_entry : gmap string Z;
  classes_symbols : list h64classsymbol;
  globalvar_name_to_entry : gmap string Z;
  globalvar_symbols : list h64globalvarsymbol;
}.

Definition func_count (m : h64modulesymbols) : Z :=
  Z.of_nat (length (func_symbols m)).
Definition classes_count (m : h64modulesymbols) : Z :=
  Z.of_nat (length (classes_symbols m)).
Definition globalvar_count (m : h64modulesymbols) : Z :=
  Z.of_nat (length (globalvar_symbols m)).

Record h64debugsymbols := {
  fileuri : list string;
  mainfile_module_path : option string;
  mainfileuri_index : Z;
  builtin_module : h64modulesymbols;
  module_symbols : list h64modulesymbols;
  member_name_to_member_name_id : gmap string Z;
  func_id_to_module_symbols_index : gmap Z Z;
  func_id_to_module_symbols_func_subindex : gmap Z Z;
  class_id_to_module_symbols_index : gmap Z Z;
  class_id_to_module_symbols_class_subindex : gmap Z Z;
}.

Definition fileuri_count (s : h64debugsymbols) : Z :=
  Z.of_nat (length (fileuri s)).

(** A [h64modulesymbols *] into the symbols: the builtin module or the
    module at an index of [module_symbols]. *)
Inductive msymbols_ptr :=
| BuiltinModule
| ModuleAt (i : nat).

Definition empty_modulesymbols (idx : Z) (path library : option string)
  : h64modulesymbols :=
  {| index := idx; module_path := path; library_name := library;
     func_name_to_entry := ∅; func_symbols := [];
     class_name_to_entry := ∅; classes_symbols := [];
     globalvar_name_to_entry := ∅; globalvar_symbols := [] |}.

(** Modelled from the spec: [h64debugsymbols_New] of debugsymbols.c, which
    is not among the sources: no file, no module but the builtin one, no
    member name. *)
Definition h64debugsymbols_New : h64debugsymbols :=
  {| fileuri := []; mainfile_module_path := None; mainfileuri_index := -1;
     builtin_module := empty_modulesymbols (-1) None None;
     module_symbols := [];
     member_name_to_member_name_id := ∅;
     func_id_to_module_symbols_index := ∅;
     func_id_to_module_symbols_func_subindex := ∅;
     class_id_to_module_symbols_index := ∅;
     class_id_to_module_symbols_class_subindex := ∅ |}.

Definition deref (s : h64debugsymbols) (m : msymbols_ptr)
  : option h64modulesymbols :=
  match m with
  | BuiltinModule => Some (builtin_module s)
  | ModuleAt i => module_symbols s !! i
  end.

Definition set_fileuri (s : h64debugsymbols) (l : list string)
  : h64debugsymbols :=
  {| fileuri := l;
     mainfile_module_path := mainfile_module_path s;
     mainfileuri_index := mainfileuri_index s;
     builtin_module := builtin_module s;
     module_symbols := module_symbols s;
     member_name_to_member_name_id := member_name_to_member_name_id s;
     func_id_to_module_symbols_index := func_id_to_module_symbols_index s;
     func_id_to_module_symbols_func_subindex :=
       func_id_to_module_symbols_func_subindex s;
     class_id_to_module_symbols_index := class_id_to_module_symbols_index s;
     class_id_to_module_symbols_class_subindex :=
       class_id_to_module_symbols_class_subindex s |}.

Definition set_mainfile (s : h64debugsymbols) (path : option string)
    (idx : Z) : h64debugsymbols :=
  {| fileuri := fileuri s;
     mainfile_module_path := path;
     mainfileuri_index := idx;
     builtin_module := builtin_module s;
     module_symbols := module_symbols s;
     member_name_to_member_name_id := member_name_to_member_name_id s;
     func_id_to_module_symbols_index := func_id_to_module_symbols_index s;
     func_id_to_module_symbols_func_subindex :=
       func_id_to_module_symbols_func_subindex s;
     class_id_to_module_symbols_index := class_id_to_module_symbols_index s;
     class_id_to_module_symbols_class_subindex :=
       class_id_to_module_symbols_class_subindex s |}.

Definition set_module_symbols (s : h64debugsymbols)
    (l : list h64modulesymbols) : h64debugsymbols :=
  {| fileuri := fileuri s;
     mainfile_module_path := mainfile_module_path s;
     mainfileuri_index := mainfileuri_index s;
     builtin_module := builtin_module s;
     module_symbols := l;
     member_name_to_member_name_id := member_name_to_member_name_id s;
     func_id_to_module_symbols_index := func_id_to_module_symbols_index s;
     func_id_to_module_symbols_func_subindex :=
       func_id_to_module_symbols_func_subindex s;
     class_id_to_module_symbols_index := class_id_to_module_symbols_index s;
     class_id_to_module_symbols_class_subindex :=
       class_id_to_module_symbols_class_subindex s |}.

Definition set_builtin_module (s : h64debugsymbols) (b : h64modulesymbols)
  : h64debugsymbols :=
  {| fileuri := fileuri s;
     mainfile_module_path := mainfile_module_path s;
     mainfileuri_index := mainfileuri_index s;
     builtin_module := b;
     module_symbols := module_symbols s;
     member_name_to_member_name_id := member_name_to_member_name_id s;
     func_id_to_module_symbols_index := func_id_to_module_symbols_index s;
     func_id_to_module_symbols_func_subindex :=
       func_id_to_module_symbols_func_subindex s;
     class_id_to_module_symbols_index := class_id_to_module_symbols_index s;
     class_id_to_module_symbols_class_subindex :=
       class_id_to_module_symbols_class_subindex s |}.

Definition set_member_names (s : h64debugsymbols) (m : gmap string Z)
  : h64debugsymbols :=
  {| fileuri := fileuri s;
     mainfile_module_path := mainfile_module_path s;
     mainfileuri_index := mainfileuri_index s;
     builtin_module := builtin_module s;
     module_symbols := module_symbols s;
     member_name_to_member_name_id := m;
     func_id_to_module_symbols_index := func_id_to_module_symbols_index s;
     func_id_to_module_symbols_func_subindex :=
       func_id_to_module_symbols_func_subindex s;
     class_id_to_module_symbols_index := class_id_to_module_symbols_index s;
     class_id_to_module_symbols_class_subindex :=
       class_id_to_module_symbols_class_subindex s |}.

Definition set_func_id_maps (s : h64debugsymbols) (mi msub : gmap Z Z)
  : h64debugsymbols :=
  {| fileuri := fileuri s;
     mainfile_module_path := mainfile_module_path s;
     mainfileuri_index := mainfileuri_index s;
     builtin_module := builtin_module s;
     module_symbols := module_symbols s;
     member_name_to_member_name_id := member_name_to_member_name_id s;
     func_id_to_module_symbols_index := mi;
     func_id_to_module_symbols_func_subindex := msub;
     class_id_to_module_symbols_index := class_id_to_module_symbols_index s;
     class_id_to_module_symbols_class_subindex :=
       class_id_to_module_symbols_class_subindex s |}.

Definition set_class_id_maps (s : h64debugsymbols) (mi msub : gmap Z Z)
  : h64debugsymbols :=
  {| fileuri := fileuri s;
     mainfile_module_path := mainfile_module_path s;
     mainfileuri_index := mainfileuri_index s;
     builtin_module := builtin_module s;
     module_symbols := module_symbols s;
     member_name_to_member_name_id := member_name_to_member_name_id s;
     func_id_to_module_symbols_index := func_id_to_module_symbols_index s;
     func_id_to_module_symbols_func_subindex :=
       func_id_to_module_symbols_func_subindex s;
     class_id_to_module_symbols_index := mi;
     class_id_to_module_symbols_class_subindex := msub |}.

(** Writing through a [h64modulesymbols *]. *)
Definition store (s : h64debugsymbols) (m : msymbols_ptr)
    (v : h64modulesymbols) : h64debugsymbols :=
  match m with
  | BuiltinModule => set_builtin_module s v
  | ModuleAt i => set_module_symbols s (<[i := v]> (module_symbols s))
  end.

Definition set_func_table (m : h64modulesymbols) (names : gmap string Z)
    (syms : list h64funcsymbol) : h64modulesymbols :=
  {| index := index m; module_path := module_path m;
     library_name := library_name m;
     func_name_to_entry := names; func_symbols := syms;
     class_name_to_entry := class_name_to_entry m;
     classes_symbols := classes_symbols m;
     globalvar_name_to_entry := globalvar_name_to_entry m;
     globalvar_symbols := globalvar_symbols m |}.

Definition set_class_table (m : h64modulesymbols) (names : gmap string Z)
    (syms : list h64classsymbol) : h64modulesymbols :=
  {| index := index m; module_path := module_path m;
     library_name := library_name m;
     func_name_to_entry := func_name_to_entry m;
     func_symbols := func_symbols m;
     class_name_to_entry := names; classes_symbols := syms;
     globalvar_name_to_entry := globalvar_name_to_entry m;
     globalvar_symbols := globalvar_symbols m |}.

Definition set_globalvar_table (m : h64modulesymbols) (names : gmap string Z)
    (syms : list h64globalvarsymbol) : h64modulesymbols :=
  {| index := index m; module_path := module_path m;
     library_name := library_name m;
     func_name_to_entry := func_name_to_entry m;
     func_symbols := func_symbols m;
     class_name_to_entry := class_name_to_entry m;
     classes_symbols := classes_symbols m;
     globalvar_name_to_entry := names; globalvar_symbols := syms |}.

(** Modelled from the spec: [h64debugsymbols_MemberNameToMemberNameId] of
    debugsymbols.c, which is not among the sources.  Member names are
    interned: a known name gives its id again; an unknown one gives a
    negative id, or, when [addifnotpresent] is set, the next unused id,
    unless memory runs out. *)
Definition h64debugsymbols_MemberNameToMemberNameId
    (s : h64debugsymbols) (name : string) (addifnotpresent : bool)
    (o : alloc_oracle) : Z * h64debugsymbols * alloc_oracle :=
  match member_name_to_member_name_id s !! name with
  | Some id => (id, s, o)
  | None =>
    if negb addifnotpresent then (-1, s, o) else
    let '(ok, o) := alloc_request o in
    if negb ok then (-1, s, o) else
    let id := Z.of_nat (size (member_name_to_member_name_id s)) in
    (id, set_member_names s (<[name := id]> (member_name_to_member_name_id s)),
     o)
  end.

Definition h64debugsymbols_GetBuiltinModule (s : h64debugsymbols)
  : msymbols_ptr := BuiltinModule.

Definition module_matches (path : string) (library : option string)
    (m : h64modulesymbols) : bool :=
  bool_decide (module_path m = Some path)
  && bool_decide (library_name m = library).

Fixpoint find_module (l : list h64modulesymbols) (path : string)
    (library : option string) (i : nat) : option nat :=
  match l with
  | [] => None
  | m :: l' =>
    if module_matches path library m then Some i
    else find_module l' path library (S i)
  end.

(** Modelled from the spec: [h64debugsymbols_GetModule] of debugsymbols.c,
    which is not among the sources.  The module of that path and library is
    looked up; when absent and [addifnotpresent] is set, an empty module
    record is appended, unless memory runs out.  [None] is [NULL]. *)
Definition h64debugsymbols_GetModule
    (s : h64debugsymbols) (path : string) (library : option string)
    (addifnotpresent : bool) (o : alloc_oracle)
  : option msymbols_ptr * h64debugsymbols * alloc_oracle :=
  match find_module (module_symbols s) path library 0 with
  | Some i => (Some (ModuleAt i), s, o)
  | None =>
    if negb addifnotpresent then (None, s, o) else
    let '(ok, o) := alloc_request o in
    if negb ok then (None, s, o) else
    let i := length (module_symbols s) in
    (Some (ModuleAt i),
     set_module_symbols s
       (module_symbols s
        ++ [empty_modulesymbols (Z.of_nat i) (Some path) library]),
     o)
  end.

End DebugSymbols.

(** ** bytecode.c *)

Module Bytecode.
Import Values Hash DebugSymbols.

Inductive instructiontype :=
| H64INST_INVALID | H64INST_SETCONST | H64INST_SETGLOBAL | H64INST_GETGLOBAL
| H64INST_GETFUNC | H64INST_GETCLASS | H64INST_VALUECOPY | H64INST_BINOP
| H64INST_UNOP | H64INST_CALL | H64INST_SETTOP | H64INST_RETURNVALUE
| H64INST_JUMPTARGET | H64INST_CONDJUMP | H64INST_JUMP | H64INST_NEWITERATOR
| H64INST_ITERATE | H64INST_PUSHCATCHFRAME | H64INST_ADDCATCHTYPEBYREF
| H64INST_ADDCATCHTYPE | H64INST_POPCATCHFRAME | H64INST_GETMEMBER
| H64INST_JUMPTOFINALLY | H64INST_NEWLIST | H64INST_ADDTOLIST | H64INST_NEWSET
| H64INST_ADDTOSET | H64INST_NEWVECTOR | H64INST_PUTVECTOR | H64INST_NEWMAP
| H64INST_PUTMAP.

Record h64instruction_setconst := {
  slot : Z;
  content : valuecontent;
}.

(** A record of the instruction stream: a [setconst] with its fields, or a
    record of another type, of which the sources only read the type. *)
Inductive h64instruction :=
| Isetconst (inst : h64instruction_setconst)
| Iother (itype : instructiontype).

Definition instruction_type (i : h64instruction) : instructiontype :=
  match i with
  | Isetconst _ => H64INST_SETCONST
  | Iother t => t
  end.

Record h64classmemberinfo := {
  nameid : Z;
  methodorvaridx : Z;
}.

Record h64class := {
  base_class_global_id : Z;
  hasvarinitfunc : bool;
  method_global_name_idx : list Z;
  method_func_idx : list Z;
  vars_global_name_idx : list Z;
  (* [None] is [NULL]; otherwise the buckets, each the cells of its array *)
  global_name_to_member_hashmap : option (list (list h64classmemberinfo));
}.

Definition methods_count (c : h64class) : Z :=
  Z.of_nat (length (method_func_idx c)).
Definition vars_count (c : h64class) : Z :=
  Z.of_nat (length (vars_global_name_idx c)).

Record h64func := {
  iscfunc : bool;
  input_stack_size : Z;
  is_threadable : Z;
  associated_class_index : Z;
  cfunclookup : option string;
  cfunc_ptr : option nat;
  instructions : list h64instruction;
}.

Record h64globalvar := {
  gv_content : valuecontent;
}.

(** The program object.  The seven well-known member name indexes that
    [h64program_New] sets to -1 are read by none of the modelled functions
    and are left out. *)
Record h64program := {
  func : list h64func;
  classes : list h64class;
  globalvar : list h64globalvar;
  main_func_index : Z;
  globalinit_func_index : Z;
  symbols : option h64debugsymbols;
}.

Definition func_count (p : h64program) : Z := Z.of_nat (length (func p)).
Definition classes_count (p : h64program) : Z :=
  Z.of_nat (length (classes p)).
Definition globalvar_count (p : h64program) : Z :=
  Z.of_nat (length (globalvar p)).

Definition set_symbols (p : h64program) (s : option h64debugsymbols)
  : h64program :=
  {| func := func p; classes := classes p; globalvar := globalvar p;
     main_func_index := main_func_index p;
     globalinit_func_index := globalinit_func_index p; symbols := s |}.

Definition set_classes (p : h64program) (l : list h64class) : h64program :=
  {| func := func p; classes := l; globalvar := globalvar p;
     main_func_index := main_func_index p;
     globalinit_func_index := globalinit_func_index p;
     symbols := symbols p |}.

Definition set_func (p : h64program) (l : list h64func) : h64program :=
  {| func := l; classes := classes p; globalvar := globalvar p;
     main_func_index := main_func_index p;
     globalinit_func_index := globalinit_func_index p;
     symbols := symbols p |}.

Definition set_globalvar (p : h64program) (l : list h64globalvar)
  : h64program :=
  {| func := func p; classes := classes p; globalvar := l;
     main_func_index := main_func_index p;
     globalinit_func_index := globalinit_func_index p;
     symbols := symbols p |}.

Definition set_main_func_index (p : h64program) (i : Z) : h64program :=
  {| func := func p; classes := classes p; globalvar := globalvar p;
     main_func_index := i;
     globalinit_func_index := globalinit_func_index p;
     symbols := symbols p |}.

Definition set_hashmap (c : h64class)
    (h : option (list (list h64classmemberinfo))) : h64class :=
  {| base_class_global_id := base_class_global_id c;
     hasvarinitfunc := hasvarinitfunc c;
     method_global_name_idx := method_global_name_idx c;
     method_func_idx := method_func_idx c;
     vars_global_name_idx := vars_global_name_idx c;
     global_name_to_member_hashmap := h |}.

Definition set_methods (c : h64class) (names funcs : list Z) : h64class :=
  {| base_class_global_id := base_class_global_id c;
     hasvarinitfunc := hasvarinitfunc c;
     method_global_name_idx := names;
     method_func_idx := funcs;
     vars_global_name_idx := vars_global_name_idx c;
     global_name_to_member_hashmap := global_name_to_member_hashmap c |}.

Definition set_vars (c : h64class) (names : list Z) : h64class :=
  {| base_class_global_id := base_class_global_id c;
     hasvarinitfunc := hasvarinitfunc c;
     method_global_name_idx := method_global_name_idx c;
     method_func_idx := method_func_idx c;
     vars_global_name_idx := names;
     global_name_to_member_hashmap := global_name_to_member_hashmap c |}.

(** [p->classes[class_id] = c] *)
Definition store_class (p : h64program) (class_id : Z) (c : h64class)
  : h64program :=
  set_classes p (<[Z.to_nat class_id := c]> (classes p)).

(** The program as [h64program_New] leaves it before the core library
    registers its classes and functions (corelib is not among the
    sources). *)
Definition zeroed_program : h64program :=
  {| func := []; classes := []; globalvar := [];
     main_func_index := -1; globalinit_func_index := -1;
     symbols := Some h64debugsymbols_New |}.

Section WithConstants.

(** [H64CLASS_HASH_SIZE] and [H64CLASS_MAX_METHODS] of bytecode.h,
    [uri_Normalize] of uri.c ([None] being [NULL]), and the contents of a
    member info cell that [realloc] hands out beyond the old block. *)
Variables H64CLASS_HASH_SIZE H64CLASS_MAX_METHODS : Z.
Variable uri_Normalize : string -> option string.
Variable indeterminate : h64classmemberinfo.

Definition realloc_buckets (cells : list h64classmemberinfo) (n : Z)
  : list h64classmemberinfo :=
  take (Z.to_nat n) cells
  ++ replicate (Z.to_nat n - length cells) indeterminate.

(** The scan [while (buckets[buckets_count].nameid >= 0)] of
    [h64program_RegisterClassMemberEx]: [None] when the name id is found
    (the function returns 0), else the final [buckets_count]. *)
Fixpoint register_scan (cells : list h64classmemberinfo) (nameid0 : Z)
    (buckets_count : Z) : outcome (option Z) :=
  match cells with
  | [] => Fault
  | c :: cells' =>
    if nameid c >=? 0 then
      if nameid c =? nameid0 then Ret None
      else register_scan cells' nameid0 (buckets_count + 1)
    else Ret (Some buckets_count)
  end.

Definition h64program_RegisterClassMemberEx
    (p : h64program) (class_id : Z) (name : string) (func_idx : Z)
    (o : alloc_oracle) : outcome (Z * h64program * alloc_oracle) :=
  match symbols p with
  | None => Ret (0, p, o)
  | Some sym =>
  let '(nameid0, sym, o) :=
    h64debugsymbols_MemberNameToMemberNameId sym name true o in
  let p := set_symbols p (Some sym) in
  if nameid0 <? 0 then Ret (0, p, o) else
  (* Allocate bucket slot: *)
  _ ← assert ((class_id >=? 0) && (class_id <? classes_count p));
  match classes p !! Z.to_nat class_id with
  | None => Fault
  | Some cls =>
  match global_name_to_member_hashmap cls with
  | None => AssertFail
  | Some hashmap =>
  let bucketindex := Z.rem nameid0 H64CLASS_HASH_SIZE in
  if bucketindex <? 0 then Fault else
  match hashmap !! Z.to_nat bucketindex with
  | None => Fault
  | Some buckets =>
  scanned ← register_scan buckets nameid0 0;
  match scanned with
  | None => Ret (0, p, o)
  | Some buckets_count =>
  let '(ok, o) := alloc_request o in
  if negb ok then Ret (0, p, o) else
  let buckets := realloc_buckets buckets (buckets_count + 2) in
  let hashmap := <[Z.to_nat bucketindex := buckets]> hashmap in
  let cls := set_hashmap cls (Some hashmap) in
  (* Allocate new slot for either methods or vars: *)
  let '(slot, o) :=
    if func_idx >=? 0 then
      if methods_count cls >=? H64CLASS_MAX_METHODS then (None, o) else
      let '(ok, o) := alloc_request o in
      if negb ok then (None, o) else
      let '(ok, o) := alloc_request o in
      if negb ok then (None, o) else
      let cls := set_methods cls (method_global_name_idx cls ++ [nameid0])
                   (method_func_idx cls ++ [func_idx]) in
      (Some (cls, methods_count cls - 1), o)
    else
      let '(ok, o) := alloc_request o in
      if negb ok then (None, o) else
      let cls := set_vars cls (vars_global_name_idx cls ++ [nameid0]) in
      (Some (cls, vars_count cls - 1), o) in
  match slot with
  | None => Ret (0, store_class p class_id cls, o)
  | Some (cls, entry_idx) =>
    (* Add into buckets: *)
    let buckets :=
      <[Z.to_nat (buckets_count + 1) :=
          {| nameid := -1; methodorvaridx := -1 |}]> buckets in
    let buckets :=
      <[Z.to_nat buckets_count :=
          {| nameid := nameid0;
             methodorvaridx :=
               if func_idx >? 0 then entry_idx
               else H64CLASS_MAX_METHODS + entry_idx |}]> buckets in
    let cls :=
      set_hashmap cls (Some (<[Z.to_nat bucketindex := buckets]> hashmap)) in
    Ret (1, store_class p class_id cls, o)
  end end end end end end.

(** The scan of [h64program_LookupClassMember]; the result is
    [( *out_membervarid, *out_memberfuncid)]. *)
Fixpoint lookup_scan (cells : list h64classmemberinfo) (nameid0 : Z)
  : outcome (Z * Z) :=
  match cells with
  | [] => Fault
  | c :: cells' =>
    if nameid c >=? 0 then
      if nameid c =? nameid0 then
        let result := methodorvaridx c in
        if result <? H64CLASS_MAX_METHODS then Ret (-1, result)
        else Ret (result - H64CLASS_MAX_METHODS, -1)
      else lookup_scan cells' nameid0
    else Ret (-1, -1)
  end.

Definition h64program_LookupClassMember
    (p : h64program) (class_id : Z) (nameid0 : Z) : outcome (Z * Z) :=
  _ ← assert (bool_decide (symbols p <> None));
  let bucketindex := Z.rem nameid0 H64CLASS_HASH_SIZE in
  if class_id <? 0 then Fault else
  match classes p !! Z.to_nat class_id with
  | None => Fault
  | Some cls =>
  match global_name_to_member_hashmap cls with
  | None => Fault
  | Some hashmap =>
  if bucketindex <? 0 then Fault else
  match hashmap !! Z.to_nat bucketindex with
  | None => Fault
  | Some buckets => lookup_scan buckets nameid0
  end end end.

(** [outs] holds what the two out parameters point to at the call. *)
Definition h64program_LookupClassMemberByname
    (p : h64program) (class_id : Z) (name : string) (outs : Z * Z)
  : outcome (Z * Z) :=
  match symbols p with
  | None => Fault
  | Some sym =>
    let '(nameid0, _, _) :=
      h64debugsymbols_MemberNameToMemberNameId sym name false [] in
    let outs := if nameid0 <? 0 then (-1, -1) else outs in
    (* the branch above does not return *)
    h64program_LookupClassMember p class_id nameid0
  end.

(** The search loop of [bytecode_fileuriindex], entered with [k = 0]:
    [Ret (-1)] when the loop ends without a match. *)
Fixpoint fileuriindex_search (fuel : nat) (uris : list string)
    (normalized_uri : string) (k : Z) : outcome Z :=
  match fuel with
  | O => Ret (-1)
  | S fuel' =>
    if k >? Z.of_nat (length uris) then
      match uris !! Z.to_nat k with
      | None => Fault
      | Some u =>
        if String.eqb u normalized_uri then Ret k
        else fileuriindex_search fuel' uris normalized_uri (k + 1)
      end
    else Ret (-1)
  end.

Definition bytecode_fileuriindex (p : h64program) (uri : string)
    (o : alloc_oracle) : outcome (Z * h64program * alloc_oracle) :=
  match uri_Normalize uri with
  | None => Ret (-1, p, o)
  | Some normalized_uri =>
  match symbols p with
  | None => Fault
  | Some sym =>
    fileuriindex ← fileuriindex_search (S (length (fileuri sym)))
                     (fileuri sym) normalized_uri 0;
    if fileuriindex <? 0 then
      let '(ok, o) := alloc_request o in
      if negb ok then Ret (-1, p, o) else
      let fileuriindex := fileuri_count sym in
      let sym := set_fileuri sym (fileuri sym ++ [normalized_uri]) in
      Ret (fileuriindex, set_symbols p (Some sym), o)
    else Ret (fileuriindex, p, o)
  end end.

(** The module a registration goes to: [Ret None] when
    [h64debugsymbols_GetModule] gives [NULL]. *)
Definition registration_module (sym : h64debugsymbols)
    (module_path library_name : option string) (o : alloc_oracle)
  : outcome (option msymbols_ptr * h64debugsymbols * alloc_oracle) :=
  match module_path with
  | Some path =>
    Ret (h64debugsymbols_GetModule sym path library_name true o)
  | None =>
    _ ← assert (bool_decide (library_name = None));
    Ret (Some (h64debugsymbols_GetBuiltinModule sym), sym, o)
  end.

Definition h64program_AddGlobalvar
    (p : h64program) (name : string) (is_const : Z)
    (fileuri : option string) (module_path library_name : option string)
    (o : alloc_oracle) : outcome (Z * h64program * alloc_oracle) :=
  _ ← assert (bool_decide (symbols p <> None));
  let '(ok, o) := alloc_request o in
  if negb ok then Ret (-1, p, o) else
  '(fileuriindex, p, o) ←
    match fileuri with
    | Some uri => bytecode_fileuriindex p uri o
    | None => Ret (-1, p, o)
    end;
  if bool_decide (fileuri <> None) && (fileuriindex <? 0)
  then Ret (-1, p, o) else
  match symbols p with
  | None => Fault
  | Some sym =>
  '(msymbols, sym, o) ← registration_module sym module_path library_name o;
  let p := set_symbols p (Some sym) in
  match msymbols with
  | None => Ret (-1, p, o)
  | Some msymbols =>
  match deref sym msymbols with
  | None => Fault
  | Some m =>
  (* Add to the globalvar symbols table: *)
  let '(ok, o) := alloc_request o in
  if negb ok then Ret (-1, p, o) else
  let '(ok, o) := alloc_request o in          (* strdup(name) *)
  if negb ok then Ret (-1, p, o) else
  let symbol := {| gsym_name := name; gsym_fileuri_index := fileuriindex;
                   gsym_is_const := is_const |} in
  (* Add globals to lookup-by-name hash table: *)
  let setno := DebugSymbols.globalvar_count m in
  let '(set, o) := hash_StringMapSet (globalvar_name_to_entry m) name setno o in
  match set with
  | None => Ret (-1, p, o)
  | Some names =>
    (* Add actual globalvar entry: *)
    let m := set_globalvar_table m names (globalvar_symbols m ++ [symbol]) in
    let p := set_symbols p (Some (store sym msymbols m)) in
    let p := set_globalvar p
               (globalvar p ++ [ {| gv_content := zero_valuecontent |} ]) in
    Ret (globalvar_count p - 1, p, o)
  end end end end.

(** The loop of [h64program_RegisterCFunction] that copies the keyword
    argument names; [Ret (None, _)] when a [strdup] fails. *)
Fixpoint kwarg_copy_loop (rounds : nat)
    (arg_kwarg_name : option (list (option string))) (i : nat)
    (acc : list (option string)) (o : alloc_oracle)
  : outcome (option (list (option string)) * alloc_oracle) :=
  match rounds with
  | O => Ret (Some acc, o)
  | S rounds' =>
    match arg_kwarg_name with
    | None => kwarg_copy_loop rounds' arg_kwarg_name (S i) (acc ++ [None]) o
    | Some names =>
      match names !! i with
      | None => Fault
      | Some None =>
        kwarg_copy_loop rounds' arg_kwarg_name (S i) (acc ++ [None]) o
      | Some (Some n) =>
        let '(ok, o) := alloc_request o in
        if negb ok then Ret (None, o)
        else kwarg_copy_loop rounds' arg_kwarg_name (S i) (acc ++ [Some n]) o
      end
    end
  end.

(** The label [funcsymboloom] of [h64program_RegisterCFunction]: what it
    leaves in the symbols [sym], [msymbols] being the module the function
    was to go to. *)
Definition funcsymboloom (p : h64program) (sym : h64debugsymbols)
    (msymbols : msymbols_ptr) (m : h64modulesymbols) (name : option string)
  : h64debugsymbols :=
  let m :=
    match name with
    | Some n =>
      set_func_table m (hash_StringMapUnset (func_name_to_entry m) n)
        (func_symbols m)
    | None => m
    end in
  let sym := store sym msymbols m in
  set_func_id_maps sym
    (hash_IntMapUnset (func_id_to_module_symbols_index sym) (func_count p))
    (hash_IntMapUnset (func_id_to_module_symbols_func_subindex sym)
       (func_count p)).

(** The parameter [func] of the source is [cfunc] here, [func] being the
    function table of the program. *)
Definition h64program_RegisterCFunction
    (p : h64program) (name : option string) (cfunc : option nat)
    (fileuri : option string) (arg_count : Z)
    (arg_kwarg_name : option (list (option string)))
    (last_is_multiarg : Z) (module_path library_name : option string)
    (is_threadable : Z) (associated_class_index : Z)
    (o : alloc_oracle) : outcome (Z * h64program * alloc_oracle) :=
  _ ← assert (bool_decide (symbols p <> None));
  _ ← assert (bool_decide (name <> None) || (associated_class_index <? 0));
  let '(ok, o) := alloc_request o in
  if negb ok then Ret (-1, p, o) else
  (* the index computed for [fileuri] goes to a variable of the inner
     block; the [fileuriindex] stored in the symbol stays -1 *)
  let fileuriindex := -1 in
  '(inner_fileuriindex, p, o) ←
    match fileuri with
    | Some uri => bytecode_fileuriindex p uri o
    | None => Ret (-1, p, o)
    end;
  if bool_decide (fileuri <> None) && (inner_fileuriindex <? 0)
  then Ret (-1, p, o) else
  '(cfunclookup_ok, cfunclookup, o) ←
    match cfunc with
    | None => Ret (true, None, o)
    | Some _ =>
      match name with
      | None => AssertFail
      | Some n =>
        let '(ok, o) := alloc_request o in
        if negb ok then Ret (false, None, o) else
        let writemodpath :=
          match module_path with
          | None => "$$builtin"%string
          | Some mp => if (String.length mp =? 0)%nat
                       then "$$builtin"%string else mp
          end in
        let s := (writemodpath +:+ "." +:+ n)%string in
        let s :=
          match library_name with
          | Some l => if (0 <? String.length l)%nat
                      then (s +:+ "@lib:" +:+ l)%string else s
          | None => s
          end in
        Ret (true, Some s, o)
      end
    end;
  if negb cfunclookup_ok then Ret (-1, p, o) else
  match symbols p with
  | None => Fault
  | Some sym =>
  '(msymbols, sym, o) ← registration_module sym module_path library_name o;
  let p := set_symbols p (Some sym) in
  match msymbols with
  | None => Ret (-1, p, o)
  | Some msymbols =>
  match deref sym msymbols with
  | None => Fault
  | Some m =>
  (* Add to the func symbols table: *)
  let '(ok, o) := alloc_request o in
  if negb ok then Ret (-1, p, o) else
  let oom (sym : h64debugsymbols) (m : h64modulesymbols) (o : alloc_oracle)
    : outcome (Z * h64program * alloc_oracle) :=
    Ret (-1, set_symbols p (Some (funcsymboloom p sym msymbols m name)), o) in
  let '(name_ok, o) :=
    match name with
    | Some _ => alloc_request o               (* strdup(name) *)
    | None => (true, o)
    end in
  if negb name_ok then oom sym m o else
  '(kwargs, o) ←
    (if arg_count >? 0 then
       let '(ok, o) := alloc_request o in
       if negb ok then Ret (None, o)
       else kwarg_copy_loop (Z.to_nat arg_count) arg_kwarg_name 0 [] o
     else Ret (Some [], o));
  match kwargs with
  | None => oom sym m o
  | Some kwargs =>
  (* Add function to lookup-by-name hash table: *)
  let setno := DebugSymbols.func_count m in
  let '(set, o) :=
    match name with
    | Some n => hash_StringMapSet (func_name_to_entry m) n setno o
    | None => (Some (func_name_to_entry m), o)
    end in
  match set with
  | None => oom sym m o
  | Some names =>
  let m := set_func_table m names (func_symbols m) in
  let sym := store sym msymbols m in
  (* Add it to lookups from func id to debug symbols: *)
  let '(set, o) :=
    hash_IntMapSet (func_id_to_module_symbols_index sym) (func_count p)
      (index m) o in
  match set with
  | None => oom sym m o
  | Some mi =>
  let sym := set_func_id_maps sym mi
               (func_id_to_module_symbols_func_subindex sym) in
  let '(set, o) :=
    hash_IntMapSet (func_id_to_module_symbols_func_subindex sym)
      (func_count p) (DebugSymbols.func_count m) o in
  match set with
  | None => oom sym m o
  | Some msub =>
  let sym := set_func_id_maps sym (func_id_to_module_symbols_index sym)
               msub in
  let p := set_symbols p (Some sym) in
  (* Register function as class method if it is one: *)
  '(registered, p, o) ←
    (if associated_class_index >=? 0 then
       match name with
       | None => AssertFail
       | Some n =>
         h64program_RegisterClassMemberEx p associated_class_index n
           (func_count p) o
       end
     else Ret (1, p, o));
  match symbols p with
  | None => Fault
  | Some sym =>
  match deref sym msymbols with
  | None => Fault
  | Some m =>
  if registered =? 0 then
    Ret (-1, set_symbols p (Some (funcsymboloom p sym msymbols m name)), o)
  else
  (* Add actual function entry: *)
  let entry :=
    {| iscfunc := true;
       input_stack_size :=
         arg_count + (if associated_class_index >=? 0 then 1 else 0);
       is_threadable := is_threadable;
       associated_class_index := associated_class_index;
       cfunclookup := cfunclookup;
       cfunc_ptr := cfunc;
       instructions := [] |} in
  let symbol :=
    {| fsym_name := name;
       fsym_fileuri_index := fileuriindex;
       fsym_arg_count := arg_count;
       fsym_arg_kwarg_name := kwargs;
       fsym_last_arg_is_multiarg := last_is_multiarg;
       fsym_has_self_arg := associated_class_index >=? 0;
       fsym_global_id := func_count p |} in
  let m := set_func_table m (func_name_to_entry m)
             (func_symbols m ++ [symbol]) in
  let p := set_symbols p (Some (store sym msymbols m)) in
  let p := set_func p (func p ++ [entry]) in
  Ret (func_count p - 1, p, o)
  end end end end end end end end end.

(** [p->func[idx].iscfunc = 0] *)
Definition clear_iscfunc (f : h64func) : h64func :=
  {| iscfunc := false;
     input_stack_size := input_stack_size f;
     is_threadable := is_threadable f;
     associated_class_index := associated_class_index f;
     cfunclookup := cfunclookup f;
     cfunc_ptr := cfunc_ptr f;
     instructions := instructions f |}.

Definition h64program_RegisterHorse64Function
    (p : h64program) (name : option string)
    (fileuri : option string) (arg_count : Z)
    (arg_kwarg_name : option (list (option string)))
    (last_is_multiarg : Z) (module_path library_name : option string)
    (associated_class_idx : Z)
    (o : alloc_oracle) : outcome (Z * h64program * alloc_oracle) :=
  '(idx, p, o) ←
    h64program_RegisterCFunction p name None fileuri arg_count
      arg_kwarg_name last_is_multiarg module_path library_name (-1)
      associated_class_idx o;
  if idx >=? 0 then
    match func p !! Z.to_nat idx with
    | None => Fault
    | Some f =>
      Ret (idx, set_func p (<[Z.to_nat idx := clear_iscfunc f]> (func p)), o)
    end
  else Ret (idx, p, o).

(** The label [classsymboloom] of [h64program_AddClass]. *)
Definition classsymboloom (p : h64program) (sym : h64debugsymbols)
    (msymbols : msymbols_ptr) (m : h64modulesymbols) (name : string)
  : h64debugsymbols :=
  let m := set_class_table m (hash_StringMapUnset (class_name_to_entry m) name)
             (classes_symbols m) in
  let sym := store sym msymbols m in
  set_class_id_maps sym
    (hash_IntMapUnset (class_id_to_module_symbols_index sym) (func_count p))
    (hash_IntMapUnset (class_id_to_module_symbols_class_subindex sym)
       (func_count p)).

(** The loop of [h64program_AddClass] that allocates the bucket heads;
    [None] when a [malloc] fails. *)
Fixpoint addclass_buckets_loop (rounds : nat)
    (acc : list (list h64classmemberinfo)) (o : alloc_oracle)
  : option (list (list h64classmemberinfo)) * alloc_oracle :=
  match rounds with
  | O => (Some acc, o)
  | S rounds' =>
    let '(ok, o) := alloc_request o in
    if negb ok then (None, o) else
    addclass_buckets_loop rounds'
      (acc ++ [[ {| nameid := -1; methodorvaridx := -1 |} ]]) o
  end.

Definition h64program_AddClass
    (p : h64program) (name : string)
    (fileuri : option string) (module_path library_name : option string)
    (o : alloc_oracle) : outcome (Z * h64program * alloc_oracle) :=
  _ ← assert (bool_decide (symbols p <> None));
  let '(ok, o) := alloc_request o in
  if negb ok then Ret (-1, p, o) else
  (* as in [h64program_RegisterCFunction], the stored index stays -1 *)
  let fileuriindex := -1 in
  '(inner_fileuriindex, p, o) ←
    match fileuri with
    | Some uri => bytecode_fileuriindex p uri o
    | None => Ret (-1, p, o)
    end;
  if bool_decide (fileuri <> None) && (inner_fileuriindex <? 0)
  then Ret (-1, p, o) else
  match symbols p with
  | None => Fault
  | Some sym =>
  '(msymbols, sym, o) ← registration_module sym module_path library_name o;
  let p := set_symbols p (Some sym) in
  match msymbols with
  | None => Ret (-1, p, o)
  | Some msymbols =>
  match deref sym msymbols with
  | None => Fault
  | Some m =>
  (* Add to the class symbols table: *)
  let '(ok, o) := alloc_request o in
  if negb ok then Ret (-1, p, o) else
  let oom (sym : h64debugsymbols) (m : h64modulesymbols) (o : alloc_oracle)
    : outcome (Z * h64program * alloc_oracle) :=
    Ret (-1, set_symbols p (Some (classsymboloom p sym msymbols m name)), o) in
  let '(ok, o) := alloc_request o in            (* strdup(name) *)
  if negb ok then oom sym m o else
  let symbol := {| csym_name := name; csym_fileuri_index := fileuriindex |} in
  (* Add class to lookup-by-name hash table: *)
  let setno := DebugSymbols.classes_count m in
  let '(set, o) := hash_StringMapSet (class_name_to_entry m) name setno o in
  match set with
  | None => oom sym m o
  | Some names =>
  let m := set_class_table m names (classes_symbols m) in
  let sym := store sym msymbols m in
  (* Add it to lookups from class id to debug symbols: *)
  let '(set, o) :=
    hash_IntMapSet (class_id_to_module_symbols_index sym) (classes_count p)
      (index m) o in
  match set with
  | None => oom sym m o
  | Some mi =>
  let sym := set_class_id_maps sym mi
               (class_id_to_module_symbols_class_subindex sym) in
  let '(set, o) :=
    hash_IntMapSet (class_id_to_module_symbols_class_subindex sym)
      (classes_count p) (DebugSymbols.classes_count m) o in
  match set with
  | None => oom sym m o
  | Some msub =>
  let sym := set_class_id_maps sym (class_id_to_module_symbols_index sym)
               msub in
  (* Add actual class entry: *)
  let '(ok, o) := alloc_request o in
  if negb ok then oom sym m o else
  let '(hashmap, o) :=
    addclass_buckets_loop (Z.to_nat H64CLASS_HASH_SIZE) [] o in
  match hashmap with
  | None => oom sym m o
  | Some hashmap =>
  let cls :=
    {| base_class_global_id := -1;
       hasvarinitfunc := false;
       method_global_name_idx := [];
       method_func_idx := [];
       vars_global_name_idx := [];
       global_name_to_member_hashmap := Some hashmap |} in
  let m := set_class_table m (class_name_to_entry m)
             (classes_symbols m ++ [symbol]) in
  let p := set_symbols p (Some (store sym msymbols m)) in
  let p := set_classes p (classes p ++ [cls]) in
  Ret (classes_count p - 1, p, o)
  end end end end end end end.

Definition h64program_RegisterClassVariable
    (p : h64program) (class_id : Z) (name : string) (o : alloc_oracle)
  : outcome (Z * h64program * alloc_oracle) :=
  h64program_RegisterClassMemberEx p class_id name (-1) o.

(** The result and the program of a registration that returns. *)
Definition returned_value (r : outcome (Z * h64program * alloc_oracle))
  : option Z :=
  match r with
  | Ret (v, _, _) => Some v
  | _ => None
  end.

Definition returned_program (r : outcome (Z * h64program * alloc_oracle))
  : h64program :=
  match r with
  | Ret (_, p, _) => p
  | _ => zeroed_program
  end.

(** A sequence of [h64program_RegisterClassMemberEx] calls on one class,
    each given as its [name] and [func_idx], whatever each call returns. *)
Fixpoint RegisterClassMemberEx_seq (p : h64program) (class_id : Z)
    (calls : list (string * Z)) (o : alloc_oracle)
  : outcome (h64program * alloc_oracle) :=
  match calls with
  | [] => Ret (p, o)
  | (name, func_idx) :: calls' =>
    '(_, p, o) ← h64program_RegisterClassMemberEx p class_id name func_idx o;
    RegisterClassMemberEx_seq p class_id calls' o
  end.

(** *** Predicates of the statements about the program object *)

(** The cells of a bucket: records with a name id that is not negative and
    no name id twice, then the sentinel with name id -1, then what the
    allocation holds beyond it. *)
Definition bucket_ok (cells : list h64classmemberinfo) : Prop :=
  exists records sentinel rest,
    cells = records ++ sentinel :: rest /\
    nameid sentinel = -1 /\
    Forall (fun r => 0 <= nameid r) records /\
    NoDup (map nameid records).

(** The member hashmap of a class: [H64CLASS_HASH_SIZE] such buckets. *)
Definition class_ok (cls : h64class) : Prop :=
  exists hashmap,
    global_name_to_member_hashmap cls = Some hashmap /\
    Z.of_nat (length hashmap) = H64CLASS_HASH_SIZE /\
    Forall bucket_ok hashmap.

(** [p'] differs from [p] in the symbols at most. *)
Definition same_tables (p p' : h64program) : Prop :=
  func p' = func p /\ classes p' = classes p /\
  globalvar p' = globalvar p /\
  main_func_index p' = main_func_index p /\
  globalinit_func_index p' = globalinit_func_index p.

(** What can be observed of a program: the tables up to their counts, the
    file URIs, the modules with their symbols and name maps, the member
    names, the maps from ids to modules, and the distinguished indexes. *)
Definition observable_state (p : h64program)
  : list h64func * list h64class * list h64globalvar * Z * Z
    * option h64debugsymbols :=
  (func p, classes p, globalvar p, main_func_index p,
   globalinit_func_index p, symbols p).

End WithConstants.

End Bytecode.

(** ** vmexec.c *)

Module VMExec.
Import Values Stack Bytecode.

(** Modelled from the spec: the GC values of gcvalue.h, which is not among
    the sources.  A heap value has a type, the two reference counts and,
    for a string, its code points. *)
Inductive gcvaluetype :=
| H64GCVALUETYPE_INVALID
| H64GCVALUETYPE_STRING
| H64GCVALUETYPE_OTHER.

Record h64stringval := {
  s : list Z;
  len : Z;
}.

Record h64gcvalue := {
  gc_type : gcvaluetype;
  heapreferencecount : Z;
  externalreferencecount : Z;
  str_val : h64stringval;
}.

(** Modelled from the spec: the pool allocator of poolalloc.c, which is not
    among the sources.  The pool holds the values in use by address;
    [poolalloc_malloc] hands out an address that is not in use, or [None]
    ([NULL]) when memory runs out. *)
Definition poolalloc := gmap nat h64gcvalue.

Definition poolalloc_malloc (heap : poolalloc) (o : alloc_oracle)
  : option nat * alloc_oracle :=
  let '(ok, o) := alloc_request o in
  if ok then (Some (fresh (dom heap)), o) else (None, o).

Definition poolalloc_free (heap : poolalloc) (ptr : nat) : poolalloc :=
  delete ptr heap.

(** Modelled from the spec: [vmstrings_Set], which is not among the
    sources, gives the string value a buffer of [len] code points, or fails
    when memory runs out. *)
Definition vmstrings_Set (len : Z) (o : alloc_oracle) : bool * alloc_oracle :=
  alloc_request o.

Record h64vmthread := {
  stack : option h64stack;
  heap : option poolalloc;
}.

(** Modelled from the spec: the macro [STACK_ENTRY] of stack.h, which is
    not among the sources, addresses a slot from the floor of the current
    function. *)
Definition STACK_ENTRY (st : h64stack) (no : Z) : Z :=
  no + current_func_floor st.

Definition set_entry (st : h64stack) (cells : list valuecontent) : h64stack :=
  {| entry_count := entry_count st; alloc_count := alloc_count st;
     entry := cells; current_func_floor := current_func_floor st |}.

Definition set_externalreferencecount (v : h64gcvalue) (n : Z) : h64gcvalue :=
  {| gc_type := gc_type v; heapreferencecount := heapreferencecount v;
     externalreferencecount := n; str_val := str_val v |}.

(** What a handler of the interpreter does next. *)
Inductive dispatch :=
| NextInstruction (st : h64stack) (hp : option poolalloc) (o : alloc_oracle)
| Return (r : Z) (st : h64stack) (hp : option poolalloc) (o : alloc_oracle).

(** The handler [inst_setconst].  [hp] is what the local variable [heap] of
    [vmthread_RunFunction] points to, [None] when it points to no pool. *)
Definition inst_setconst (st : h64stack) (hp : option poolalloc)
    (inst : h64instruction_setconst) (o : alloc_oracle) : outcome dispatch :=
  let vcidx := STACK_ENTRY st (slot inst) in
  if vcidx <? 0 then Fault else
  match entry st !! Z.to_nat vcidx with
  | None => Fault
  | Some vc =>
  let vc := valuecontent_Free vc in
  if bool_decide (type (content inst) = H64VALTYPE_CONSTPREALLOCSTR) then
    match hp with
    | None => Fault
    | Some pool =>
      let '(ptr, o) := poolalloc_malloc pool o in
      let vc := {| type := H64VALTYPE_GCVAL; int_value := int_value vc;
                   ptr_value := ptr;
                   constpreallocstr_len := constpreallocstr_len vc;
                   constpreallocstr_value := constpreallocstr_value vc |} in
      let st := set_entry st (<[Z.to_nat vcidx := vc]> (entry st)) in
      match ptr with
      | None => Ret (Return 0 st hp o)                    (* triggeroom *)
      | Some addr =>
        let '(ok, o) := vmstrings_Set (constpreallocstr_len (content inst)) o in
        if negb ok then
          let vc := {| type := H64VALTYPE_GCVAL; int_value := int_value vc;
                       ptr_value := None;
                       constpreallocstr_len := constpreallocstr_len vc;
                       constpreallocstr_value := constpreallocstr_value vc |} in
          Ret (Return 0 (set_entry st (<[Z.to_nat vcidx := vc]> (entry st)))
                 (Some (poolalloc_free pool addr)) o)     (* triggeroom *)
        else
        let n := constpreallocstr_len (content inst) in
        if (n <? 0)
           || (Z.of_nat (length (constpreallocstr_value (content inst))) <? n)
        then Fault else
        let gcval :=
          {| gc_type := H64GCVALUETYPE_STRING;
             heapreferencecount := 0;
             externalreferencecount := 1;
             str_val :=
               {| s := take (Z.to_nat n)
                         (constpreallocstr_value (content inst));
                  len := n |} |} in
        Ret (NextInstruction st (Some (<[addr := gcval]> pool)) o)
      end
    end
  else
    let vc := content inst in
    let st := set_entry st (<[Z.to_nat vcidx := vc]> (entry st)) in
    if bool_decide (type vc = H64VALTYPE_GCVAL) then
      match hp, ptr_value vc with
      | Some pool, Some addr =>
        match pool !! addr with
        | None => Fault
        | Some v =>
          Ret (NextInstruction st
                 (Some (<[addr := set_externalreferencecount v 1]> pool)) o)
        end
      | _, _ => Fault
      end
    else Ret (NextInstruction st hp o)
  end.

(** The dispatch [goto *jumptable[type]] over the instructions from [p] on.
    The table has no entry for the types after [H64INST_POPCATCHFRAME], and
    nothing stops the dispatch at the end of the instructions. *)
Fixpoint run_instructions (p : list h64instruction) (stack : option h64stack)
    (hp : option poolalloc) (o : alloc_oracle)
  : outcome (Z * option h64stack * option poolalloc * alloc_oracle) :=
  match p with
  | [] => Fault
  | Isetconst inst :: p' =>
    match stack with
    | None => Fault
    | Some st =>
      d ← inst_setconst st hp inst o;
      match d with
      | NextInstruction st hp o => run_instructions p' (Some st) hp o
      | Return r st hp o => Ret (r, Some st, hp, o)
      end
    end
  | Iother t :: _ =>
    match t with
    | H64INST_GETMEMBER | H64INST_JUMPTOFINALLY | H64INST_NEWLIST
    | H64INST_ADDTOLIST | H64INST_NEWSET | H64INST_ADDTOSET
    | H64INST_NEWVECTOR | H64INST_PUTVECTOR | H64INST_NEWMAP
    | H64INST_PUTMAP => Fault
    | H64INST_SETCONST => Fault   (* carried by [Isetconst] *)
    | _ => Ret (0, stack, hp, o)  (* invalid, or not implemented *)
    end
  end.

(** The pool the local variable [heap] of [vmthread_RunFunction] points
    to.  Its declaration is [poolalloc *heap = heap;]: the variable is
    initialised from itself and never receives [vmthread->heap], so that it
    designates no pool. *)
Definition local_heap (vmthread : h64vmthread) : option poolalloc := None.

(** [vmthread_RunFunction]: the C result with the stack of the thread
    after the run.  [einfo] tells whether the out parameter is non-NULL. *)
Definition vmthread_RunFunction (vmthread : option h64vmthread)
    (pr : h64program) (func_id : Z) (einfo : bool) (o : alloc_oracle)
  : outcome (Z * option h64vmthread * alloc_oracle) :=
  match vmthread with
  | None => Ret (0, vmthread, o)
  | Some vt =>
    if negb einfo then Ret (0, vmthread, o) else
    _ ← assert ((func_id >=? 0) && (func_id <? func_count pr));
    match func pr !! Z.to_nat func_id with
    | None => Fault
    | Some f =>
      let p := instructions f in
      let hp := local_heap vt in
      '(r, st, _, o) ← run_instructions p (stack vt) hp o;
      Ret (r, Some {| stack := st; heap := heap vt |}, o)
    end
  end.

End VMExec.

(** ** compiler/scoperesolver.c *)

Module Scoperesolver.

(** *** AST, results and project (compiler/ast.h, result.h, compileproject.h) *)

Inductive h64expressiontype :=
| H64EXPRTYPE_INVALID
| H64EXPRTYPE_VARDEF_STMT
| H64EXPRTYPE_FUNCDEF_STMT
| H64EXPRTYPE_CLASSDEF_STMT
| H64EXPRTYPE_IMPORT_STMT
| H64EXPRTYPE_FOR_STMT
| H64EXPRTYPE_INLINEFUNCDEF
| H64EXPRTYPE_CALL
| H64EXPRTYPE_LITERAL
| H64EXPRTYPE_IDENTIFIERREF
| H64EXPRTYPE_BINARYOP.

#[global] Instance h64expressiontype_eq_dec : EqDecision h64expressiontype.
Proof. solve_decision. Defined.

Inductive h64tokentype :=
| H64TK_CONSTANT_NONE
| H64TK_OTHER.

#[global] Instance h64tokentype_eq_dec : EqDecision h64tokentype.
Proof. solve_decision. Defined.

Inductive storagetype :=
| H64STORETYPE_INVALID
| H64STORETYPE_GLOBALVARSLOT
| H64STORETYPE_GLOBALFUNCSLOT
| H64STORETYPE_GLOBALCLASSSLOT.

#[global] Instance storagetype_eq_dec : EqDecision storagetype.
Proof. solve_decision. Defined.

Record storageref := {
  sr_type : storagetype;
  sr_id : Z;
}.

Record storageinfo := {
  set : bool;
  ref : storageref;
}.

Record funcargs := {
  arg_count : Z;
  arg_name : list (option string);
  arg_value : list (option nat);
  last_posarg_is_multiarg : Z;
}.

(** An expression node.  Pointers to expressions are indexes into the
    nodes of the AST; the members of the C union lie side by side.
    [scope_is_global] stands for [ast_GetScope(expr, &ast->scope)], which
    is not among the sources: [None] when it gives [NULL], else the
    [is_global] of the scope. *)
Record h64expression := {
  etype : h64expressiontype;
  parent : option nat;
  line : Z;
  column : Z;
  storage : storageinfo;
  scope_is_global : option bool;
  vardef_identifier : string;
  vardef_is_const : Z;
  vardef_value : option nat;
  classdef_name : string;
  funcdef_name : option string;
  funcdef_arguments : funcargs;
  funcdef_bytecode_func_id : Z;
  literal_type : h64tokentype;
  importstmt_import_elements : list string;
  importstmt_source_library : option string;
  importstmt_referenced_ast : option nat;
}.

Inductive h64messagetype :=
| H64MSG_ERROR
| H64MSG_INFO
| H64MSG_WARNING.

#[global] Instance h64messagetype_eq_dec : EqDecision h64messagetype.
Proof. solve_decision. Defined.

Record h64resultmessage := {
  msg_type : h64messagetype;
  message : string;
  msg_fileuri : option string;
  msg_line : Z;
  msg_column : Z;
}.

Record h64result := {
  success : bool;
  messages : list h64resultmessage;
}.

(** An AST.  [nodes] holds the expressions in the order in which
    [asttransform_Apply] visits them; [definitionref] holds the
    [declarationexpr] of the definitions of the file scope. *)
Record h64ast := {
  fileuri : string;
  module_path : option string;
  library_name : option string;
  resultmsg : h64result;
  global_storage_built : bool;
  identifiers_resolved : bool;
  nodes : list h64expression;
  definitionref : list nat;
}.

(** The compile project: the program, the result of the project, and the
    ASTs it holds, an [h64ast *] being an index into them. *)
Record h64compileproject := {
  program : Bytecode.h64program;
  pr_resultmsg : h64result;
  basefolder : string;
  asts : list h64ast;
}.

Record resolveinfo := {
  extract_main : bool;
  main_was_found : bool;
}.

Definition set_storage (e : h64expression) (st : storageinfo)
  : h64expression :=
  {| etype := etype e; parent := parent e; line := line e;
     column := column e; storage := st;
     scope_is_global := scope_is_global e;
     vardef_identifier := vardef_identifier e;
     vardef_is_const := vardef_is_const e;
     vardef_value := vardef_value e;
     classdef_name := classdef_name e;
     funcdef_name := funcdef_name e;
     funcdef_arguments := funcdef_arguments e;
     funcdef_bytecode_func_id := funcdef_bytecode_func_id e;
     literal_type := literal_type e;
     importstmt_import_elements := importstmt_import_elements e;
     importstmt_source_library := importstmt_source_library e;
     importstmt_referenced_ast := importstmt_referenced_ast e |}.

Definition set_bytecode_func_id (e : h64expression) (id : Z)
  : h64expression :=
  {| etype := etype e; parent := parent e; line := line e;
     column := column e; storage := storage e;
     scope_is_global := scope_is_global e;
     vardef_identifier := vardef_identifier e;
     vardef_is_const := vardef_is_const e;
     vardef_value := vardef_value e;
     classdef_name := classdef_name e;
     funcdef_name := funcdef_name e;
     funcdef_arguments := funcdef_arguments e;
     funcdef_bytecode_func_id := id;
     literal_type := literal_type e;
     importstmt_import_elements := importstmt_import_elements e;
     importstmt_source_library := importstmt_source_library e;
     importstmt_referenced_ast := importstmt_referenced_ast e |}.

Definition set_referenced_ast (e : h64expression) (a : option nat)
  : h64expression :=
  {| etype := etype e; parent := parent e; line := line e;
     column := column e; storage := storage e;
     scope_is_global := scope_is_global e;
     vardef_identifier := vardef_identifier e;
     vardef_is_const := vardef_is_const e;
     vardef_value := vardef_value e;
     classdef_name := classdef_name e;
     funcdef_name := funcdef_name e;
     funcdef_arguments := funcdef_arguments e;
     funcdef_bytecode_func_id := funcdef_bytecode_func_id e;
     literal_type := literal_type e;
     importstmt_import_elements := importstmt_import_elements e;
     importstmt_source_library := importstmt_source_library e;
     importstmt_referenced_ast := a |}.

Definition set_nodes (a : h64ast) (l : list h64expression) : h64ast :=
  {| fileuri := fileuri a; module_path := module_path a;
     library_name := library_name a; resultmsg := resultmsg a;
     global_storage_built := global_storage_built a;
     identifiers_resolved := identifiers_resolved a;
     nodes := l; definitionref := definitionref a |}.

Definition set_resultmsg (a : h64ast) (r : h64result) : h64ast :=
  {| fileuri := fileuri a; module_path := module_path a;
     library_name := library_name a; resultmsg := r;
     global_storage_built := global_storage_built a;
     identifiers_resolved := identifiers_resolved a;
     nodes := nodes a; definitionref := definitionref a |}.

Definition set_global_storage_built (a : h64ast) (b : bool) : h64ast :=
  {| fileuri := fileuri a; module_path := module_path a;
     library_name := library_name a; resultmsg := resultmsg a;
     global_storage_built := b;
     identifiers_resolved := identifiers_resolved a;
     nodes := nodes a; definitionref := definitionref a |}.

Definition set_module (a : h64ast) (path library : option string) : h64ast :=
  {| fileuri := fileuri a; module_path := path;
     library_name := library; resultmsg := resultmsg a;
     global_storage_built := global_storage_built a;
     identifiers_resolved := identifiers_resolved a;
     nodes := nodes a; definitionref := definitionref a |}.

Definition set_program (pr : h64compileproject) (p : Bytecode.h64program)
  : h64compileproject :=
  {| program := p; pr_resultmsg := pr_resultmsg pr;
     basefolder := basefolder pr; asts := asts pr |}.

Definition set_pr_resultmsg (pr : h64compileproject) (r : h64result)
  : h64compileproject :=
  {| program := program pr; pr_resultmsg := r;
     basefolder := basefolder pr; asts := asts pr |}.

Definition set_asts (pr : h64compileproject) (l : list h64ast)
  : h64compileproject :=
  {| program := program pr; pr_resultmsg := pr_resultmsg pr;
     basefolder := basefolder pr; asts := l |}.

(** [*ast = a] *)
Definition store_ast (pr : h64compileproject) (ast : nat) (a : h64ast)
  : h64compileproject :=
  set_asts pr (<[ast := a]> (asts pr)).

(** [ast->nodes[expr] = e] *)
Definition store_expr (pr : h64compileproject) (ast : nat) (expr : nat)
    (e : h64expression) : h64compileproject :=
  match asts pr !! ast with
  | None => pr
  | Some a => store_ast pr ast (set_nodes a (<[expr := e]> (nodes a)))
  end.

Definition set_success (r : h64result) (b : bool) : h64result :=
  {| success := b; messages := messages r |}.

(** Modelled from the spec: [result_AddMessage] of compiler/result.c, which
    is not among the sources, appends a record with the type, the text, the
    file URI, the line and the column; it fails when memory runs out. *)
Definition result_AddMessage (r : h64result) (t : h64messagetype)
    (msg : string) (uri : option string) (ln col : Z) (o : alloc_oracle)
  : bool * h64result * alloc_oracle :=
  let '(ok, o) := alloc_request o in
  if negb ok then (false, r, o) else
  (true,
   {| success := success r;
      messages := messages r
        ++ [ {| msg_type := t; message := msg; msg_fileuri := uri;
                msg_line := ln; msg_column := col |} ] |}, o).

(** Modelled from the spec: [result_TransferMessages] of compiler/result.c,
    which is not among the sources, adds the messages of [resultfrom] to
    [resultto], [resultfrom] keeping them; it fails when memory runs out. *)
Definition result_TransferMessages (resultfrom resultto : h64result)
    (o : alloc_oracle) : bool * h64result * alloc_oracle :=
  let '(ok, o) := alloc_request o in
  if negb ok then (false, resultto, o) else
  (true,
   {| success := success resultto;
      messages := messages resultto ++ messages resultfrom |}, o).

(** [snprintf(buf, size, ...)] keeps the first [size - 1] characters. *)
Definition snprintf (size : nat) (text : string) : string :=
  String.substring 0 (size - 1) text.

Definition isnullvardef (a : h64ast) (e : h64expression) : outcome bool :=
  if negb (bool_decide (etype e = H64EXPRTYPE_VARDEF_STMT)) then Ret false
  else
    match vardef_value e with
    | None => Ret true
    | Some v =>
      match nodes a !! v with
      | None => Fault
      | Some ve =>
        Ret (bool_decide (etype ve = H64EXPRTYPE_LITERAL)
             && bool_decide (literal_type ve = H64TK_CONSTANT_NONE))
      end
    end.

(** The walk [while (owningclass)] up the parents to the class that owns a
    definition.  A chain of parents longer than the number of nodes is a
    cycle, on which the C loop does not end; [fuel] is that number. *)
Fixpoint find_owningclass (fuel : nat) (l : list h64expression)
    (owningclass : option nat) : outcome (option nat) :=
  match owningclass with
  | None => Ret None
  | Some id =>
    match fuel with
    | O => Fault
    | S fuel' =>
      match l !! id with
      | None => Fault
      | Some e =>
        if bool_decide (etype e = H64EXPRTYPE_CLASSDEF_STMT)
        then Ret (Some id)
        else if bool_decide (etype e = H64EXPRTYPE_FUNCDEF_STMT)
                || bool_decide (etype e = H64EXPRTYPE_INLINEFUNCDEF)
        then Ret None
        else find_owningclass fuel' l (parent e)
      end
    end
  end.

(** The loop of [scoperesolver_ComputeItemStorage] that copies the names
    of the arguments with a default value; [Ret (None, _)] when a [strdup]
    fails. *)
Fixpoint kwarg_names_loop (rounds : nat) (args : funcargs) (i : nat)
    (acc : list (option string)) (o : alloc_oracle)
  : outcome (option (list (option string)) * alloc_oracle) :=
  match rounds with
  | O => Ret (Some acc, o)
  | S rounds' =>
    match arg_value args !! i with
    | None => Fault
    | Some None => kwarg_names_loop rounds' args (S i) (acc ++ [None]) o
    | Some (Some _) =>
      match arg_name args !! i with
      | Some (Some n) =>
        let '(ok, o) := alloc_request o in
        if negb ok then Ret (None, o)
        else kwarg_names_loop rounds' args (S i) (acc ++ [Some n]) o
      | _ => Fault
      end
    end
  end.

(** *** scoperesolver_ComputeItemStorage *)

Section WithEnvironment.

(** The constants and helpers of bytecode.c (see [Bytecode]), and the
    functions of the compiler the resolver calls that are not among the
    sources: the printers of ast.h, the path helpers and the loader of
    compileproject.h.  [None] results are [NULL], the boolean next to a
    result is its out-of-memory flag. *)
Variables H64CLASS_HASH_SIZE H64CLASS_MAX_METHODS : Z.
Variable uri_Normalize : string -> option string.
Variable indeterminate : Bytecode.h64classmemberinfo.
Variable ast_ExpressionToJSONStr : h64expression -> string -> string.
Variable ast_ExpressionTypeToStr : h64expressiontype -> string.
Variable compileproject_GetFileSubProjectPath :
  h64compileproject -> string -> option (string * option string) * bool.
Variable compileproject_URIRelPath :
  string -> string -> option string * bool.
Variable filesys_Normalize : string -> option string.
Variable compileproject_ResolveImport :
  h64compileproject -> string -> list string -> option string ->
  option string * bool.
Variable compileproject_GetAST :
  h64compileproject -> option string ->
  option nat * string * h64compileproject.

(** The result of a block of [scoperesolver_ComputeItemStorage]:
    [Some (r, oom)] when the function returns [r] there, with what it
    leaves in [*outofmemory], [None] when control goes on to the next
    block. *)
Definition block_result : Type :=
  option (Z * bool) * h64compileproject * alloc_oracle.

(** Recursive calls of [scoperesolver_ComputeItemStorage]. *)
Definition ComputeItemStorage_t : Type :=
  h64compileproject -> nat -> nat -> bool -> alloc_oracle ->
  outcome (Z * bool * h64compileproject * alloc_oracle).

(** Block "Assign global variables + classes storage". *)
Definition storage_global_items (pr : h64compileproject) (expr ast : nat)
    (o : alloc_oracle) : outcome block_result :=
  match asts pr !! ast with
  | None => Fault
  | Some a =>
  match nodes a !! expr with
  | None => Fault
  | Some e =>
  _ ← assert (bool_decide (Bytecode.symbols (program pr) <> None));
  match scope_is_global e with
  | None => AssertFail
  | Some is_global =>
  if is_global || bool_decide (etype e = H64EXPRTYPE_CLASSDEF_STMT) then
    if set (storage e) then Ret (Some (1, false), pr, o) else
    if bool_decide (etype e = H64EXPRTYPE_VARDEF_STMT) then
      '(global_id, p, o) ←
        Bytecode.h64program_AddGlobalvar uri_Normalize (program pr)
          (vardef_identifier e) (vardef_is_const e) (Some (fileuri a))
          (module_path a) (library_name a) o;
      let pr := set_program pr p in
      if global_id <? 0 then Ret (Some (0, true), pr, o) else
      let e := set_storage e
                 {| set := true;
                    ref := {| sr_type := H64STORETYPE_GLOBALVARSLOT;
                              sr_id := global_id |} |} in
      Ret (None, store_expr pr ast expr e, o)
    else if bool_decide (etype e = H64EXPRTYPE_CLASSDEF_STMT) then
      '(global_id, p, o) ←
        Bytecode.h64program_AddClass H64CLASS_HASH_SIZE uri_Normalize
          (program pr) (classdef_name e) (Some (fileuri a))
          (module_path a) (library_name a) o;
      let pr := set_program pr p in
      if global_id <? 0 then Ret (Some (0, true), pr, o) else
      let e := set_storage e
                 {| set := true;
                    ref := {| sr_type := H64STORETYPE_GLOBALCLASSSLOT;
                              sr_id := global_id |} |} in
      Ret (Some (1, false), store_expr pr ast expr e, o)
    else Ret (None, pr, o)
  else Ret (None, pr, o)
  end end end.

(** The class index of an owning class whose storage is assigned:
    the [assert] on [owningclass->storage] and the read of its id. *)
Definition owningclass_index (pr : h64compileproject) (ast : nat)
    (owningclass : nat) : outcome Z :=
  match asts pr !! ast with
  | None => Fault
  | Some a =>
    match nodes a !! owningclass with
    | None => Fault
    | Some oce =>
      _ ← assert (set (storage oce)
                  && bool_decide (sr_type (ref (storage oce))
                                  = H64STORETYPE_GLOBALCLASSSLOT)
                  && (sr_id (ref (storage oce)) >=? 0)
                  && (sr_id (ref (storage oce))
                      <? Bytecode.classes_count (program pr)));
      Ret (sr_id (ref (storage oce)))
    end
  end.

(** The recursive call on an owning class whose storage is not assigned
    yet; [(1, false)] when no call is needed. *)
Definition owningclass_storage (self : ComputeItemStorage_t)
    (pr : h64compileproject) (ast : nat) (owningclass : nat)
    (extract_main : bool) (o : alloc_oracle)
  : outcome (Z * bool * h64compileproject * alloc_oracle) :=
  match asts pr !! ast with
  | None => Fault
  | Some a =>
    match nodes a !! owningclass with
    | None => Fault
    | Some oce =>
      if negb (set (storage oce))
      then self pr owningclass ast extract_main o
      else Ret (1, false, pr, o)
    end
  end.

(** Block "Handle class members". *)
Definition storage_class_members (self : ComputeItemStorage_t)
    (pr : h64compileproject) (expr ast : nat) (extract_main : bool)
    (o : alloc_oracle) : outcome block_result :=
  match asts pr !! ast with
  | None => Fault
  | Some a =>
  match nodes a !! expr with
  | None => Fault
  | Some e =>
  match scope_is_global e with
  | None => AssertFail
  | Some is_global =>
  if negb is_global && bool_decide (etype e = H64EXPRTYPE_VARDEF_STMT) then
    owningclass ← find_owningclass (length (nodes a)) (nodes a) (parent e);
    match owningclass with
    | None => Ret (None, pr, o)
    | Some oc =>
      '(innerresult, inneroom, pr, o) ←
        owningclass_storage self pr ast oc extract_main o;
      if innerresult =? 0 then Ret (Some (0, inneroom), pr, o) else
      owningclassindex ← owningclass_index pr ast oc;
      '(registered, p, o) ←
        Bytecode.h64program_RegisterClassVariable H64CLASS_HASH_SIZE
          H64CLASS_MAX_METHODS indeterminate (program pr) owningclassindex
          (vardef_identifier e) o;
      let pr := set_program pr p in
      if registered =? 0 then Ret (Some (0, true), pr, o) else
      isnull ← isnullvardef a e;
      match Bytecode.classes (program pr) !! Z.to_nat owningclassindex with
      | None => Fault
      | Some cls =>
        if negb isnull && negb (Bytecode.hasvarinitfunc cls) then
          '(idx, p, o) ←
            Bytecode.h64program_RegisterHorse64Function H64CLASS_HASH_SIZE
              H64CLASS_MAX_METHODS uri_Normalize indeterminate (program pr)
              (Some "$$varinit"%string) (Some (fileuri a)) 0 None 0
              (module_path a) (library_name a) owningclassindex o;
          let pr := set_program pr p in
          if idx <? 0 then Ret (Some (0, true), pr, o)
          else Ret (Some (1, false), pr, o)
        else Ret (Some (1, false), pr, o)
      end
    end
  else Ret (None, pr, o)
  end end end.

(** The handling of a function named main in the file scope, when
    [extract_main] is set: [Some (0, true)] on the returns for lack of
    memory. *)
Definition extract_main_func (pr : h64compileproject) (ast : nat)
    (e : h64expression) (bytecode_func_id : Z) (o : alloc_oracle)
  : outcome block_result :=
  match asts pr !! ast with
  | None => Fault
  | Some a =>
  if Bytecode.main_func_index (program pr) >=? 0 then
    let buf := snprintf 255 "unexpected duplicate main func found" in
    let '(added, r, o) :=
      result_AddMessage (resultmsg a) H64MSG_ERROR buf (Some (fileuri a))
        (line e) (column e) o in
    if negb added then Ret (Some (0, true), pr, o) else
    let a := set_resultmsg a (set_success r false) in
    let pr := store_ast pr ast a in
    let '(transferred, r, o) :=
      result_TransferMessages (resultmsg a) (pr_resultmsg pr) o in
    if negb transferred then Ret (Some (0, true), pr, o) else
    Ret (None, set_pr_resultmsg pr (set_success r false), o)
  else
    _ ← assert (bytecode_func_id >=? 0);
    let p := Bytecode.set_main_func_index (program pr) bytecode_func_id in
    match Bytecode.symbols p, module_path a with
    | Some sym, Some mp =>
      let '(ok, o) := alloc_request o in        (* strdup(ast->module_path) *)
      let sym := DebugSymbols.set_mainfile sym (if ok then Some mp else None)
                   (DebugSymbols.mainfileuri_index sym) in
      let p := Bytecode.set_symbols p (Some sym) in
      if negb ok then Ret (Some (0, true), set_program pr p, o) else
      '(idx, p, o) ← Bytecode.bytecode_fileuriindex uri_Normalize p
                       (fileuri a) o;
      match Bytecode.symbols p with
      | None => Fault
      | Some sym =>
        let sym := DebugSymbols.set_mainfile sym
                     (DebugSymbols.mainfile_module_path sym) idx in
        let pr := set_program pr (Bytecode.set_symbols p (Some sym)) in
        if idx <? 0 then Ret (Some (0, true), pr, o)
        else Ret (None, pr, o)
      end
    | _, _ => Fault
    end
  end.

(** Block "Add functions to bytecode", with the final [return 1]. *)
Definition storage_functions (self : ComputeItemStorage_t)
    (pr : h64compileproject) (expr ast : nat) (extract_main : bool)
    (o : alloc_oracle)
  : outcome (Z * bool * h64compileproject * alloc_oracle) :=
  match asts pr !! ast with
  | None => Fault
  | Some a =>
  match nodes a !! expr with
  | None => Fault
  | Some e =>
  match scope_is_global e with
  | None => AssertFail
  | Some is_global =>
  if bool_decide (etype e = H64EXPRTYPE_FUNCDEF_STMT)
     || bool_decide (etype e = H64EXPRTYPE_INLINEFUNCDEF) then
    (* Get the class owning this func, if any: *)
    owningclass ← find_owningclass (length (nodes a)) (nodes a) (parent e);
    '(innerresult, inneroom, pr, o) ←
      match owningclass with
      | Some oc => owningclass_storage self pr ast oc extract_main o
      | None => Ret (1, false, pr, o)
      end;
    if innerresult =? 0 then Ret (0, inneroom, pr, o) else
    owningclassindex ←
      match owningclass with
      | Some oc => owningclass_index pr ast oc
      | None => Ret (-1)
      end;
    (* Assemble names and parameter info for the function: *)
    let name := funcdef_name e in
    let args := funcdef_arguments e in
    _ ← assert (arg_count args >=? 0);
    let '(ok, o) :=
      if arg_count args >? 0 then alloc_request o else (true, o) in
    if negb ok then Ret (0, true, pr, o) else
    '(copied, o) ← kwarg_names_loop (Z.to_nat (arg_count args)) args 0 [] o;
    match copied with
    | None => Ret (0, true, pr, o)
    | Some names =>
    let kwarg_names := if arg_count args >? 0 then Some names else None in
    _ ← assert (bool_decide (name <> None)
                || bool_decide (etype e = H64EXPRTYPE_INLINEFUNCDEF));
    (* Register actual bytecode program entry for function: *)
    '(bytecode_func_id, p, o) ←
      Bytecode.h64program_RegisterHorse64Function H64CLASS_HASH_SIZE
        H64CLASS_MAX_METHODS uri_Normalize indeterminate (program pr)
        name (Some (fileuri a)) (arg_count args) kwarg_names
        (last_posarg_is_multiarg args) (module_path a) (library_name a)
        owningclassindex o;
    let pr := set_program pr p in
    if bytecode_func_id <? 0 then Ret (0, true, pr, o) else
    '(early, e, pr, o) ←
      (if is_global then
         let e := set_storage e
                    {| set := true;
                       ref := {| sr_type := H64STORETYPE_GLOBALFUNCSLOT;
                                 sr_id := bytecode_func_id |} |} in
         let pr := store_expr pr ast expr e in
         if bool_decide (name = Some "main"%string) && extract_main then
           '(early, pr, o) ← extract_main_func pr ast e bytecode_func_id o;
           Ret (early, e, pr, o)
         else Ret (None, e, pr, o)
       else Ret (None, e, pr, o));
    match early with
    | Some (r, oom) => Ret (r, oom, pr, o)
    | None =>
      let e := set_bytecode_func_id e bytecode_func_id in
      Ret (1, false, store_expr pr ast expr e, o)
    end
    end
  else Ret (1, false, pr, o)
  end end end.

Definition ComputeItemStorage_body (self : ComputeItemStorage_t)
  : ComputeItemStorage_t :=
  fun pr expr ast extract_main o =>
  '(returned, pr, o) ← storage_global_items pr expr ast o;
  match returned with
  | Some (r, oom) => Ret (r, oom, pr, o)
  | None =>
    '(returned, pr, o) ←
      storage_class_members self pr expr ast extract_main o;
    match returned with
    | Some (r, oom) => Ret (r, oom, pr, o)
    | None => storage_functions self pr expr ast extract_main o
    end
  end.

(** [scoperesolver_ComputeItemStorage project expr program ast
    extract_main outofmemory], [program] being [project->program]; the
    result is the C result with the final [*outofmemory].  The function
    calls itself on the class that owns the item only, and that call makes
    no further one: [depth] bounds the nesting of the calls, and 2 is
    enough. *)
Fixpoint scoperesolver_ComputeItemStorage (depth : nat)
  : ComputeItemStorage_t :=
  match depth with
  | O => fun _ _ _ _ _ => Fault
  | S depth' =>
    ComputeItemStorage_body (scoperesolver_ComputeItemStorage depth')
  end.

(** *** The visitor that builds the global storage *)

(** The loop of the visitor over the arguments of a call, which interns
    the names of the keyword arguments; [false] when memory runs out. *)
Fixpoint intern_kwarg_loop (rounds : nat) (args : funcargs) (i : nat)
    (sym : DebugSymbols.h64debugsymbols) (o : alloc_oracle)
  : outcome (bool * DebugSymbols.h64debugsymbols * alloc_oracle) :=
  match rounds with
  | O => Ret (true, sym, o)
  | S rounds' =>
    match arg_name args !! i with
    | None => Fault
    | Some None => intern_kwarg_loop rounds' args (S i) sym o
    | Some (Some n) =>
      let '(idx, sym, o) :=
        DebugSymbols.h64debugsymbols_MemberNameToMemberNameId sym n true o in
      if idx <? 0 then Ret (false, sym, o)
      else intern_kwarg_loop rounds' args (S i) sym o
    end
  end.

(** [_resolvercallback_BuildGlobalStorage_visit_out expr parent ud]: the C
    result, and whether [atinfo->hadoutofmemory] was set.  The arguments
    of a call are read through the [funcdef] member of the union, as in
    the source. *)
Definition _resolvercallback_BuildGlobalStorage_visit_out
    (pr : h64compileproject) (expr ast : nat) (rinfo : resolveinfo)
    (o : alloc_oracle)
  : outcome (Z * bool * h64compileproject * alloc_oracle) :=
  match asts pr !! ast with
  | None => Fault
  | Some a =>
  match nodes a !! expr with
  | None => Fault
  | Some e =>
  (* Add keyword argument names as global name indexes: *)
  '(interned, pr, o) ←
    (if bool_decide (etype e = H64EXPRTYPE_CALL) then
       match Bytecode.symbols (program pr) with
       | None => Fault
       | Some sym =>
         '(ok, sym, o) ←
           intern_kwarg_loop (Z.to_nat (arg_count (funcdef_arguments e)))
             (funcdef_arguments e) 0 sym o;
         Ret (ok, set_program pr
                    (Bytecode.set_symbols (program pr) (Some sym)), o)
       end
     else Ret (true, pr, o));
  if negb interned then Ret (0, true, pr, o) else
  (* Add file-global items to the project-global item lookups: *)
  if bool_decide (etype e = H64EXPRTYPE_VARDEF_STMT)
     || bool_decide (etype e = H64EXPRTYPE_CLASSDEF_STMT)
     || bool_decide (etype e = H64EXPRTYPE_FUNCDEF_STMT)
     || bool_decide (etype e = H64EXPRTYPE_INLINEFUNCDEF) then
    match scope_is_global e with
    | None =>
      if success (resultmsg a) then
        (* No error yet, so this can't be a follow-up issue *)
        let s := ast_ExpressionToJSONStr e (fileuri a) in
        let '(heap_ok, o) := alloc_request o in
        let buflen :=
          if heap_ok then (String.length s + 2048)%nat else 1024%nat in
        parenttype ←
          match parent e with
          | None => Ret "none"%string
          | Some pa =>
            match nodes a !! pa with
            | None => Fault
            | Some pe => Ret (ast_ExpressionTypeToStr (etype pe))
            end
          end;
        let buf :=
          snprintf (buflen - 1)
            ("internal error: failed to obtain scope, malformed AST? expr: "
             +:+ ast_ExpressionTypeToStr (etype e) +:+ "/" +:+ s
             +:+ ", parent: " +:+ parenttype) in
        let a := set_resultmsg a (set_success (resultmsg a) false) in
        let '(added, r, o) :=
          result_AddMessage (resultmsg a) H64MSG_ERROR buf
            (Some (fileuri a)) (line e) (column e) o in
        let pr := store_ast pr ast (set_resultmsg a r) in
        if negb added then Ret (0, true, pr, o) else Ret (1, false, pr, o)
      else Ret (1, false, pr, o)
    | Some is_global =>
      if (is_global && negb (set (storage e)))
         || ((bool_decide (etype e = H64EXPRTYPE_FUNCDEF_STMT)
              || bool_decide (etype e = H64EXPRTYPE_INLINEFUNCDEF))
             && (funcdef_bytecode_func_id e <? 0)) then
        '(computed, outofmemory, pr, o) ←
          scoperesolver_ComputeItemStorage 2 pr expr ast
            (extract_main rinfo) o;
        if computed =? 0 then
          if (outofmemory : bool) then Ret (0, true, pr, o) else
          match asts pr !! ast with
          | None => Fault
          | Some a =>
            let buf :=
              snprintf 255
                ("internal error: failed to compute storage for expr: "
                 +:+ ast_ExpressionTypeToStr (etype e)) in
            let '(added, r, o) :=
              result_AddMessage (resultmsg a) H64MSG_ERROR buf
                (Some (fileuri a)) (line e) (column e) o in
            let pr := store_ast pr ast (set_resultmsg a r) in
            if negb added then Ret (0, true, pr, o)
            else Ret (1, false, pr, o)
          end
        else Ret (1, false, pr, o)
      else Ret (1, false, pr, o)
    end
  else Ret (1, false, pr, o)
  end end.

(** Modelled from the spec: [asttransform_Apply] of compiler/asttransform.c,
    which is not among the sources, applies the visitor to every expression
    of the AST and gives 0 when a visit gives 0. *)
Fixpoint asttransform_visit
    (visit_out : h64compileproject -> nat -> nat -> resolveinfo ->
                 alloc_oracle ->
                 outcome (Z * bool * h64compileproject * alloc_oracle))
    (exprs : list nat) (pr : h64compileproject) (ast : nat)
    (ud : resolveinfo) (o : alloc_oracle)
  : outcome (Z * h64compileproject * alloc_oracle) :=
  match exprs with
  | [] => Ret (1, pr, o)
  | expr :: exprs' =>
    '(r, _, pr, o) ← visit_out pr expr ast ud o;
    if r =? 0 then Ret (0, pr, o)
    else asttransform_visit visit_out exprs' pr ast ud o
  end.

Definition asttransform_Apply
    (visit_out : h64compileproject -> nat -> nat -> resolveinfo ->
                 alloc_oracle ->
                 outcome (Z * bool * h64compileproject * alloc_oracle))
    (pr : h64compileproject) (ast : nat) (ud : resolveinfo)
    (o : alloc_oracle) : outcome (Z * h64compileproject * alloc_oracle) :=
  match asts pr !! ast with
  | None => Fault
  | Some a =>
    asttransform_visit visit_out (seq 0 (length (nodes a))) pr ast ud o
  end.

(** *** scoperesolver_BuildASTGlobalStorage *)

Fixpoint string_has (c : Ascii.ascii) (s : string) : bool :=
  match s with
  | EmptyString => false
  | String c' s' => if Ascii.eqb c' c then true else string_has c s'
  end.

Fixpoint string_replace (c d : Ascii.ascii) (s : string) : string :=
  match s with
  | EmptyString => EmptyString
  | String c' s' =>
    String (if Ascii.eqb c' c then d else c') (string_replace c d s')
  end.

Definition quote : string := String (ascii_of_nat 34) EmptyString.

(** A message added to the result of the AST at [ast], for the file of
    the AST, at [(ln, col)]. *)
Definition add_ast_message (pr : h64compileproject) (ast : nat)
    (msg : string) (ln col : Z) (o : alloc_oracle)
  : outcome (bool * h64compileproject * alloc_oracle) :=
  match asts pr !! ast with
  | None => Fault
  | Some a =>
    let '(added, r, o) :=
      result_AddMessage (resultmsg a) H64MSG_ERROR msg (Some (fileuri a))
        ln col o in
    Ret (added, store_ast pr ast (set_resultmsg a r), o)
  end.

Definition set_ast_success (pr : h64compileproject) (ast : nat) (b : bool)
  : h64compileproject :=
  match asts pr !! ast with
  | None => pr
  | Some a => store_ast pr ast (set_resultmsg a (set_success (resultmsg a) b))
  end.

(** Block "Set module path if missing": [Some r] when the function returns
    [r] there. *)
Definition assign_module_path (pr : h64compileproject) (ast : nat)
    (o : alloc_oracle)
  : outcome (option Z * h64compileproject * alloc_oracle) :=
  match asts pr !! ast with
  | None => Fault
  | Some a =>
  match module_path a with
  | Some _ => Ret (None, pr, o)
  | None =>
  let '(located, pathoom) :=
    compileproject_GetFileSubProjectPath pr (fileuri a) in
  match located with
  | None =>
    if negb pathoom then
      let buf :=
        snprintf 2047
          ("unexpected failure to locate file's project base: "
           +:+ fileuri a +:+ " - with overall project folder: "
           +:+ basefolder pr) in
      '(added, pr, o) ← add_ast_message pr ast buf (-1) (-1) o;
      if negb added then Ret (Some 0, pr, o)   (* Out of memory *)
      else Ret (Some 1, pr, o)                 (* regular abort with failure *)
    else Ret (Some 0, pr, o)
  | Some (project_path, library_source) =>
  let '(relpath, modpathoom) :=
    compileproject_URIRelPath project_path (fileuri a) in
  match relpath with
  | None =>
    if negb modpathoom then
      let buf :=
        snprintf 2047
          ("failed to locate this file path inside project: "
           +:+ fileuri a +:+ " (file project base: " +:+ project_path
           +:+ ", overall project base: " +:+ basefolder pr +:+ ")") in
      '(added, pr, o) ← add_ast_message pr ast buf (-1) (-1) o;
      if negb added then Ret (Some 0, pr, o) else Ret (Some 1, pr, o)
    else Ret (Some 0, pr, o)
  | Some mp =>
  (* Strip away file extension and normalize: *)
  let mp :=
    if (4 <? String.length mp)%nat
       && String.eqb (String.substring (String.length mp - 4) 4 mp) ".h64"
    then String.substring 0 (String.length mp - 4) mp else mp in
  match filesys_Normalize mp with
  | None => Ret (Some 0, pr, o)
  | Some mp =>
  (* If path has dots in later elements, then abort with error: *)
  if string_has "."%char mp then
    let buf :=
      snprintf 255
        ("cannot integrate module with dots in file path: " +:+ mp) in
    '(added, pr, o) ← add_ast_message pr ast buf (-1) (-1) o;
    if negb added then Ret (Some 0, pr, o) else Ret (Some 1, pr, o)
  else
  (* Replace file separators with dots: *)
  let mp := string_replace "/"%char "."%char mp in
  let '(ok, o) := alloc_request o in              (* strdup(module_path) *)
  if negb ok then Ret (Some 0, pr, o) else
  Ret (None, store_ast pr ast (set_module a (Some mp) library_source), o)
  end end end end end.

(** The text for a module that is not found: the import elements joined
    by dots in a buffer of 128 bytes, cut with three dots when it is
    full. *)
Definition import_modpath (elements : list string) : string :=
  let full := String.concat "." elements in
  let modpath := String.substring 0 127 full in
  if (127 <=? String.length modpath)%nat
  then (String.substring 0 124 modpath +:+ "...")%string
  else modpath.

(** Loop "First, make sure all imports are loaded up" over the
    definitions [defs] of the file scope: [Some r] when the function
    returns [r] there. *)
Fixpoint load_imports (defs : list nat) (pr : h64compileproject)
    (ast : nat) (o : alloc_oracle)
  : outcome (option Z * h64compileproject * alloc_oracle) :=
  match defs with
  | [] => Ret (None, pr, o)
  | expr :: defs' =>
    match asts pr !! ast with
    | None => Fault
    | Some a =>
    match nodes a !! expr with
    | None => Fault
    | Some e =>
    skip ←
      (if negb (bool_decide (etype e = H64EXPRTYPE_IMPORT_STMT))
       then Ret true else
       match importstmt_referenced_ast e with
       | None => Ret false
       | Some ra =>
         match asts pr !! ra with
         | None => Fault
         | Some ra => Ret (0 <? String.length (fileuri ra))%nat
         end
       end);
    if (skip : bool) then load_imports defs' pr ast o else
    let '(file_path, oom) :=
      compileproject_ResolveImport pr (fileuri a)
        (importstmt_import_elements e) (importstmt_source_library e) in
    '(early, pr, o) ←
      match file_path with
      | Some _ => Ret (None, pr, o)
      | None =>
        if oom then
          '(_, pr, o) ←
            add_ast_message pr ast
              "import failed, out of memory or other fatal internal error"
              (line e) (column e) o;
          Ret (Some 0, pr, o)
        else
          let buf :=
            snprintf 255
              ("couldn't resolve import, module " +:+ quote
               +:+ import_modpath (importstmt_import_elements e)
               +:+ quote +:+ " not found") in
          let pr := set_ast_success pr ast false in
          '(added, pr, o) ←
            add_ast_message pr ast buf (line e) (column e) o;
          if negb added then
            '(_, pr, o) ←
              add_ast_message pr ast "out of memory" (line e) (column e) o;
            Ret (Some 0, pr, o)
          else Ret (None, pr, o)
      end;
    match early with
    | Some r => Ret (Some r, pr, o)
    | None =>
    _ ← assert (bool_decide (importstmt_referenced_ast e = None));
    let '(got, error, pr) := compileproject_GetAST pr file_path in
    '(early, pr, o) ←
      match got with
      | Some ra =>
        Ret (None, store_expr pr ast expr (set_referenced_ast e (Some ra)), o)
      | None =>
        let pr := store_expr pr ast expr (set_referenced_ast e None) in
        let buf :=
          snprintf 255
            ("unexpected failure to process import: " +:+ error) in
        let pr := set_ast_success pr ast false in
        '(added, pr, o) ← add_ast_message pr ast buf (line e) (column e) o;
        if negb added then
          '(_, pr, o) ←
            add_ast_message pr ast "out of memory" (line e) (column e) o;
          Ret (Some 0, pr, o)
        else Ret (None, pr, o)
      end;
    match early with
    | Some r => Ret (Some r, pr, o)
    | None =>
      match asts pr !! ast with
      | None => Fault
      | Some a =>
        _ ← assert (bool_decide (got <> None) || negb (success (resultmsg a)));
        load_imports defs' pr ast o
      end
    end end end end
  end.

(** One call of [scoperesolver_BuildASTGlobalStorage], noted for the
    statements about which calls are made: the AST and the arguments
    [recursive] and [rinfo->extract_main]. *)
Record invocation := {
  inv_ast : nat;
  inv_recursive : bool;
  inv_extract_main : bool;
}.

Definition BuildASTGlobalStorage_t : Type :=
  h64compileproject -> nat -> bool -> resolveinfo -> alloc_oracle ->
  outcome (Z * h64compileproject * alloc_oracle * list invocation).

(** Loop "Do recursive handling if asked for" over the definitions
    [defs] of the file scope; [calls] are the calls made so far. *)
Fixpoint recurse_imports (self : BuildASTGlobalStorage_t) (defs : list nat)
    (pr : h64compileproject) (ast : nat) (rinfo : resolveinfo)
    (o : alloc_oracle) (calls : list invocation)
  : outcome (option Z * h64compileproject * alloc_oracle * list invocation) :=
  match defs with
  | [] => Ret (None, pr, o, calls)
  | expr :: defs' =>
    match asts pr !! ast with
    | None => Fault
    | Some a =>
    match nodes a !! expr with
    | None => Fault
    | Some e =>
    if negb (bool_decide (etype e = H64EXPRTYPE_IMPORT_STMT))
    then recurse_imports self defs' pr ast rinfo o calls else
    match importstmt_referenced_ast e with
    | None => recurse_imports self defs' pr ast rinfo o calls
    | Some ra =>
      let rinfo2 := {| extract_main := false;
                       main_was_found := main_was_found rinfo |} in
      '(r, pr, o, made) ← self pr ra false rinfo2 o;
      let calls := calls ++ made in
      if r =? 0 then Ret (Some 0, pr, o, calls) else
      match asts pr !! ra with
      | None => Fault
      | Some imported =>
        let '(transferred, res, o) :=
          result_TransferMessages (resultmsg imported) (pr_resultmsg pr) o in
        let pr := set_pr_resultmsg pr res in
        if negb transferred then Ret (Some 0, pr, o, calls)
        else recurse_imports self defs' pr ast rinfo o calls
      end
    end end end
  end.

(** The body of [scoperesolver_BuildASTGlobalStorage]; the debug output
    asked for by [miscoptions] is left out.  The definitions of the file
    scope are those the AST has when a loop over them starts. *)
Definition BuildASTGlobalStorage_body (self : BuildASTGlobalStorage_t)
  : BuildASTGlobalStorage_t :=
  fun pr unresolved_ast recursive rinfo o =>
  let this := {| inv_ast := unresolved_ast; inv_recursive := recursive;
                 inv_extract_main := extract_main rinfo |} in
  match asts pr !! unresolved_ast with
  | None => Fault
  | Some a =>
  if global_storage_built a then Ret (1, pr, o, [this]) else
  (* Mark done even if we fail: *)
  let a := set_global_storage_built a true in
  let pr := store_ast pr unresolved_ast a in
  (* Set module path if missing: *)
  '(early, pr, o) ← assign_module_path pr unresolved_ast o;
  match early with
  | Some r => Ret (r, pr, o, [this])
  | None =>
  (* First, make sure all imports are loaded up: *)
  '(early, pr, o) ← load_imports (definitionref a) pr unresolved_ast o;
  match early with
  | Some r => Ret (r, pr, o, [this])
  | None =>
  (* Build global storage: *)
  '(buildstorageresult, pr, o) ←
    asttransform_Apply _resolvercallback_BuildGlobalStorage_visit_out
      pr unresolved_ast rinfo o;
  if buildstorageresult =? 0 then Ret (0, pr, o, [this]) else
  (* Do recursive handling if asked for: *)
  if recursive then
    match asts pr !! unresolved_ast with
    | None => Fault
    | Some a =>
      '(early, pr, o, calls) ←
        recurse_imports self (definitionref a) pr unresolved_ast rinfo o
          [this];
      match early with
      | Some r => Ret (r, pr, o, calls)
      | None => Ret (1, pr, o, calls)
      end
    end
  else Ret (1, pr, o, [this])
  end end end.

(** [scoperesolver_BuildASTGlobalStorage pr miscoptions unresolved_ast
    recursive rinfo]: the C result and the calls made, this one first.
    [depth] bounds the nesting of the calls. *)
Fixpoint scoperesolver_BuildASTGlobalStorage (depth : nat)
  : BuildASTGlobalStorage_t :=
  match depth with
  | O => fun _ _ _ _ _ => Fault
  | S depth' =>
    BuildASTGlobalStorage_body (scoperesolver_BuildASTGlobalStorage depth')
  end.

End WithEnvironment.

(** *** Predicates of the statements about the resolver *)

(** The call that the loop over the imports makes for the AST [ra]: not
    recursive, and without the extraction of main. *)
Definition import_call (ra : nat) : invocation :=
  {| inv_ast := ra; inv_recursive := false; inv_extract_main := false |}.

(** The AST that the expression [expr] of [a] references, when it is an
    import statement with a referenced AST. *)
Definition import_link (a : h64ast) (expr : nat) : option nat :=
  e ← nodes a !! expr;
  if bool_decide (etype e = H64EXPRTYPE_IMPORT_STMT)
  then importstmt_referenced_ast e else None.

(** The ASTs that the import statements among the definitions of the file
    scope of [a] reference. *)
Definition imported_asts (a : h64ast) : list nat :=
  omap (import_link a) (definitionref a).

(** The AST at [ast] has its global storage built. *)
Definition built_at (pr : h64compileproject) (ast : nat) : Prop :=
  exists a, asts pr !! ast = Some a /\ global_storage_built a = true.

(** Every AST that an import statement of the project references has its
    global storage built. *)
Definition links_built (pr : h64compileproject) : Prop :=
  forall (i : nat) (a : h64ast) (ra : nat),
    asts pr !! i = Some a -> ra ∈ imported_asts a -> built_at pr ra.


(** [pr'] holds the ASTs of [pr], those with their global storage built
    as they are. *)
Definition keeps_built (pr pr' : h64compileproject) : Prop :=
  forall (i : nat) (a : h64ast), asts pr !! i = Some a ->
    exists a', asts pr' !! i = Some a' /\
      (global_storage_built a = true -> a' = a).

(** [pr'] holds the ASTs of [pr]; those with their global storage built
    still have it built, and are as they were at other places than
    [ast]. *)
Definition evolves (ast : nat) (pr pr' : h64compileproject) : Prop :=
  forall (i : nat) (a : h64ast), asts pr !! i = Some a ->
    exists a', asts pr' !! i = Some a' /\
      (global_storage_built a = true ->
       global_storage_built a' = true /\ (i <> ast -> a' = a)).

(** The program of [pr'] has the main function of the program of [pr]. *)
Definition keeps_main (pr pr' : h64compileproject) : Prop :=
  Bytecode.main_func_index (program pr')
  = Bytecode.main_func_index (program pr).

(** Modelled from the spec: what is assumed of the loader of the project,
    [compileproject_GetAST], whose code is not among the sources.  The
    spec has the request for an AST trigger the parsing and the resolving
    of the file (4.B.2), and has the entry file alone contribute main.
    So the loader leaves the index of main; it leaves the ASTs whose
    global storage is built as they are; the import statements it links
    reference ASTs whose global storage is built; and so is that of the
    AST it hands out. *)
Definition loader_resolves
    (GetAST : h64compileproject -> option string ->
              option nat * string * h64compileproject) : Prop :=
  forall pr path got error pr',
    GetAST pr path = (got, error, pr') ->
    keeps_main pr pr' /\ keeps_built pr pr' /\
    (links_built pr -> links_built pr') /\
    (forall ra, got = Some ra -> built_at pr' ra).

(** A definition of a function named main at the top of the file, in the
    file scope, whose storage is not assigned yet. *)
Definition global_main_funcdef (e : h64expression) : Prop :=
  etype e = H64EXPRTYPE_FUNCDEF_STMT /\ parent e = None /\
  scope_is_global e = Some true /\ set (storage e) = false /\
  funcdef_name e = Some "main"%string.

(** [needle] occurs in [text]. *)
Fixpoint string_contains (needle text : string) : bool :=
  String.prefix needle text
  || match text with
     | EmptyString => false
     | String _ text' => string_contains needle text'
     end.

(** The result holds an error message with [text] in it. *)
Definition has_error_with (text : string) (r : h64result) : Prop :=
  exists m,
    m ∈ messages r /\ msg_type m = H64MSG_ERROR /\
    string_contains text (message m) = true.

(** The message for a second function named main. *)
Definition duplicate_main_message (a : h64ast) (e : h64expression)
  : h64resultmessage :=
  {| msg_type := H64MSG_ERROR;
     message := "unexpected duplicate main func found";
     msg_fileuri := Some (fileuri a);
     msg_line := line e; msg_column := column e |}.

End Scoperesolver.

(** * Example data

    Concrete stacks, programs, threads and projects, on which the
    statements of the second part are instantiated. *)

Module StackExamples.
Import Values Stack.

(** Values for the tunables of stack.h, which is not among the sources. *)
Definition overshoot : Z := 4.
Definition maxovershoot : Z := 16.
Definition emergency_margin : Z := 2.

Definition int_cell (n : Z) : valuecontent :=
  {| type := H64VALTYPE_INT64; int_value := n; ptr_value := None;
     constpreallocstr_len := 0; constpreallocstr_value := [] |}.

(** What a cell that [realloc] hands out holds. *)
Definition stale_cell : valuecontent := int_cell 57005.

(** A stack of size 2 with the values 7 and 9 written, in an allocation of
    4 cells. *)
Definition two_written : h64stack :=
  {| entry_count := 2; alloc_count := 4;
     entry := [int_cell 7; int_cell 9; stale_cell; stale_cell];
     current_func_floor := 0 |}.

(** Sizes going up to 8 and down to 1, the second call with the use of the
    emergency margin. *)
Definition up_and_down : list (Z * bool) :=
  [(5, false); (8, true); (3, false); (1, false)].

(** The reallocation of the first shrink fails. *)
Definition up_and_down_oracle : alloc_oracle := [true; false; true].

(** The stack after the calls. *)
Definition after_up_and_down : h64stack :=
  {| entry_count := 1; alloc_count := 5;
     entry := [int_cell 7; int_cell 9; zero_valuecontent; zero_valuecontent;
               zero_valuecontent];
     current_func_floor := 0 |}.

End StackExamples.

Module BytecodeExamples.
Import DebugSymbols Bytecode.

(** Values for the constants of bytecode.h, which is not among the
    sources. *)
Definition hash_size : Z := 4.
Definition max_methods : Z := 5.

(** Modelled from the spec: a normalisation of URIs (uri.c is not among
    the sources) that is deterministic and idempotent: it puts the scheme
    in front of a URI that has none. *)
Definition with_scheme (uri : string) : option string :=
  Some (if String.prefix "file://" uri then uri
        else ("file://" +:+ uri)%string).

(** What a record that [realloc] hands out holds. *)
Definition stale_record : h64classmemberinfo :=
  {| nameid := 77; methodorvaridx := 77 |}.

(** The program with one class, "A", and the id of that class. *)
Definition with_class_A : outcome (Z * h64program * alloc_oracle) :=
  h64program_AddClass hash_size with_scheme zeroed_program "A" None None None
    [].

Definition class_A_program : h64program := returned_program with_class_A.

(** Registrations on the class: variables and methods, the name "x" twice,
    more names than there are buckets. *)
Definition member_calls : list (string * Z) :=
  [("x"%string, -1); ("run"%string, 0); ("x"%string, -1);
   ("y"%string, -1); ("stop"%string, 1); ("z"%string, -1);
   ("w"%string, -1)].

(** The allocation of the fourth registration fails. *)
Definition member_calls_oracle : alloc_oracle :=
  [true; true; true; true; true; true; false].

(** The method "run" registered with the function index 0. *)
Definition with_method_run : outcome (Z * h64program * alloc_oracle) :=
  h64program_RegisterClassMemberEx hash_size max_methods stale_record
    class_A_program 0 "run" 0 [].


End BytecodeExamples.

Module VMExamples.
Import Values Stack Bytecode VMExec.

(** The code points of "hello". *)
Definition hello : list Z := [104; 101; 108; 108; 111].

Definition setconst_hello : h64instruction_setconst :=
  {| slot := 1;
     content := {| type := H64VALTYPE_CONSTPREALLOCSTR; int_value := 0;
                   ptr_value := None; constpreallocstr_len := 5;
                   constpreallocstr_value := hello |} |}.

Definition hello_func : h64func :=
  {| iscfunc := false; input_stack_size := 0; is_threadable := 0;
     associated_class_index := -1; cfunclookup := None; cfunc_ptr := None;
     instructions := [Isetconst setconst_hello;
                      Iother H64INST_RETURNVALUE] |}.

Definition hello_program : h64program := set_func zeroed_program [hello_func].

(** A stack of three empty slots. *)
Definition empty_slots : h64stack :=
  {| entry_count := 3; alloc_count := 3;
     entry := replicate 3 zero_valuecontent; current_func_floor := 0 |}.

(** A thread with that stack and an empty heap. *)
Definition hello_thread : h64vmthread :=
  {| stack := Some empty_slots; heap := Some ∅ |}.

End VMExamples.

Module ResolverExamples.
Import Scoperesolver.

Definition no_storage : storageinfo :=
  {| set := false; ref := {| sr_type := H64STORETYPE_INVALID; sr_id := -1 |} |}.

Definition no_arguments : funcargs :=
  {| arg_count := 0; arg_name := []; arg_value := [];
     last_posarg_is_multiarg := 0 |}.

(** A definition of the function [name] at the top of a file, at line
    [ln]. *)
Definition funcdef (name : string) (ln : Z) : h64expression :=
  {| etype := H64EXPRTYPE_FUNCDEF_STMT; parent := None; line := ln;
     column := 1; storage := no_storage; scope_is_global := Some true;
     vardef_identifier := ""; vardef_is_const := 0; vardef_value := None;
     classdef_name := ""; funcdef_name := Some name;
     funcdef_arguments := no_arguments; funcdef_bytecode_func_id := -1;
     literal_type := H64TK_OTHER; importstmt_import_elements := [];
     importstmt_source_library := None; importstmt_referenced_ast := None |}.

(** An import of the module [name] at line [ln], not loaded yet. *)
Definition import (name : string) (ln : Z) : h64expression :=
  {| etype := H64EXPRTYPE_IMPORT_STMT; parent := None; line := ln;
     column := 1; storage := no_storage; scope_is_global := Some true;
     vardef_identifier := ""; vardef_is_const := 0; vardef_value := None;
     classdef_name := ""; funcdef_name := None;
     funcdef_arguments := no_arguments; funcdef_bytecode_func_id := -1;
     literal_type := H64TK_OTHER; importstmt_import_elements := [name];
     importstmt_source_library := None; importstmt_referenced_ast := None |}.

Definition no_messages : h64result := {| success := true; messages := [] |}.

(** The parsed file [uri] of the module [modpath], every expression of
    which is a definition of the file scope. *)
Definition file (uri modpath : string) (exprs : list h64expression) : h64ast :=
  {| fileuri := uri; module_path := Some modpath; library_name := None;
     resultmsg := no_messages; global_storage_built := false;
     identifiers_resolved := false; nodes := exprs;
     definitionref := seq 0 (length exprs) |}.

Definition project (files : list h64ast) : h64compileproject :=
  {| program := Bytecode.zeroed_program; pr_resultmsg := no_messages;
     basefolder := "/project"; asts := files |}.

(** A file with two functions named main. *)
Definition two_mains : h64compileproject :=
  project [file "main.h64" "main" [funcdef "main" 1; funcdef "main" 5]].

(** The file a.h64 imports b, b.h64 imports c, and each file defines a
    function. *)
Definition chain : h64compileproject :=
  project [file "a.h64" "a" [import "b" 1; funcdef "main" 3];
           file "b.h64" "b" [import "c" 1; funcdef "main" 3];
           file "c.h64" "c" [funcdef "helper" 1]].

Definition entry_file : resolveinfo :=
  {| extract_main := true; main_was_found := false |}.

(** Modelled from the spec: the printers of ast.h and the path helpers of
    compileproject.h, none of which is among the sources.  A file lies in
    the base folder of the project under the name its URI gives, and the
    module [m] is the file m.h64. *)
Definition to_json (e : h64expression) (uri : string) : string := "{}".

Definition type_name (t : h64expressiontype) : string := "expression".

Definition project_of_file (pr : h64compileproject) (uri : string)
  : option (string * option string) * bool :=
  (Some (basefolder pr, None), false).

Definition rel_path (base uri : string) : option string * bool :=
  (Some uri, false).

Definition normalized_path (path : string) : option string := Some path.

Definition resolve_import (pr : h64compileproject) (from : string)
    (elements : list string) (library : option string)
  : option string * bool :=
  (Some (String.concat "/" elements +:+ ".h64")%string, false).

Fixpoint find_file (uri : string) (files : list h64ast) (i : nat)
  : option nat :=
  match files with
  | [] => None
  | a :: files' =>
    if String.eqb (fileuri a) uri then Some i
    else find_file uri files' (S i)
  end.

Definition imported_file : resolveinfo :=
  {| extract_main := false; main_was_found := false |}.

(** Modelled from the spec: the loader of compileproject.h, which is not
    among the sources.  The request for an AST triggers the parsing and
    the resolving of the file (4.B.2): the loader finds the AST that the
    project holds for the file URI and, before it hands it out, has its
    global storage built, in recursive mode and without the extraction of
    main.  [fuel] bounds the nesting of the loads, and no allocation of
    the loader fails. *)
Fixpoint get_ast (fuel : nat) (pr : h64compileproject) (path : option string)
  : option nat * string * h64compileproject :=
  match fuel with
  | O => (None, "imports nested too deeply"%string, pr)
  | S fuel' =>
    match path with
    | None => (None, "no path"%string, pr)
    | Some uri =>
      match find_file uri (asts pr) 0 with
      | None => (None, "no such file"%string, pr)
      | Some i =>
        match scoperesolver_BuildASTGlobalStorage BytecodeExamples.hash_size
                BytecodeExamples.max_methods BytecodeExamples.with_scheme
                BytecodeExamples.stale_record to_json type_name
                project_of_file rel_path normalized_path resolve_import
                (get_ast fuel') 3 pr i true imported_file [] with
        | Ret (r, pr', _, _) =>
          if r =? 0 then (None, "file not resolved"%string, pr')
          else (Some i, ""%string, pr')
        | _ => (None, "file not resolved"%string, pr)
        end
      end
    end
  end.

(** The resolver of the examples. *)
Definition ComputeItemStorage : ComputeItemStorage_t :=
  scoperesolver_ComputeItemStorage BytecodeExamples.hash_size
    BytecodeExamples.max_methods BytecodeExamples.with_scheme
    BytecodeExamples.stale_record 2.

Definition BuildASTGlobalStorage : BuildASTGlobalStorage_t :=
  scoperesolver_BuildASTGlobalStorage BytecodeExamples.hash_size
    BytecodeExamples.max_methods BytecodeExamples.with_scheme
    BytecodeExamples.stale_record to_json type_name project_of_file
    rel_path normalized_path resolve_import (get_ast 4) 3.

(** The project a call of [scoperesolver_ComputeItemStorage] leaves. *)
Definition stored (r : outcome (Z * bool * h64compileproject * alloc_oracle))
  : h64compileproject :=
  match r with
  | Ret (_, _, pr, _) => pr
  | _ => project []
  end.

(** The storage of the two functions named main, one after the other. *)
Definition first_main
  : outcome (Z * bool * h64compileproject * alloc_oracle) :=
  ComputeItemStorage two_mains 0%nat 0%nat true [].

Definition second_main
  : outcome (Z * bool * h64compileproject * alloc_oracle) :=
  ComputeItemStorage (stored first_main) 1%nat 0%nat true [].

(** The result, the project and the calls of a call of
    [scoperesolver_BuildASTGlobalStorage]. *)
Definition built_result
    (r : outcome (Z * h64compileproject * alloc_oracle * list invocation))
  : option Z :=
  match r with
  | Ret (v, _, _, _) => Some v
  | _ => None
  end.

Definition built
    (r : outcome (Z * h64compileproject * alloc_oracle * list invocation))
  : h64compileproject :=
  match r with
  | Ret (_, pr, _, _) => pr
  | _ => project []
  end.

Definition calls_of
    (r : outcome (Z * h64compileproject * alloc_oracle * list invocation))
  : list invocation :=
  match r with
  | Ret (_, _, _, calls) => calls
  | _ => []
  end.

(** The ASTs that the import statements of the AST at [ast] reference. *)
Definition imported_by (pr : h64compileproject) (ast : nat) : list nat :=
  match asts pr !! ast with
  | None => []
  | Some a => imported_asts a
  end.

(** Whether the global storage of the AST at [ast] is built. *)
Definition storage_built (pr : h64compileproject) (ast : nat) : option bool :=
  a ← asts pr !! ast; Some (global_storage_built a).

(** The recursive call on a.h64, the entry file. *)
Definition chain_built
  : outcome (Z * h64compileproject * alloc_oracle * list invocation) :=
  BuildASTGlobalStorage chain 0%nat true entry_file [].

End ResolverExamples.

(** * Properties *)

(** ** unicode.c: the UTF-8 round trip *)

Section UnicodeProperties.
Import Unicode.

(** The code points of two bytes, U+0080 to U+07FF, survive
    utf8 -> utf32 -> utf8, one at a time. *)
Lemma utf8_roundtrip_two_bytes :
  forallb (fun cp : nat =>
             bool_decide (utf8_roundtrip (rfc3629_encode (Z.of_nat cp)) 8
                          = Some (rfc3629_encode (Z.of_nat cp))))
          (seq 128 1920) = true.
Proof. vm_compute. reflexivity. Qed.

(** An input of one byte does not: the decoder gets one code point from
    the one byte, whatever it is, and its accesses after the loop pass the
    end of [temp_buf]. *)
Lemma utf8_to_utf32_one_byte (b : Z) (o : alloc_oracle) :
  fst (utf8_to_utf32 [b] o) = BufferOverrun.
Proof.
  unfold utf8_to_utf32, utf8_to_utf32_ex.
  cbn [length utf8_to_utf32_loop].
  destruct (get_utf8_codepoint [b] (Z.of_nat 1)) as [[c cbytes]|].
  - destruct (drop (Z.to_nat cbytes) [b]); reflexivity.
  - reflexivity.
Qed.

(** The first byte of a three byte sequence is written with the marker of
    a two byte sequence. *)
Lemma write_codepoint_as_utf8_U0800 :
  write_codepoint_as_utf8 0x800 false (replicate 8 0) 0 8
  = Some ([0xC0; 0xA0; 0x80; 0; 0; 0; 0; 0], 3).
Proof. reflexivity. Qed.

(** The first byte of a four byte sequence is masked with [0x1F], which
    keeps a marker bit: U+10000 is decoded as 0x410000, which
    [write_codepoint_as_utf8] refuses. *)
Lemma utf8_to_utf32_U10000 :
  rfc3629_encode 0x10000 = [0xF0; 0x90; 0x80; 0x80] /\
  fst (utf8_to_utf32 [0xF0; 0x90; 0x80; 0x80] []) = Utf32 [0x410000] /\
  utf8_roundtrip [0xF0; 0x90; 0x80; 0x80] 16 = None.
Proof. repeat split; reflexivity. Qed.

(** C4, at the failing input U+0800.  The code point U+0800 is no surrogate
    and its UTF-8 form is E0 A0 80.  [utf8_to_utf32] decodes these bytes to
    the code point, and [utf32_to_utf8] writes the code point back as
    C0 A0 80: the round trip does not give the original bytes.  The same
    holds when the bytes come from the encoder of the code itself. *)
Theorem utf8_roundtrip_fails_at_U0800 :
  rfc3629_encode 0x800 = [0xE0; 0xA0; 0x80] /\
  fst (utf8_to_utf32 [0xE0; 0xA0; 0x80] []) = Utf32 [0x800] /\
  utf8_roundtrip [0xE0; 0xA0; 0x80] 16 = Some [0xC0; 0xA0; 0x80] /\
  utf8_roundtrip [0xE0; 0xA0; 0x80] 16 <> Some [0xE0; 0xA0; 0x80] /\
  utf32_to_utf8_bytes [0x800] 16 = Some [0xC0; 0xA0; 0x80] /\
  utf8_roundtrip [0xC0; 0xA0; 0x80] 16 <> Some [0xC0; 0xA0; 0x80].
Proof. repeat split; try reflexivity; vm_compute; discriminate. Qed.

End UnicodeProperties.

(** ** Reasoning about outcomes *)

Lemma obind_ret {A B} (m : outcome A) (f : A -> outcome B) (b : B) :
  obind m f = Ret b -> exists a, m = Ret a /\ f a = Ret b.
Proof. destruct m; simpl; try discriminate. eauto. Qed.

Lemma assert_ret (b : bool) (u : unit) : assert b = Ret u -> b = true.
Proof. destruct b; simpl; [reflexivity | discriminate]. Qed.

(** Inverts the hypothesis [H : (x <- m; f) = Ret b]. *)
Ltac bind_inv H :=
  let a := fresh "a" in
  let Hm := fresh "Hm" in
  unfold mbind, outcome_bind in H;
  apply obind_ret in H; destruct H as (a & Hm & H).

(** One step through the code of a call that returns: a case analysis on
    what the next [match], [if] or pattern [let] looks at. *)
Ltac step H :=
  lazymatch type of H with
  | Ret _ = Ret _ => inversion H; subst; clear H
  | Fault = Ret _ => discriminate H
  | AssertFail = Ret _ => discriminate H
  | mbind _ _ = Ret _ => bind_inv H
  | obind _ _ = Ret _ => bind_inv H
  | assert _ = Ret _ => apply assert_ret in H
  | (match ?x with _ => _ end) = Ret _ =>
    let E := fresh "E" in destruct x eqn:E
  | _ => progress cbv beta iota zeta in H
  end.

(** The steps through every call of the context that returns. *)
Ltac steps :=
  repeat match goal with
         | H : _ = Ret _ |- _ => step H
         end.

(** ** stack.c: resizing keeps the slots and bounds the capacity *)

Section StackProperties.
Import Values Stack.

Variables ALLOC_OVERSHOOT ALLOC_MAXOVERSHOOT ALLOC_EMERGENCY_MARGIN : Z.
Variable indeterminate : valuecontent.
Hypothesis overshoot_nonneg : 0 <= ALLOC_OVERSHOOT.
Hypothesis margin_nonneg : 0 <= ALLOC_EMERGENCY_MARGIN.

Local Abbreviation Shrink :=
  (stack_Shrink ALLOC_OVERSHOOT ALLOC_MAXOVERSHOOT indeterminate).
Local Abbreviation ToSize :=
  (stack_ToSize ALLOC_OVERSHOOT ALLOC_MAXOVERSHOOT ALLOC_EMERGENCY_MARGIN
     indeterminate).
Local Abbreviation ToSize_seq :=
  (stack_ToSize_seq ALLOC_OVERSHOOT ALLOC_MAXOVERSHOOT
     ALLOC_EMERGENCY_MARGIN indeterminate).

Lemma realloc_entries_length cells n :
  0 <= n -> Z.of_nat (length (realloc_entries indeterminate cells n)) = n.
Proof.
  intros Hn. unfold realloc_entries.
  rewrite length_app, length_take, length_replicate. lia.
Qed.

Lemma realloc_entries_lookup cells n (k : nat) :
  (k < length cells)%nat -> Z.of_nat k < n ->
  realloc_entries indeterminate cells n !! k = cells !! k.
Proof.
  intros Hk Hn. unfold realloc_entries.
  rewrite lookup_app_l by (rewrite length_take; lia).
  apply lookup_take_lt. lia.
Qed.

Lemma stack_Shrink_loop_ret rounds st i r :
  stack_Shrink_loop rounds st i = Ret r -> r = i - Z.of_nat rounds.
Proof.
  revert i. induction rounds as [|rounds IH]; intros i H; simpl in H.
  - inversion H. lia.
  - bind_inv H. apply IH in H. lia.
Qed.

Lemma stack_Shrink_spec st total o st' o' :
  stack_wf st -> 0 <= total <= entry_count st ->
  Shrink st total o = Ret (st', o') ->
  stack_wf st' /\ entry_count st' = total /\ keeps_below total st st' /\
  (alloc_count st' = alloc_count st
   \/ alloc_count st' = total + ALLOC_OVERSHOOT).
Proof.
  intros (Hc & Hca & Hlen) Ht H. unfold stack_Shrink in H.
  bind_inv H. apply stack_Shrink_loop_ret in Hm.
  assert (a = total) as -> by lia. clear Hm. simpl in H.
  destruct (_ >? _).
  - destruct (alloc_request o) as [ok o1]. destruct ok; simpl in H;
      inversion H; subst; clear H; simpl.
    + split; [|split; [reflexivity|split]].
      * unfold stack_wf; simpl.
        rewrite realloc_entries_length by lia. lia.
      * intros k Hk. simpl. apply realloc_entries_lookup; lia.
      * right. reflexivity.
    + split; [|split; [reflexivity|split]].
      * unfold stack_wf; simpl. lia.
      * intros k Hk. reflexivity.
      * left. reflexivity.
  - inversion H; subst; clear H; simpl.
    split; [|split; [reflexivity|split]].
    + unfold stack_wf; simpl. lia.
    + intros k Hk. reflexivity.
    + left. reflexivity.
Qed.

Lemma stack_ToSize_fill_length rounds cells k :
  length (stack_ToSize_fill rounds cells k) = length cells.
Proof.
  revert cells k. induction rounds as [|rounds IH]; intros cells k; simpl.
  - reflexivity.
  - rewrite IH. apply length_insert.
Qed.

Lemma stack_ToSize_fill_lookup rounds cells k (j : nat) :
  (j < k)%nat -> stack_ToSize_fill rounds cells k !! j = cells !! j.
Proof.
  revert cells k. induction rounds as [|rounds IH]; intros cells k Hj; simpl.
  - reflexivity.
  - rewrite IH by lia. apply list_lookup_insert_ne. lia.
Qed.

(** One call: the stack stays well formed, the slots below the old and
    the new size are kept, and the capacity stays under the larger of the
    old capacity and the new size with overshoot and margin. *)
Lemma stack_ToSize_spec st total margin o r st' o' :
  stack_wf st ->
  ToSize st total margin o = Ret (r, st', o') ->
  stack_wf st' /\
  keeps_below (Z.min (entry_count st) total) st st' /\
  (entry_count st' = total \/ entry_count st' = entry_count st) /\
  alloc_count st'
    <= Z.max (alloc_count st)
             (total + ALLOC_EMERGENCY_MARGIN + ALLOC_OVERSHOOT).
Proof.
  intros Hwf H. pose proof Hwf as (Hc & Hca & Hlen).
  unfold stack_ToSize in H. bind_inv H. apply assert_ret in Hm.
  apply Z.leb_le in Hm. clear a.
  set (m := if margin then 0 else ALLOC_EMERGENCY_MARGIN) in *.
  assert (0 <= m <= ALLOC_EMERGENCY_MARGIN) as Hmrg
    by (subst m; destruct margin; lia).
  destruct (if alloc_count st <? total + m then _ else _)
    as [g o1] eqn:Hg in H.
  assert (forall st0, g = Some st0 ->
       stack_wf st0 /\ entry_count st0 = entry_count st /\
       keeps_below (entry_count st) st st0 /\
       alloc_count st0
         <= Z.max (alloc_count st)
                  (total + ALLOC_EMERGENCY_MARGIN + ALLOC_OVERSHOOT)) as Hgrown.
  { intros st0 ->. clear H.
    destruct (alloc_count st <? total + m) eqn:Hgrow.
    - destruct (alloc_request o) as [ok o2]. destruct ok; simpl in Hg.
      + inversion Hg; subst; clear Hg. simpl.
        split; [|split; [reflexivity|split]].
        * unfold stack_wf; simpl.
          rewrite realloc_entries_length by lia. lia.
        * intros k Hk. simpl. apply realloc_entries_lookup; lia.
        * lia.
      + destruct (negb margin || (total >? alloc_count st));
          inversion Hg; subst; clear Hg.
        split; [assumption|]. split; [reflexivity|].
        split; [intros k Hk; reflexivity | lia].
    - inversion Hg; subst; clear Hg.
      split; [assumption|]. split; [reflexivity|].
      split; [intros k Hk; reflexivity | lia]. }
  clear Hg. destruct g as [st0|].
  - destruct (Hgrown st0 eq_refl) as (Hwf0 & Hec0 & Hk0 & Hal0).
    destruct (total <? entry_count st0) eqn:Hlt.
    + apply Z.ltb_lt in Hlt. bind_inv H. destruct a as [st1 o2].
      inversion H; subst.
      apply stack_Shrink_spec in Hm0; [|assumption|lia].
      destruct Hm0 as (Hwf1 & Hec1 & Hk1 & Hal1).
      split; [assumption|]. split; [|split; [left; assumption | lia]].
      intros k Hk. rewrite Hk1 by lia. apply Hk0. lia.
    + apply Z.ltb_ge in Hlt. bind_inv H. apply assert_ret in Hm0.
      apply Z.gtb_lt in Hm0. inversion H; subst; simpl.
      destruct Hwf0 as (? & ? & Hlen0).
      split; [|split; [|split; [left; reflexivity | assumption]]].
      * unfold stack_wf; simpl.
        rewrite stack_ToSize_fill_length. lia.
      * intros k Hk. simpl.
        rewrite stack_ToSize_fill_lookup by lia. apply Hk0. lia.
  - inversion H; subst.
    split; [assumption|]. split; [intros k Hk; reflexivity|].
    split; [right; reflexivity | lia].
Qed.

Lemma foldr_min_lt (a : Z) (l : list Z) (k : Z) :
  k < foldr Z.min a l <-> k < a /\ Forall (fun n => k < n) l.
Proof.
  induction l as [|n l IH]; simpl.
  - split; [intros H; split; [assumption | constructor] | tauto].
  - rewrite Forall_cons. split.
    + intros H. assert (k < foldr Z.min a l) as Hl by lia.
      apply IH in Hl. split; [tauto | split; [lia | tauto]].
    + intros (Ha & Hn & Hl). assert (k < foldr Z.min a l) by (apply IH; tauto).
      lia.
Qed.

Lemma foldr_max_le (a : Z) (l : list Z) (M : Z) :
  foldr Z.max a l <= M <-> a <= M /\ Forall (fun n => n <= M) l.
Proof.
  induction l as [|n l IH]; simpl.
  - split; [intros H; split; [assumption | constructor] | tauto].
  - rewrite Forall_cons. split.
    + intros H. assert (foldr Z.max a l <= M) as Hl by lia.
      apply IH in Hl. split; [tauto | split; [lia | tauto]].
    + intros (Ha & Hn & Hl).
      assert (foldr Z.max a l <= M) by (apply IH; tauto). lia.
Qed.

Lemma stack_ToSize_seq_spec calls : forall st o st' o',
  stack_wf st ->
  ToSize_seq st calls o = Ret (st', o') ->
  stack_wf st' /\
  (forall k : nat,
     Z.of_nat k < entry_count st ->
     Forall (fun n => Z.of_nat k < n) (map fst calls) ->
     entry st' !! k = entry st !! k /\ Z.of_nat k < entry_count st') /\
  (forall M,
     Forall (fun n => n <= M) (map fst calls) ->
     alloc_count st'
       <= Z.max (alloc_count st)
                (M + ALLOC_EMERGENCY_MARGIN + ALLOC_OVERSHOOT)).
Proof.
  induction calls as [|[n mg] calls IH]; intros st o st' o' Hwf H;
    simpl in H.
  - inversion H; subst. split; [assumption|]. split.
    + intros k Hk _. split; [reflexivity | assumption].
    + intros M _. lia.
  - bind_inv H. destruct a as [[r st1] o1].
    apply stack_ToSize_spec in Hm; [|assumption].
    destruct Hm as (Hwf1 & Hk1 & Hec1 & Hal1).
    apply IH in H; [|assumption]. destruct H as (Hwf' & Hk' & Hal').
    split; [assumption|]. split.
    + intros k Hk Hall. simpl in Hall. apply Forall_cons in Hall.
      destruct Hall as (Hn & Hall).
      destruct (Hk' k) as (Heq & Hlt); [destruct Hec1; lia | assumption |].
      split; [|assumption]. rewrite Heq. apply Hk1. lia.
    + intros M Hall. simpl in Hall. apply Forall_cons in Hall.
      destruct Hall as (Hn & Hall). specialize (Hal' M Hall). lia.
Qed.

(** C6.  The stack [st] holds the written values and has the size
    [entry_count st], the first of the sizes; the calls of [stack_ToSize]
    with the further sizes follow, with or without use of the emergency
    margin, and with any outcome of the reallocations.  When the sizes
    first increase and then decrease, the slots below the least size hold
    the values they held, and, the capacity of [st] being within overshoot
    and margin of its size, the capacity after the calls does not exceed
    the greatest size plus [ALLOC_OVERSHOOT + ALLOC_EMERGENCY_MARGIN + 1]. *)
Theorem stack_ToSize_sequence_keeps_slots_and_bounds_capacity
    (st : h64stack) (calls : list (Z * bool)) (o : alloc_oracle)
    (st' : h64stack) (o' : alloc_oracle) :
  stack_wf st ->
  alloc_count st
    <= entry_count st + ALLOC_OVERSHOOT + ALLOC_EMERGENCY_MARGIN ->
  increasing_then_decreasing (entry_count st :: map fst calls) = true ->
  ToSize_seq st calls o = Ret (st', o') ->
  keeps_below (foldr Z.min (entry_count st) (map fst calls)) st st' /\
  alloc_count st'
    <= foldr Z.max (entry_count st) (map fst calls)
       + ALLOC_OVERSHOOT + ALLOC_EMERGENCY_MARGIN + 1.
Proof.
  intros Hwf Hal _ H.
  apply stack_ToSize_seq_spec in H; [|assumption].
  destruct H as (_ & Hk & Hal'). split.
  - intros k Hlt. apply foldr_min_lt in Hlt. destruct Hlt as (Hk0 & Hall).
    apply Hk; assumption.
  - set (M := foldr Z.max (entry_count st) (map fst calls)).
    assert (M <= M) as HM by lia. apply foldr_max_le in HM.
    destruct HM as (Hec & Hall). specialize (Hal' M Hall). lia.
Qed.

Lemma stack_Shrink_loop_returns rounds st i :
  stack_wf st -> no_preallocstr st ->
  Z.of_nat rounds <= i -> i <= entry_count st ->
  stack_Shrink_loop rounds st i = Ret (i - Z.of_nat rounds).
Proof.
  intros Hwf Hno. revert i.
  induction rounds as [|rounds IH]; intros i Hr Hi; simpl.
  - f_equal. lia.
  - unfold stack_FreeEntry.
    destruct (i - 1 <? 0) eqn:Hneg; [apply Z.ltb_lt in Hneg; lia|].
    destruct Hwf as (Hc & Hca & Hlen).
    destruct (entry st !! Z.to_nat (i - 1)) as [vc|] eqn:Hvc.
    + assert (type vc <> H64VALTYPE_CONSTPREALLOCSTR) as Hty
        by (apply (Hno (Z.to_nat (i - 1))); [lia | assumption]).
      rewrite bool_decide_eq_false_2 by assumption. simpl.
      unfold mbind, outcome_bind. simpl.
      rewrite IH by lia. f_equal. lia.
    + apply lookup_ge_None in Hvc. lia.
Qed.

Lemma stack_ToSize_fill_zero rounds cells k (j : nat) :
  (k <= j < k + rounds)%nat -> (j < length cells)%nat ->
  stack_ToSize_fill rounds cells k !! j = Some zero_valuecontent.
Proof.
  revert cells k. induction rounds as [|rounds IH]; intros cells k Hj Hlen;
    simpl.
  - lia.
  - destruct (decide (j = k)) as [->|Hne].
    + rewrite stack_ToSize_fill_lookup by lia.
      apply list_lookup_insert_eq. assumption.
    + apply IH; [lia | rewrite length_insert; assumption].
Qed.

(** The stack after the growth step is shrunk or filled. *)
Lemma stack_ToSize_resize_returns st total o :
  stack_wf st -> no_preallocstr st -> 0 <= total ->
  total < alloc_count st ->
  exists st' o',
    (if total <? entry_count st then
       obind (Shrink st total o) (fun '(st1, o1) => Ret (1, st1, o1))
     else
       obind (assert (alloc_count st >? total)) (fun _ =>
         Ret (1, {| entry_count := total; alloc_count := alloc_count st;
                    entry := stack_ToSize_fill
                               (Z.to_nat (total - entry_count st))
                               (entry st) (Z.to_nat (entry_count st));
                    current_func_floor := current_func_floor st |}, o)))
    = Ret (1, st', o') /\ no_preallocstr st'.
Proof.
  intros Hwf Hno Ht Hal. pose proof Hwf as (Hc & Hca & Hlen).
  destruct (total <? entry_count st) eqn:Hlt.
  - apply Z.ltb_lt in Hlt. unfold stack_Shrink.
    rewrite stack_Shrink_loop_returns by (try assumption; lia).
    simpl.
    assert (forall cells a,
      (forall k : nat, Z.of_nat k < total ->
         cells !! k = entry st !! k) ->
      no_preallocstr
        {| entry_count := entry_count st
                          - Z.of_nat (Z.to_nat (entry_count st - total));
           alloc_count := a; entry := cells;
           current_func_floor := current_func_floor st |}) as Hkeep.
    { intros cells a Hcells k vc Hk Hvc. simpl in Hk, Hvc.
      rewrite Hcells in Hvc by lia. apply (Hno k); [lia | assumption]. }
    destruct (_ >? _).
    + destruct (alloc_request o) as [ok o1]. destruct ok; simpl.
      * do 2 eexists. split; [reflexivity|]. apply Hkeep.
        intros k Hk. apply realloc_entries_lookup; lia.
      * do 2 eexists. split; [reflexivity|]. apply Hkeep. reflexivity.
    + do 2 eexists. split; [reflexivity|]. apply Hkeep. reflexivity.
  - apply Z.ltb_ge in Hlt.
    rewrite (proj2 (Z.gtb_lt _ _)) by lia. simpl.
    do 2 eexists. split; [reflexivity|].
    intros k vc Hk Hvc. simpl in Hk, Hvc.
    destruct (decide (Z.of_nat k < entry_count st)) as [Hin|Hout].
    + rewrite stack_ToSize_fill_lookup in Hvc by lia.
      apply (Hno k); assumption.
    + rewrite stack_ToSize_fill_zero in Hvc;
        [inversion Hvc; subst; discriminate | lia | lia].
Qed.

(** Without use of the emergency margin, on a stack that holds no
    preallocated string, [stack_ToSize] returns. *)
Lemma stack_ToSize_returns st total o :
  0 < ALLOC_EMERGENCY_MARGIN ->
  stack_wf st -> no_preallocstr st -> 0 <= total ->
  exists r st' o',
    ToSize st total false o = Ret (r, st', o') /\ no_preallocstr st'.
Proof.
  intros Hem Hwf Hno Ht. pose proof Hwf as (Hc & Hca & Hlen).
  unfold stack_ToSize. rewrite (proj2 (Z.leb_le 0 total)) by assumption.
  simpl. unfold mbind, outcome_bind. simpl.
  destruct (alloc_count st <? total + ALLOC_EMERGENCY_MARGIN) eqn:Hgrow.
  - destruct (alloc_request o) as [ok o1]. destruct ok; simpl.
    2: { eauto. }
    set (st0 := {| entry_count := entry_count st;
                   alloc_count := total + ALLOC_EMERGENCY_MARGIN
                                  + ALLOC_OVERSHOOT;
                   entry := realloc_entries indeterminate (entry st)
                              (total + ALLOC_EMERGENCY_MARGIN
                               + ALLOC_OVERSHOOT);
                   current_func_floor := current_func_floor st |}).
    apply Z.ltb_lt in Hgrow.
    destruct (stack_ToSize_resize_returns st0 total o1)
      as (st' & o' & Hret & Hno'); try (simpl; lia).
    + unfold stack_wf, st0; simpl.
      rewrite realloc_entries_length by lia. lia.
    + intros k vc Hk Hvc. simpl in Hk, Hvc.
      rewrite realloc_entries_lookup in Hvc by lia.
      apply (Hno k); assumption.
    + exists 1, st', o'. split; [exact Hret | assumption].
  - apply Z.ltb_ge in Hgrow.
    destruct (stack_ToSize_resize_returns st total o)
      as (st' & o' & Hret & Hno'); try assumption; try lia.
    exists 1, st', o'. split; [exact Hret | assumption].
Qed.

(** Hence a sequence of such calls returns: the statement about the
    sequences of calls is about runs that exist. *)
Lemma stack_ToSize_seq_returns calls : forall st o,
  0 < ALLOC_EMERGENCY_MARGIN ->
  stack_wf st -> no_preallocstr st ->
  Forall (fun c => 0 <= fst c /\ snd c = false) calls ->
  exists st' o', ToSize_seq st calls o = Ret (st', o').
Proof.
  induction calls as [|[n mg] calls IH]; intros st o Hem Hwf Hno Hall;
    simpl.
  - eauto.
  - apply Forall_cons in Hall. destruct Hall as ((Hn & Hmg) & Hall).
    simpl in Hn, Hmg. subst mg.
    destruct (stack_ToSize_returns st n o Hem Hwf Hno Hn)
      as (r & st1 & o1 & Hret & Hno1).
    rewrite Hret. unfold mbind, outcome_bind. simpl.
    apply IH; try assumption.
    apply stack_ToSize_spec in Hret; [tauto | assumption].
Qed.

End StackProperties.

(** ** bytecode.c: the member hashmap of a class *)

Section BytecodeProperties.
Import Values Hash DebugSymbols Bytecode.

Variables H64CLASS_HASH_SIZE H64CLASS_MAX_METHODS : Z.
Variable uri_Normalize : string -> option string.
Variable indeterminate : h64classmemberinfo.

Local Abbreviation RegisterClassMemberEx :=
  (h64program_RegisterClassMemberEx H64CLASS_HASH_SIZE H64CLASS_MAX_METHODS
     indeterminate).
Local Abbreviation LookupClassMember :=
  (h64program_LookupClassMember H64CLASS_HASH_SIZE H64CLASS_MAX_METHODS).
Local Abbreviation LookupClassMemberByname :=
  (h64program_LookupClassMemberByname H64CLASS_HASH_SIZE
     H64CLASS_MAX_METHODS).
Local Abbreviation AddClass :=
  (h64program_AddClass H64CLASS_HASH_SIZE uri_Normalize).
Local Abbreviation Register_seq :=
  (RegisterClassMemberEx_seq H64CLASS_HASH_SIZE H64CLASS_MAX_METHODS
     indeterminate).

(** The scan of the registration stops at the first negative name id,
    after records that are not negative and differ from the name id. *)
Lemma register_scan_spec cells nid c0 count :
  register_scan cells nid c0 = Ret (Some count) ->
  exists records stop rest,
    cells = records ++ stop :: rest /\
    count = c0 + Z.of_nat (length records) /\
    Forall (fun r => 0 <= nameid r /\ nameid r <> nid) records /\
    nameid stop < 0.
Proof.
  revert c0. induction cells as [|c cells IH]; intros c0 H; simpl in H.
  - discriminate.
  - destruct (nameid c >=? 0) eqn:Hge.
    + destruct (nameid c =? nid) eqn:Heq; [discriminate|].
      apply IH in H. destruct H as (records & stop & rest & -> & -> & Hall & Hs).
      exists (c :: records), stop, rest. simpl.
      split; [reflexivity|]. split; [lia|]. split; [|assumption].
      constructor; [|assumption]. split; lia.
    + inversion H; subst. exists [], c, cells. simpl.
      split; [reflexivity|]. split; [lia|]. split; [constructor | lia].
Qed.

Lemma register_scan_returns records stop rest nid c0 :
  Forall (fun r => 0 <= nameid r) records -> nameid stop < 0 ->
  exists r, register_scan (records ++ stop :: rest) nid c0 = Ret r.
Proof.
  intros Hall Hs. revert c0.
  induction Hall as [|c records Hc Hall IH]; intros c0; simpl.
  - destruct (nameid stop >=? 0) eqn:Hge; [lia | eauto].
  - destruct (nameid c >=? 0) eqn:Hge; [|lia].
    destruct (nameid c =? nid); [eauto | apply IH].
Qed.

(** The records before the first negative name id are determined by the
    cells. *)
Lemma first_negative_unique (l1 l2 : list h64classmemberinfo) c1 c2 r1 r2 :
  l1 ++ c1 :: r1 = l2 ++ c2 :: r2 ->
  Forall (fun r => 0 <= nameid r) l1 -> nameid c1 < 0 ->
  Forall (fun r => 0 <= nameid r) l2 -> nameid c2 < 0 ->
  l1 = l2 /\ c1 = c2 /\ r1 = r2.
Proof.
  revert l2. induction l1 as [|a l1 IH]; intros l2 Heq H1 Hc1 H2 Hc2.
  - destruct l2 as [|b l2]; simpl in Heq; inversion Heq; subst.
    + auto.
    + apply Forall_cons in H2. lia.
  - destruct l2 as [|b l2]; simpl in Heq; inversion Heq; subst.
    + apply Forall_cons in H1. lia.
    + apply Forall_cons in H1. apply Forall_cons in H2.
      destruct (IH l2) as (-> & -> & ->); try tauto; auto.
Qed.

(** The bucket after the reallocation to two cells more than the
    records. *)
Lemma realloc_buckets_shape records stop rest count :
  count = Z.of_nat (length records) ->
  exists spare,
    realloc_buckets indeterminate (records ++ stop :: rest) (count + 2)
    = records ++ [stop; spare].
Proof.
  intros ->. unfold realloc_buckets.
  replace (Z.to_nat (Z.of_nat (length records) + 2))
    with (length records + 2)%nat by lia.
  rewrite take_app_add, length_app. simpl.
  destruct rest as [|x rest]; simpl.
  - exists indeterminate.
    replace (length records + 2 - (length records + 1))%nat with 1%nat by lia.
    simpl. rewrite <- app_assoc. reflexivity.
  - exists x. rewrite take_0.
    replace (length records + 2 - (length records + S (S (length rest))))%nat
      with 0%nat by lia.
    simpl. rewrite <- app_assoc. reflexivity.
Qed.

Lemma bucket_insert_shape (records : list h64classmemberinfo)
    stop spare new sentinel count :
  count = Z.of_nat (length records) ->
  <[Z.to_nat count := new]>
    (<[Z.to_nat (count + 1) := sentinel]> (records ++ [stop; spare]))
  = records ++ [new; sentinel].
Proof.
  intros ->.
  replace (Z.to_nat (Z.of_nat (length records) + 1))
    with (length records + 1)%nat by lia.
  replace (Z.to_nat (Z.of_nat (length records)))
    with (length records + 0)%nat by lia.
  rewrite insert_app_r. simpl. rewrite insert_app_r. reflexivity.
Qed.

Lemma MemberNameToMemberNameId_interned sym name create o nid sym' o' :
  h64debugsymbols_MemberNameToMemberNameId sym name create o
  = (nid, sym', o') ->
  0 <= nid ->
  member_name_to_member_name_id sym' !! name = Some nid.
Proof.
  unfold h64debugsymbols_MemberNameToMemberNameId. intros H Hnid.
  destruct (member_name_to_member_name_id sym !! name) as [id|] eqn:Hid.
  - inversion H; subst. assumption.
  - destruct create; simpl in H; [|inversion H; subst; lia].
    destruct (alloc_request o) as [ok o1]. destruct ok; simpl in H;
      inversion H; subst; [|lia].
    simpl. apply lookup_insert_eq.
Qed.

(** What a call of [h64program_RegisterClassMemberEx] that returns has
    done: nothing to the classes, or, in the class, the bucket of the name
    id reallocated, and on success the record put before the sentinel. *)
Lemma RegisterClassMemberEx_inv p class_id name func_idx o r p' o' :
  RegisterClassMemberEx p class_id name func_idx o = Ret (r, p', o') ->
  (r = 0 /\ classes p' = classes p) \/
  exists cls cls' hashmap records stop rest bucket sym' nid,
    0 <= class_id /\
    classes p !! Z.to_nat class_id = Some cls /\
    global_name_to_member_hashmap cls = Some hashmap /\
    0 <= nid /\ 0 <= Z.rem nid H64CLASS_HASH_SIZE /\
    hashmap !! Z.to_nat (Z.rem nid H64CLASS_HASH_SIZE)
      = Some (records ++ stop :: rest) /\
    Forall (fun c => 0 <= nameid c /\ nameid c <> nid) records /\
    nameid stop < 0 /\
    symbols p' = Some sym' /\
    member_name_to_member_name_id sym' !! name = Some nid /\
    classes p' = <[Z.to_nat class_id := cls']> (classes p) /\
    global_name_to_member_hashmap cls'
      = Some (<[Z.to_nat (Z.rem nid H64CLASS_HASH_SIZE) := bucket]> hashmap) /\
    ((r = 0 /\ exists spare, bucket = records ++ [stop; spare]) \/
     (r = 1 /\ exists entry_idx,
        0 <= entry_idx /\
        (0 < func_idx -> entry_idx < H64CLASS_MAX_METHODS) /\
        bucket = records
                 ++ [ {| nameid := nid;
                         methodorvaridx :=
                           if func_idx >? 0 then entry_idx
                           else H64CLASS_MAX_METHODS + entry_idx |};
                      {| nameid := -1; methodorvaridx := -1 |} ])).
Proof.
  intros H. unfold h64program_RegisterClassMemberEx in H.
  destruct (symbols p) as [sym|] eqn:Hsym;
    [|inversion H; subst; left; auto].
  destruct (h64debugsymbols_MemberNameToMemberNameId sym name true o)
    as [[nid sym'] o1] eqn:Hname.
  destruct (nid <? 0) eqn:Hneg; [inversion H; subst; left; auto|].
  apply Z.ltb_ge in Hneg.
  apply MemberNameToMemberNameId_interned in Hname; [|assumption].
  bind_inv H. apply assert_ret in Hm. apply andb_true_iff in Hm.
  destruct Hm as (Hcid & _). apply Z.geb_le in Hcid. clear a.
  cbn [classes set_symbols] in H.
  destruct (classes p !! Z.to_nat class_id) as [cls|] eqn:Hcls;
    [|discriminate].
  destruct (global_name_to_member_hashmap cls) as [hashmap|] eqn:Hhm;
    [|discriminate].
  destruct (Z.rem nid H64CLASS_HASH_SIZE <? 0) eqn:Hbi; [discriminate|].
  apply Z.ltb_ge in Hbi.
  destruct (hashmap !! Z.to_nat (Z.rem nid H64CLASS_HASH_SIZE))
    as [cells|] eqn:Hcells; [|discriminate].
  bind_inv H. destruct a as [count|];
    [|inversion H; subst; left; auto].
  apply register_scan_spec in Hm.
  destruct Hm as (records & stop & rest & -> & Hcount & Hall & Hstop).
  rewrite Z.add_0_l in Hcount.
  destruct (alloc_request o1) as [ok o2]. destruct ok;
    [|inversion H; subst; left; auto].
  cbn [negb] in H.
  destruct (realloc_buckets_shape records stop rest count Hcount)
    as (spare & Hshape).
  rewrite Hshape in H.
  set (cls1 := set_hashmap cls
                 (Some (<[Z.to_nat (Z.rem nid H64CLASS_HASH_SIZE) :=
                            records ++ [stop; spare]]> hashmap))) in *.
  destruct (if func_idx >=? 0 then _ else _) as [slot o3] eqn:Hslot in H.
  assert (forall cls2 entry_idx, slot = Some (cls2, entry_idx) ->
            global_name_to_member_hashmap cls2
              = global_name_to_member_hashmap cls1 /\
            0 <= entry_idx /\
            (0 < func_idx -> entry_idx < H64CLASS_MAX_METHODS)) as Hslot'.
  { intros cls2 entry_idx ->. clear H.
    destruct (func_idx >=? 0) eqn:Hf.
    - destruct (methods_count cls1 >=? H64CLASS_MAX_METHODS) eqn:Hmax;
        [discriminate|].
      destruct (alloc_request o2) as [ok o4]. destruct ok; [|discriminate].
      cbn [negb] in Hslot.
      destruct (alloc_request o4) as [ok o5]. destruct ok; [|discriminate].
      cbn [negb] in Hslot. inversion Hslot; subst; clear Hslot.
      split; [reflexivity|].
      unfold methods_count, cls1 in *.
      cbn [method_func_idx set_methods set_hashmap] in *.
      rewrite length_app. cbn [length].
      rewrite Z.geb_leb in Hmax. apply Z.leb_gt in Hmax. lia.
    - destruct (alloc_request o2) as [ok o4]. destruct ok; [|discriminate].
      cbn [negb] in Hslot. inversion Hslot; subst; clear Hslot.
      split; [reflexivity|].
      unfold vars_count, cls1.
      cbn [vars_global_name_idx set_vars set_hashmap].
      rewrite length_app. cbn [length].
      assert (func_idx < 0) by (rewrite Z.geb_leb in Hf; apply Z.leb_gt in Hf; lia).
      lia. }
  clear Hslot. right.
  destruct slot as [[cls2 entry_idx]|].
  - destruct (Hslot' cls2 entry_idx eq_refl) as (Hhm2 & Hentry & Hmax).
    inversion H; subst r p' o'; clear H.
    rewrite (bucket_insert_shape records stop spare _ _ count Hcount).
    rewrite list_insert_insert_eq.
    eexists cls, _, hashmap, records, stop, rest, _, sym', nid.
    repeat (split; [first [assumption | reflexivity]|]).
    right. split; [reflexivity|]. exists entry_idx.
    split; [assumption|]. split; [assumption | reflexivity].
  - inversion H; subst r p' o'; clear H.
    eexists cls, cls1, hashmap, records, stop, rest, _, sym', nid.
    repeat (split; [first [assumption | reflexivity]|]).
    left. split; [reflexivity|]. exists spare. reflexivity.
Qed.

(** A call keeps the number of classes, and the buckets of every class
    that had them in order. *)
Lemma RegisterClassMemberEx_keeps_class_ok
    p class_id name func_idx o r p' o' :
  RegisterClassMemberEx p class_id name func_idx o = Ret (r, p', o') ->
  length (classes p') = length (classes p) /\
  forall i cls',
    classes p' !! i = Some cls' ->
    exists cls,
      classes p !! i = Some cls /\
      (class_ok H64CLASS_HASH_SIZE cls -> class_ok H64CLASS_HASH_SIZE cls').
Proof.
  intros H. apply RegisterClassMemberEx_inv in H.
  destruct H as [(_ & Heq) | H].
  - rewrite Heq. split; [reflexivity|]. intros i cls' Hi. eauto.
  - destruct H as (cls & cls1 & hashmap & records & stop & rest & bucket
                   & sym' & nid & Hcid & Hcls & Hhm & Hnid & Hbi & Hcells
                   & Hall & Hstop & _ & _ & Hclasses & Hhm1 & Hbucket).
    rewrite Hclasses. split; [apply length_insert|].
    intros i cls' Hi.
    destruct (decide (Z.to_nat class_id = i)) as [<-|Hne].
    2: { rewrite list_lookup_insert_ne in Hi by assumption. eauto. }
    rewrite list_lookup_insert_eq in Hi
      by (apply lookup_lt_Some in Hcls; assumption).
    inversion Hi; subst cls'; clear Hi.
    exists cls. split; [assumption|].
    intros (hm & Hhm' & Hlen & Hok). rewrite Hhm in Hhm'.
    inversion Hhm'; subst hm; clear Hhm'.
    exists (<[Z.to_nat (Z.rem nid H64CLASS_HASH_SIZE) := bucket]> hashmap).
    split; [assumption|]. split; [rewrite length_insert; assumption|].
    apply Forall_insert; [assumption|].
    (* the bucket of the name id *)
    pose proof (Forall_lookup_1 _ _ _ _ Hok Hcells)
      as (recs0 & sent0 & rest0 & Hsplit & Hsent & Hnonneg & Hnodup).
    assert (Forall (fun c => 0 <= nameid c) records) as Hnonneg'
      by (eapply Forall_impl; [exact Hall | simpl; tauto]).
    destruct (first_negative_unique _ _ _ _ _ _ Hsplit Hnonneg' Hstop
                Hnonneg ltac:(lia)) as (-> & -> & ->).
    destruct Hbucket as [(_ & spare & ->) | (_ & entry_idx & _ & _ & ->)].
    + exists recs0, sent0, [spare]. auto.
    + exists (recs0 ++ [ {| nameid := nid;
                            methodorvaridx :=
                              if func_idx >? 0 then entry_idx
                              else H64CLASS_MAX_METHODS + entry_idx |} ]),
        {| nameid := -1; methodorvaridx := -1 |}, [].
      split; [rewrite <- app_assoc; reflexivity|].
      split; [reflexivity|]. split.
      * apply Forall_app. split; [assumption|].
        constructor; [simpl; lia | constructor].
      * rewrite map_app. simpl. apply NoDup_app.
        split; [assumption|]. split; [|apply NoDup_singleton].
        intros x Hx Hx'. apply list_elem_of_singleton in Hx'. subst x.
        apply list_elem_of_fmap in Hx. destruct Hx as (c & Hc & Hin).
        rewrite Forall_forall in Hall. apply Hall in Hin.
        destruct Hin; congruence.
Qed.

(** On a class whose buckets are in order, a call returns. *)
Lemma RegisterClassMemberEx_returns p class_id name func_idx o cls :
  0 < H64CLASS_HASH_SIZE -> 0 <= class_id ->
  classes p !! Z.to_nat class_id = Some cls ->
  class_ok H64CLASS_HASH_SIZE cls ->
  exists r p' o',
    RegisterClassMemberEx p class_id name func_idx o = Ret (r, p', o').
Proof.
  intros Hhs Hcid Hcls (hashmap & Hhm & Hlen & Hok).
  unfold h64program_RegisterClassMemberEx.
  destruct (symbols p) as [sym|]; [|eauto].
  destruct (h64debugsymbols_MemberNameToMemberNameId sym name true o)
    as [[nid sym'] o1].
  destruct (nid <? 0) eqn:Hneg; [eauto|]. apply Z.ltb_ge in Hneg.
  assert ((class_id <? classes_count p) = true) as Hin.
  { apply Z.ltb_lt. unfold classes_count.
    apply lookup_lt_Some in Hcls. lia. }
  assert ((class_id >=? 0) = true) as Hge by (apply Z.geb_le; assumption).
  unfold classes_count in *. cbn [classes set_symbols].
  rewrite Hin, Hge.
  unfold mbind, outcome_bind. cbn [assert andb obind].
  rewrite Hcls, Hhm.
  pose proof (Z.rem_bound_pos nid H64CLASS_HASH_SIZE Hneg Hhs) as Hrem.
  destruct (Z.rem nid H64CLASS_HASH_SIZE <? 0) eqn:Hbi;
    [apply Z.ltb_lt in Hbi; lia|].
  destruct (hashmap !! Z.to_nat (Z.rem nid H64CLASS_HASH_SIZE))
    as [cells|] eqn:Hcells; [|apply lookup_ge_None in Hcells; lia].
  pose proof (Forall_lookup_1 _ _ _ _ Hok Hcells)
    as (recs0 & sent0 & rest0 & -> & Hsent & Hnonneg & Hnodup).
  destruct (register_scan_returns recs0 sent0 rest0 nid 0 Hnonneg
              ltac:(lia)) as (scanned & ->).
  cbn [obind]. destruct scanned as [count|]; [|eauto].
  destruct (alloc_request o1) as [ok o2]. destruct ok; [|eauto].
  cbn [negb].
  destruct (if func_idx >=? 0 then _ else _) as [[[cls2 entry_idx]|] o3];
    eauto.
Qed.

Lemma addclass_buckets_loop_spec rounds acc o hashmap o' :
  addclass_buckets_loop rounds acc o = (Some hashmap, o') ->
  hashmap
  = acc ++ replicate rounds [ {| nameid := -1; methodorvaridx := -1 |} ].
Proof.
  revert acc o. induction rounds as [|rounds IH]; intros acc o H; simpl in H.
  - inversion H; subst. simpl. rewrite app_nil_r. reflexivity.
  - destruct (alloc_request o) as [ok o1]. destruct ok; [|discriminate].
    simpl in H. apply IH in H. rewrite H, <- app_assoc. reflexivity.
Qed.

Lemma fileuriindex_search_skips fuel uris normalized_uri :
  fileuriindex_search fuel uris normalized_uri 0 = Ret (-1).
Proof.
  destruct fuel as [|fuel]; simpl; [reflexivity|].
  destruct (0 >? Z.of_nat (length uris)) eqn:Hgt; [|reflexivity].
  apply Z.gtb_lt in Hgt. lia.
Qed.

Lemma bytecode_fileuriindex_tables p uri o i p' o' :
  bytecode_fileuriindex uri_Normalize p uri o = Ret (i, p', o') ->
  same_tables p p' /\ (symbols p <> None -> symbols p' <> None).
Proof.
  unfold bytecode_fileuriindex, same_tables. intros H.
  repeat step H; simpl; repeat split; try reflexivity; try assumption;
    intros; congruence.
Qed.

(** A successful [h64program_AddClass] appends one class, whose hashmap
    has [H64CLASS_HASH_SIZE] buckets that hold the sentinel only. *)
Lemma AddClass_spec p name fileuri module_path library_name o cid p' o' :
  AddClass p name fileuri module_path library_name o = Ret (cid, p', o') ->
  0 <= cid ->
  cid = Z.of_nat (length (classes p)) /\
  symbols p' <> None /\
  exists cls,
    classes p' = classes p ++ [cls] /\
    global_name_to_member_hashmap cls
    = Some (replicate (Z.to_nat H64CLASS_HASH_SIZE)
              [ {| nameid := -1; methodorvaridx := -1 |} ]).
Proof.
  intros H Hcid. unfold h64program_AddClass in H.
  assert (forall q i q' oo oo' (u : option string),
            match u with
            | Some uri => bytecode_fileuriindex uri_Normalize q uri oo
            | None => Ret (-1, q, oo)
            end = Ret (i, q', oo') -> classes q' = classes q) as Huri.
  { intros q i q' oo oo' [uri|] Hq.
    - apply bytecode_fileuriindex_tables in Hq. apply Hq.
    - inversion Hq; reflexivity. }
  repeat (step H; try lia).
  match goal with
  | Hx : match fileuri with _ => _ end = Ret _ |- _ => apply Huri in Hx
  end.
  match goal with
  | E : addclass_buckets_loop _ _ _ = _ |- _ =>
    apply addclass_buckets_loop_spec in E; simpl in E; subst
  end.
  unfold classes_count. cbn [classes set_classes symbols].
  match goal with Hx : classes _ = classes p |- _ => rewrite Hx end.
  rewrite length_app. cbn [length].
  split; [lia|]. split; [discriminate|].
  eexists. split; reflexivity.
Qed.

Lemma sentinel_buckets_ok :
  0 <= H64CLASS_HASH_SIZE ->
  class_ok H64CLASS_HASH_SIZE
    {| base_class_global_id := -1; hasvarinitfunc := false;
       method_global_name_idx := []; method_func_idx := [];
       vars_global_name_idx := [];
       global_name_to_member_hashmap :=
         Some (replicate (Z.to_nat H64CLASS_HASH_SIZE)
                 [ {| nameid := -1; methodorvaridx := -1 |} ]) |}.
Proof.
  intros Hhs. eexists. split; [reflexivity|].
  split; [rewrite length_replicate; lia|].
  apply Forall_replicate.
  exists [], {| nameid := -1; methodorvaridx := -1 |}, [].
  repeat split; constructor.
Qed.

Lemma Register_seq_class_ok calls : forall p class_id o cls,
  0 < H64CLASS_HASH_SIZE -> 0 <= class_id ->
  classes p !! Z.to_nat class_id = Some cls ->
  class_ok H64CLASS_HASH_SIZE cls ->
  exists p' o' cls',
    Register_seq p class_id calls o = Ret (p', o') /\
    classes p' !! Z.to_nat class_id = Some cls' /\
    class_ok H64CLASS_HASH_SIZE cls'.
Proof.
  induction calls as [|[name func_idx] calls IH];
    intros p class_id o cls Hhs Hcid Hcls Hok; simpl.
  - exists p, o, cls. auto.
  - destruct (RegisterClassMemberEx_returns p class_id name func_idx o cls
                Hhs Hcid Hcls Hok) as (r & p1 & o1 & Hret).
    rewrite Hret. unfold mbind, outcome_bind. cbn [obind].
    apply RegisterClassMemberEx_keeps_class_ok in Hret.
    destruct Hret as (Hlen & Hkeep).
    destruct (classes p1 !! Z.to_nat class_id) as [cls1|] eqn:Hcls1.
    2: { apply lookup_ge_None in Hcls1. apply lookup_lt_Some in Hcls. lia. }
    destruct (Hkeep _ _ Hcls1) as (cls0 & Hcls0 & Hok1).
    rewrite Hcls in Hcls0. inversion Hcls0; subst cls0.
    apply (IH p1 class_id o1 cls1); auto.
Qed.

(** C10.  For a class that [h64program_AddClass] created, every sequence
    of [h64program_RegisterClassMemberEx] calls on it, with any names and
    function indexes and any outcome of the allocations, returns, and
    leaves the member hashmap of the class with [H64CLASS_HASH_SIZE]
    buckets, each made of records with name ids that are not negative and
    pairwise different, followed by the sentinel with name id -1. *)
Theorem class_member_buckets_stay_terminated
    (p : h64program) (name : string)
    (fileuri module_path library_name : option string) (o : alloc_oracle)
    (class_id : Z) (p1 : h64program) (o1 : alloc_oracle)
    (calls : list (string * Z)) (o2 : alloc_oracle) :
  0 < H64CLASS_HASH_SIZE ->
  AddClass p name fileuri module_path library_name o
  = Ret (class_id, p1, o1) ->
  0 <= class_id ->
  exists p2 o3 cls hashmap,
    Register_seq p1 class_id calls o2 = Ret (p2, o3) /\
    classes p2 !! Z.to_nat class_id = Some cls /\
    global_name_to_member_hashmap cls = Some hashmap /\
    Z.of_nat (length hashmap) = H64CLASS_HASH_SIZE /\
    Forall bucket_ok hashmap.
Proof.
  intros Hhs Hadd Hcid.
  apply AddClass_spec in Hadd; [|assumption].
  destruct Hadd as (-> & _ & cls0 & Hclasses & Hhm0).
  assert (classes p1 !! Z.to_nat (Z.of_nat (length (classes p))) = Some cls0)
    as Hcls0.
  { rewrite Hclasses, Nat2Z.id. apply list_lookup_middle. reflexivity. }
  assert (class_ok H64CLASS_HASH_SIZE cls0) as Hok0.
  { pose proof (sentinel_buckets_ok ltac:(lia)) as (hm & Hhm & Hlen & Hall).
    exists hm. rewrite Hhm0. auto. }
  destruct (Register_seq_class_ok calls p1 _ o2 cls0 Hhs Hcid Hcls0 Hok0)
    as (p2 & o3 & cls & Hrun & Hcls & hashmap & Hhm & Hlen & Hall).
  exists p2, o3, cls, hashmap. auto.
Qed.

Lemma lookup_scan_skip records cells nid :
  Forall (fun c => 0 <= nameid c /\ nameid c <> nid) records ->
  lookup_scan H64CLASS_MAX_METHODS (records ++ cells) nid
  = lookup_scan H64CLASS_MAX_METHODS cells nid.
Proof.
  induction 1 as [|c records (Hge & Hne) _ IH]; simpl; [reflexivity|].
  rewrite (proj2 (Z.geb_le _ _)) by assumption.
  rewrite (proj2 (Z.eqb_neq _ _)) by assumption. exact IH.
Qed.

(** The lookup of a member that was registered: the slot of the member
    among the methods when [func_idx > 0], among the variables
    otherwise. *)
Lemma RegisterClassMemberEx_then_lookup p class_id name func_idx o p' o' :
  RegisterClassMemberEx p class_id name func_idx o = Ret (1, p', o') ->
  exists sym' nid entry_idx,
    symbols p' = Some sym' /\
    member_name_to_member_name_id sym' !! name = Some nid /\
    0 <= entry_idx /\
    LookupClassMember p' class_id nid
    = Ret (if func_idx >? 0 then (-1, entry_idx) else (entry_idx, -1)).
Proof.
  intros H. apply RegisterClassMemberEx_inv in H.
  destruct H as [(Hr & _) | H]; [discriminate|].
  destruct H as (cls & cls1 & hashmap & records & stop & rest & bucket
                 & sym' & nid & Hcid & Hcls & Hhm & Hnid & Hbi & Hcells
                 & Hall & Hstop & Hsym & Hname & Hclasses & Hhm1 & Hbucket).
  destruct Hbucket as [(Hr & _) | (_ & entry_idx & Hentry & Hmax & ->)];
    [discriminate|].
  exists sym', nid, entry_idx. repeat (split; [assumption|]).
  unfold h64program_LookupClassMember. rewrite Hsym, Hclasses.
  rewrite bool_decide_eq_true_2 by discriminate.
  unfold mbind, outcome_bind. cbn [assert obind].
  rewrite (proj2 (Z.ltb_ge _ _)) by assumption.
  rewrite list_lookup_insert_eq
    by (apply lookup_lt_Some in Hcls; assumption).
  rewrite Hhm1. rewrite (proj2 (Z.ltb_ge _ _)) by assumption.
  rewrite list_lookup_insert_eq
    by (apply lookup_lt_Some in Hcells; assumption).
  rewrite lookup_scan_skip by assumption. cbn [lookup_scan nameid].
  rewrite (proj2 (Z.geb_le _ _)) by assumption.
  rewrite Z.eqb_refl. cbn [methodorvaridx].
  destruct (func_idx >? 0) eqn:Hf.
  - apply Z.gtb_lt in Hf.
    rewrite (proj2 (Z.ltb_lt _ _)) by (apply Hmax; assumption). reflexivity.
  - rewrite (proj2 (Z.ltb_ge _ _)) by lia. do 2 f_equal. lia.
Qed.

(** C1, where it holds: a method registered with a function index above 0
    is looked up as a method, a variable as a variable. *)
Lemma registered_method_lookup p class_id name func_idx o p' o' :
  0 < func_idx ->
  RegisterClassMemberEx p class_id name func_idx o = Ret (1, p', o') ->
  exists sym' nid func_id,
    symbols p' = Some sym' /\
    member_name_to_member_name_id sym' !! name = Some nid /\
    0 <= func_id /\
    LookupClassMember p' class_id nid = Ret (-1, func_id).
Proof.
  intros Hf H. apply RegisterClassMemberEx_then_lookup in H.
  destruct H as (sym' & nid & entry_idx & Hsym & Hname & Hentry & Hlookup).
  rewrite (proj2 (Z.gtb_lt _ _)) in Hlookup by assumption. eauto 8.
Qed.

Lemma registered_variable_lookup p class_id name o p' o' :
  RegisterClassMemberEx p class_id name (-1) o = Ret (1, p', o') ->
  exists sym' nid var_id,
    symbols p' = Some sym' /\
    member_name_to_member_name_id sym' !! name = Some nid /\
    0 <= var_id /\
    LookupClassMember p' class_id nid = Ret (var_id, -1).
Proof.
  intros H. apply RegisterClassMemberEx_then_lookup in H.
  destruct H as (sym' & nid & entry_idx & Hsym & Hname & Hentry & Hlookup).
  eauto 8.
Qed.

(** C1, at the failing input [func_idx = 0].  A member registered with the
    function index 0 is a method ([func_idx >= 0]), and the registration
    succeeds; the lookup of its name id gives a variable id that is not
    negative and the function id -1, where the claim has a function id
    that is not negative and the variable id -1. *)
Theorem method_with_func_idx_zero_is_looked_up_as_variable
    (p : h64program) (class_id : Z) (name : string) (o : alloc_oracle)
    (p' : h64program) (o' : alloc_oracle) :
  RegisterClassMemberEx p class_id name 0 o = Ret (1, p', o') ->
  exists sym' nid var_id,
    symbols p' = Some sym' /\
    member_name_to_member_name_id sym' !! name = Some nid /\
    0 <= var_id /\
    LookupClassMember p' class_id nid = Ret (var_id, -1).
Proof.
  intros H. apply RegisterClassMemberEx_then_lookup in H.
  destruct H as (sym' & nid & entry_idx & Hsym & Hname & Hentry & Hlookup).
  eauto 8.
Qed.

(** ** bytecode.c: the lookup of a member by a name that is not interned *)

Lemma rem_minus_one : 1 < H64CLASS_HASH_SIZE ->
  Z.rem (-1) H64CLASS_HASH_SIZE = -1.
Proof.
  intros H. change (-1) with (- (1)) at 1.
  rewrite Z.rem_opp_l', Z.rem_small by lia. reflexivity.
Qed.

(** C9, at any name that is not interned.  The branch for a negative name
    id stores -1 twice and does not return: the lookup goes on with the
    name id -1, for which the bucket index is -1, and the read of the
    hashmap at that index is out of its bounds; the results -1 and -1 are
    not what the call gives. *)
Theorem lookup_by_unknown_name_reads_bucket_minus_one
    (p : h64program) (sym : h64debugsymbols) (class_id : Z) (name : string)
    (outs : Z * Z) :
  1 < H64CLASS_HASH_SIZE ->
  symbols p = Some sym ->
  member_name_to_member_name_id sym !! name = None ->
  LookupClassMemberByname p class_id name outs
  = LookupClassMember p class_id (-1) /\
  LookupClassMemberByname p class_id name outs = Fault.
Proof.
  intros Hhs Hsym Hname.
  assert (LookupClassMemberByname p class_id name outs
          = LookupClassMember p class_id (-1)) as Heq.
  { unfold h64program_LookupClassMemberByname. rewrite Hsym.
    unfold h64debugsymbols_MemberNameToMemberNameId. rewrite Hname.
    reflexivity. }
  split; [exact Heq|]. rewrite Heq.
  unfold h64program_LookupClassMember. rewrite Hsym.
  rewrite bool_decide_eq_true_2 by discriminate.
  unfold mbind, outcome_bind. cbn [assert obind].
  rewrite rem_minus_one by assumption.
  destruct (class_id <? 0); [reflexivity|].
  destruct (classes p !! Z.to_nat class_id) as [cls|]; [|reflexivity].
  destruct (global_name_to_member_hashmap cls); reflexivity.
Qed.

(** ** bytecode.c: the index of a file URI *)

(** The search loop is not entered: its condition [k > fileuri_count]
    fails for [k = 0].  The URI is appended whatever the list holds. *)
Lemma bytecode_fileuriindex_appends p sym uri normalized o :
  symbols p = Some sym ->
  uri_Normalize uri = Some normalized ->
  bytecode_fileuriindex uri_Normalize p uri (true :: o)
  = Ret (fileuri_count sym,
         set_symbols p
           (Some (set_fileuri sym (fileuri sym ++ [normalized]))), o).
Proof.
  intros Hsym Hnorm. unfold bytecode_fileuriindex.
  rewrite Hnorm, Hsym, fileuriindex_search_skips. reflexivity.
Qed.

(** C3, at any two URIs with one normal form.  On a program with symbols,
    when no allocation fails, the second call gives the index after that
    of the first call, not the same index, and the list of file URIs ends
    with the normal form twice. *)
Theorem fileuriindex_of_one_uri_twice
    (p : h64program) (sym : h64debugsymbols) (uri1 uri2 normalized : string)
    (o : alloc_oracle) :
  symbols p = Some sym ->
  uri_Normalize uri1 = Some normalized ->
  uri_Normalize uri2 = Some normalized ->
  exists p1 p2 sym2,
    bytecode_fileuriindex uri_Normalize p uri1 (true :: true :: o)
    = Ret (fileuri_count sym, p1, true :: o) /\
    bytecode_fileuriindex uri_Normalize p1 uri2 (true :: o)
    = Ret (fileuri_count sym + 1, p2, o) /\
    symbols p2 = Some sym2 /\
    fileuri sym2 = fileuri sym ++ [normalized; normalized].
Proof.
  intros Hsym H1 H2.
  eexists _, _, _. split.
  - apply bytecode_fileuriindex_appends; eassumption.
  - split.
    + erewrite bytecode_fileuriindex_appends; [|reflexivity|eassumption].
      unfold fileuri_count. cbn [fileuri set_fileuri].
      rewrite length_app. cbn [length].
      do 3 f_equal. lia.
    + split; [reflexivity|]. cbn [fileuri set_fileuri].
      rewrite <- app_assoc. reflexivity.
Qed.

(** ** bytecode.c: the registrations leave the index of main alone *)

Lemma RegisterClassMemberEx_main_func_index
    p class_id name func_idx o r p' o' :
  RegisterClassMemberEx p class_id name func_idx o = Ret (r, p', o') ->
  main_func_index p' = main_func_index p /\ func p' = func p.
Proof.
  unfold h64program_RegisterClassMemberEx. intros H.
  repeat step H; split; reflexivity.
Qed.

Lemma RegisterCFunction_main_func_index
    p name cfunc fileuri arg_count arg_kwarg_name last_is_multiarg
    module_path library_name is_threadable associated_class_index o
    id p' o' :
  h64program_RegisterCFunction H64CLASS_HASH_SIZE H64CLASS_MAX_METHODS
    uri_Normalize indeterminate p name cfunc fileuri arg_count
    arg_kwarg_name last_is_multiarg module_path library_name is_threadable
    associated_class_index o = Ret (id, p', o') ->
  main_func_index p' = main_func_index p.
Proof.
  unfold h64program_RegisterCFunction. intros H.
  assert (forall q i q' oo oo' (u : option string),
            match u with
            | Some uri => bytecode_fileuriindex uri_Normalize q uri oo
            | None => Ret (-1, q, oo)
            end = Ret (i, q', oo') ->
            main_func_index q' = main_func_index q) as Huri.
  { intros q i q' oo oo' [uri|] Hq.
    - apply bytecode_fileuriindex_tables in Hq. apply Hq.
    - inversion Hq; reflexivity. }
  assert (forall q r q' oo oo',
            (if associated_class_index >=? 0
             then match name with
                  | Some n =>
                    RegisterClassMemberEx q associated_class_index n
                      (func_count q) oo
                  | None => AssertFail
                  end
             else Ret (1, q, oo)) = Ret (r, q', oo') ->
            main_func_index q' = main_func_index q) as Hreg.
  { intros q r q' oo oo' Hq.
    destruct (associated_class_index >=? 0).
    - destruct name as [n|]; [|discriminate].
      apply RegisterClassMemberEx_main_func_index in Hq. apply Hq.
    - inversion Hq; reflexivity. }
  repeat step H;
    repeat match goal with
           | Hx : match fileuri with _ => _ end = Ret _ |- _ =>
             apply Huri in Hx
           | Hx : (if associated_class_index >=? 0 then _ else _) = Ret _
             |- _ => apply Hreg in Hx
           end;
    cbn [main_func_index set_symbols set_func] in *; congruence.
Qed.

Lemma RegisterHorse64Function_main_func_index
    p name fileuri arg_count arg_kwarg_name last_is_multiarg
    module_path library_name associated_class_idx o id p' o' :
  h64program_RegisterHorse64Function H64CLASS_HASH_SIZE
    H64CLASS_MAX_METHODS uri_Normalize indeterminate p name fileuri
    arg_count arg_kwarg_name last_is_multiarg module_path library_name
    associated_class_idx o = Ret (id, p', o') ->
  main_func_index p' = main_func_index p.
Proof.
  unfold h64program_RegisterHorse64Function. intros H.
  step H. destruct a as [[idx p0] o0].
  apply RegisterCFunction_main_func_index in Hm.
  repeat step H; cbn [main_func_index set_func]; assumption.
Qed.

Lemma optional_fileuriindex_main_func_index
    (u : option string) q i q' oo oo' :
  match u with
  | Some uri => bytecode_fileuriindex uri_Normalize q uri oo
  | None => Ret (-1, q, oo)
  end = Ret (i, q', oo') ->
  main_func_index q' = main_func_index q.
Proof.
  destruct u as [uri|]; intros Hq.
  - apply bytecode_fileuriindex_tables in Hq. apply Hq.
  - inversion Hq; reflexivity.
Qed.

Lemma AddGlobalvar_main_func_index
    p name is_const fileuri module_path library_name o id p' o' :
  h64program_AddGlobalvar uri_Normalize p name is_const fileuri module_path
    library_name o = Ret (id, p', o') ->
  main_func_index p' = main_func_index p.
Proof.
  unfold h64program_AddGlobalvar. intros H.
  repeat step H;
    repeat match goal with
           | Hx : match fileuri with _ => _ end = Ret _ |- _ =>
             apply optional_fileuriindex_main_func_index in Hx
           end;
    cbn [main_func_index set_symbols set_globalvar] in *; congruence.
Qed.

Lemma AddClass_main_func_index
    p name fileuri module_path library_name o id p' o' :
  AddClass p name fileuri module_path library_name o = Ret (id, p', o') ->
  main_func_index p' = main_func_index p.
Proof.
  unfold h64program_AddClass. intros H.
  repeat step H;
    repeat match goal with
           | Hx : match fileuri with _ => _ end = Ret _ |- _ =>
             apply optional_fileuriindex_main_func_index in Hx
           end;
    cbn [main_func_index set_symbols set_classes] in *; congruence.
Qed.

(** ** bytecode.c: registrations that fail *)

(** C2, at a failing input of [h64program_AddGlobalvar].  The global is
    registered for a file, in the builtin module; the table of globals is
    reallocated, the file URI gets its index, and the reallocation of the
    symbols of the module fails.  The call gives -1, and the list of file
    URIs of the program has the URI of the file appended: the state that
    can be observed is not that before the call. *)
Theorem AddGlobalvar_failure_leaves_file_uri
    (p : h64program) (sym : h64debugsymbols) (name : string) (is_const : Z)
    (uri normalized : string) (o : alloc_oracle) :
  symbols p = Some sym ->
  uri_Normalize uri = Some normalized ->
  exists p',
    h64program_AddGlobalvar uri_Normalize p name is_const (Some uri)
      None None (true :: true :: false :: o) = Ret (-1, p', o) /\
    symbols p'
    = Some (set_fileuri sym (fileuri sym ++ [normalized])) /\
    observable_state p' <> observable_state p.
Proof.
  intros Hsym Hnorm. eexists. split; [|split].
  - unfold h64program_AddGlobalvar. rewrite Hsym.
    rewrite bool_decide_eq_true_2 by discriminate.
    unfold mbind, outcome_bind. cbn [assert obind alloc_request negb].
    rewrite (bytecode_fileuriindex_appends p sym uri normalized _ Hsym Hnorm).
    cbn [obind]. rewrite bool_decide_eq_true_2 by discriminate.
    assert ((fileuri_count sym <? 0) = false) as ->
      by (apply Z.ltb_ge; unfold fileuri_count; lia).
    cbn [andb symbols set_symbols registration_module].
    rewrite bool_decide_eq_true_2 by reflexivity.
    cbn [assert obind h64debugsymbols_GetBuiltinModule deref alloc_request
         negb].
    reflexivity.
  - reflexivity.
  - unfold observable_state. cbn [symbols set_symbols]. rewrite Hsym.
    intros Heq. inversion Heq as [Hfileuri].
    apply (f_equal fileuri) in Hfileuri. cbn [fileuri set_fileuri] in Hfileuri.
    apply (f_equal (@length string)) in Hfileuri.
    rewrite length_app in Hfileuri. cbn [length] in Hfileuri. lia.
Qed.

(** The same defect in [h64program_RegisterCFunction]: when the function
    "print" is registered in the builtin module, and a second registration
    of that name fails at the allocation of the keyword argument names,
    the label [funcsymboloom] unsets the name in the map of the module,
    though this call never set it: the first function is no longer found
    by its name. *)
Lemma RegisterCFunction_failure_unsets_registered_name :
  let RegisterCFunction :=
    h64program_RegisterCFunction H64CLASS_HASH_SIZE H64CLASS_MAX_METHODS
      uri_Normalize indeterminate in
  let first :=
    RegisterCFunction zeroed_program (Some "print"%string) None None 0 None
      0 None None 0 (-1) [] in
  let second :=
    RegisterCFunction (returned_program first) (Some "print"%string) None
      None 1 None 0 None None 0 (-1) [true; true; true; false] in
  returned_value first = Some 0 /\
  returned_value second = Some (-1) /\
  (sym ← symbols (returned_program first);
   func_name_to_entry (builtin_module sym) !! "print"%string) = Some 0 /\
  (sym ← symbols (returned_program second);
   func_name_to_entry (builtin_module sym) !! "print"%string) = None /\
  func (returned_program second) = func (returned_program first).
Proof. vm_compute. repeat split; reflexivity. Qed.

(** And in [h64program_AddClass]: the label [classsymboloom] unsets the
    maps from class ids to modules at the key [p->func_count], not at the
    id of the class.  With one function and two classes registered, a
    third class whose registration fails at the allocation of its hashmap
    takes the entries of the class 1 away. *)
Lemma AddClass_failure_unsets_other_class :
  let p1 :=
    returned_program
      (h64program_RegisterCFunction H64CLASS_HASH_SIZE H64CLASS_MAX_METHODS
         uri_Normalize indeterminate zeroed_program (Some "print"%string)
         None None 0 None 0 None None 0 (-1) []) in
  let p2 :=
    returned_program
      (h64program_AddClass 1 uri_Normalize p1 "A" None None None []) in
  let third := h64program_AddClass 1 uri_Normalize p2 "B" None None None [] in
  let fourth :=
    h64program_AddClass 1 uri_Normalize (returned_program third) "C" None
      None None [true; true; true; true; true; true; false] in
  func_count p2 = 1 /\
  returned_value third = Some 1 /\
  returned_value fourth = Some (-1) /\
  (sym ← symbols (returned_program third);
   class_id_to_module_symbols_class_subindex sym !! 1) = Some 1 /\
  (sym ← symbols (returned_program fourth);
   class_id_to_module_symbols_class_subindex sym !! 1) = None /\
  classes (returned_program fourth) = classes (returned_program third).
Proof. vm_compute. repeat split; reflexivity. Qed.

End BytecodeProperties.

(** ** vmexec.c: setconst with a preallocated string *)

Section VMProperties.
Import Values Stack Bytecode VMExec.

(** What the handler does when it is given a pool and no allocation
    fails: the slot becomes a reference to a value that was not in use,
    a string with the code points of the payload, no heap reference and one
    external reference; the other slots are kept. *)
Lemma inst_setconst_with_pool st pool inst vc o :
  0 <= STACK_ENTRY st (slot inst) ->
  entry st !! Z.to_nat (STACK_ENTRY st (slot inst)) = Some vc ->
  type (content inst) = H64VALTYPE_CONSTPREALLOCSTR ->
  constpreallocstr_len (content inst)
  = Z.of_nat (length (constpreallocstr_value (content inst))) ->
  exists st' addr vc',
    inst_setconst st (Some pool) inst (true :: true :: o)
    = Ret (NextInstruction st'
             (Some (<[addr :=
                       {| gc_type := H64GCVALUETYPE_STRING;
                          heapreferencecount := 0;
                          externalreferencecount := 1;
                          str_val :=
                            {| s := constpreallocstr_value (content inst);
                               len := constpreallocstr_len (content inst) |}
                       |}]> pool)) o) /\
    pool !! addr = None /\
    entry st' !! Z.to_nat (STACK_ENTRY st (slot inst)) = Some vc' /\
    type vc' = H64VALTYPE_GCVAL /\ ptr_value vc' = Some addr /\
    (forall k : nat,
       k <> Z.to_nat (STACK_ENTRY st (slot inst)) ->
       entry st' !! k = entry st !! k).
Proof.
  intros Hidx Hvc Hty Hlen.
  unfold inst_setconst.
  rewrite (proj2 (Z.ltb_ge _ _)) by assumption. rewrite Hvc.
  rewrite bool_decide_eq_true_2 by assumption.
  unfold poolalloc_malloc, vmstrings_Set. cbn [alloc_request negb].
  rewrite Hlen.
  assert ((Z.of_nat (length (constpreallocstr_value (content inst))) <? 0)
          = false) as -> by (apply Z.ltb_ge; lia).
  rewrite Z.ltb_irrefl. cbn [orb].
  rewrite Nat2Z.id, firstn_all.
  eexists _, (fresh (dom pool)), _. split; [reflexivity|].
  split; [apply not_elem_of_dom, is_fresh|].
  cbn [entry set_entry].
  split; [apply list_lookup_insert_eq; apply lookup_lt_Some in Hvc;
          assumption|].
  split; [reflexivity|]. split; [reflexivity|].
  intros k Hk. apply list_lookup_insert_ne. auto.
Qed.

(** C5, at any stack and slot.  In [vmthread_RunFunction] the local
    variable [heap] is initialised from itself and not from the heap of
    the thread.  A [setconst] with a preallocated string passes it to
    [poolalloc_malloc]: the allocation is made in no pool, whatever the
    stack, the slot and the payload are, and the run does not leave the
    slot with a reference to a fresh string of the heap of the thread. *)
Theorem setconst_preallocstr_allocates_in_no_pool
    (vt : h64vmthread) (pr : h64program) (func_id : Z) (f : h64func)
    (inst : h64instruction_setconst) (rest : list h64instruction)
    (st : h64stack) (vc : valuecontent) (o : alloc_oracle) :
  0 <= func_id ->
  func pr !! Z.to_nat func_id = Some f ->
  instructions f = Isetconst inst :: rest ->
  stack vt = Some st ->
  0 <= STACK_ENTRY st (slot inst) ->
  entry st !! Z.to_nat (STACK_ENTRY st (slot inst)) = Some vc ->
  type (content inst) = H64VALTYPE_CONSTPREALLOCSTR ->
  vmthread_RunFunction (Some vt) pr func_id true o = Fault.
Proof.
  intros Hid Hf Hinst Hst Hidx Hvc Hty.
  unfold vmthread_RunFunction. cbn [negb].
  assert ((func_id <? func_count pr) = true) as Hin.
  { apply Z.ltb_lt. unfold func_count. apply lookup_lt_Some in Hf. lia. }
  rewrite Hin, (proj2 (Z.geb_le _ _)) by assumption.
  unfold mbind, outcome_bind. cbn [assert andb obind].
  rewrite Hf, Hinst, Hst. cbn [run_instructions].
  unfold inst_setconst, local_heap.
  rewrite (proj2 (Z.ltb_ge _ _)) by assumption. rewrite Hvc.
  rewrite bool_decide_eq_true_2 by assumption. reflexivity.
Qed.

End VMProperties.

(** ** compiler/scoperesolver.c: the functions named main *)

Section ResolverProperties.
Import Scoperesolver.

Variables H64CLASS_HASH_SIZE H64CLASS_MAX_METHODS : Z.
Variable uri_Normalize : string -> option string.
Variable indeterminate : Bytecode.h64classmemberinfo.
Variable ast_ExpressionToJSONStr : h64expression -> string -> string.
Variable ast_ExpressionTypeToStr : h64expressiontype -> string.
Variable compileproject_GetFileSubProjectPath :
  h64compileproject -> string -> option (string * option string) * bool.
Variable compileproject_URIRelPath :
  string -> string -> option string * bool.
Variable filesys_Normalize : string -> option string.
Variable compileproject_ResolveImport :
  h64compileproject -> string -> list string -> option string ->
  option string * bool.
Variable compileproject_GetAST :
  h64compileproject -> option string ->
  option nat * string * h64compileproject.

Local Abbreviation ComputeItemStorage :=
  (scoperesolver_ComputeItemStorage H64CLASS_HASH_SIZE H64CLASS_MAX_METHODS
     uri_Normalize indeterminate).
Local Abbreviation BuildASTGlobalStorage :=
  (scoperesolver_BuildASTGlobalStorage H64CLASS_HASH_SIZE
     H64CLASS_MAX_METHODS uri_Normalize indeterminate
     ast_ExpressionToJSONStr ast_ExpressionTypeToStr
     compileproject_GetFileSubProjectPath compileproject_URIRelPath
     filesys_Normalize compileproject_ResolveImport compileproject_GetAST).

Local Abbreviation storage_functions_ :=
  (storage_functions H64CLASS_HASH_SIZE H64CLASS_MAX_METHODS uri_Normalize
     indeterminate).
Local Abbreviation extract_main_func_ := (extract_main_func uri_Normalize).
Local Abbreviation RegisterHorse64Function :=
  (Bytecode.h64program_RegisterHorse64Function H64CLASS_HASH_SIZE
     H64CLASS_MAX_METHODS uri_Normalize indeterminate).

Lemma find_owningclass_none fuel l : find_owningclass fuel l None = Ret None.
Proof. destruct fuel; reflexivity. Qed.

Lemma store_expr_asts pr ast expr e a :
  asts pr !! ast = Some a ->
  asts (store_expr pr ast expr e)
  = <[ast := set_nodes a (<[expr := e]> (nodes a))]> (asts pr).
Proof. intros Ha. unfold store_expr. rewrite Ha. reflexivity. Qed.

Lemma store_expr_program pr ast expr e :
  program (store_expr pr ast expr e) = program pr.
Proof. unfold store_expr. destruct (asts pr !! ast); reflexivity. Qed.

Lemma store_expr_length pr ast expr e :
  length (asts (store_expr pr ast expr e)) = length (asts pr).
Proof.
  unfold store_expr. destruct (asts pr !! ast); [|reflexivity].
  apply length_insert.
Qed.

Lemma store_expr_lookup pr ast expr e a :
  asts pr !! ast = Some a ->
  asts (store_expr pr ast expr e) !! ast
  = Some (set_nodes a (<[expr := e]> (nodes a))).
Proof.
  intros Ha. rewrite (store_expr_asts _ _ _ _ _ Ha).
  apply list_lookup_insert_eq. apply lookup_lt_Some in Ha. assumption.
Qed.

(** The first two blocks pass a function of the file scope on. *)
Lemma storage_global_items_funcdef pr expr ast a e o x :
  asts pr !! ast = Some a -> nodes a !! expr = Some e ->
  global_main_funcdef e ->
  storage_global_items H64CLASS_HASH_SIZE uri_Normalize pr expr ast o
  = Ret x ->
  x = (None, pr, o).
Proof.
  intros Ha He (Hty & Hpar & Hglob & Hset & Hname) H.
  unfold storage_global_items in H. rewrite Ha, He, Hglob, Hty, Hset in H.
  step H. cbn [orb] in H.
  rewrite !bool_decide_eq_false_2 in H by discriminate.
  inversion H. reflexivity.
Qed.

Lemma storage_class_members_funcdef self pr expr ast a e o x :
  asts pr !! ast = Some a -> nodes a !! expr = Some e ->
  global_main_funcdef e ->
  storage_class_members H64CLASS_HASH_SIZE H64CLASS_MAX_METHODS
    uri_Normalize indeterminate self pr expr ast true o = Ret x ->
  x = (None, pr, o).
Proof.
  intros Ha He (Hty & Hpar & Hglob & Hset & Hname) H.
  unfold storage_class_members in H. rewrite Ha, He, Hglob in H.
  cbn [negb andb] in H. inversion H. reflexivity.
Qed.

(** When the program has a main function, [extract_main_func] that goes
    on has added the message to the result of the AST and marked the
    result as failed; the program is as it was. *)
Lemma result_AddMessage_added r t msg uri ln col o r' o' :
  result_AddMessage r t msg uri ln col o = (true, r', o') ->
  r' = {| success := success r;
          messages := messages r
                      ++ [ {| msg_type := t; message := msg;
                              msg_fileuri := uri; msg_line := ln;
                              msg_column := col |} ] |}.
Proof.
  unfold result_AddMessage. destruct (alloc_request o) as [ok o1].
  destruct ok; simpl; intros H; inversion H; reflexivity.
Qed.

Lemma extract_main_func_duplicate pr ast a e id o pr' o' :
  asts pr !! ast = Some a ->
  0 <= Bytecode.main_func_index (program pr) ->
  extract_main_func_ pr ast e id o = Ret (None, pr', o') ->
  program pr' = program pr /\
  asts pr'
  = <[ast := set_resultmsg a
               {| success := false;
                  messages := messages (resultmsg a)
                              ++ [duplicate_main_message a e] |}]> (asts pr).
Proof.
  intros Ha Hmain H. unfold extract_main_func in H. rewrite Ha in H.
  rewrite (proj2 (Z.geb_le _ _)) in H by assumption.
  repeat step H.
  match goal with
  | Hx : result_AddMessage _ _ _ _ _ _ _ = (?b, _, _),
    Hb : negb ?b = false |- _ =>
    destruct b; [|discriminate Hb];
    apply result_AddMessage_added in Hx; subst
  end.
  split; reflexivity.
Qed.

(** When the program has no main function yet, [extract_main_func] that
    goes on has recorded the function; the ASTs are as they were. *)
Lemma extract_main_func_first pr ast e id o pr' o' :
  Bytecode.main_func_index (program pr) < 0 ->
  extract_main_func_ pr ast e id o = Ret (None, pr', o') ->
  Bytecode.main_func_index (program pr') = id /\ 0 <= id /\
  asts pr' = asts pr.
Proof.
  intros Hmain H. unfold extract_main_func in H.
  destruct (asts pr !! ast) as [a|]; [|discriminate].
  rewrite Z.geb_leb in H.
  rewrite (proj2 (Z.leb_gt _ _)) in H by assumption.
  step H. step Hm. rewrite Z.geb_leb in Hm. apply Z.leb_le in Hm.
  repeat step H.
  match goal with
  | Hx : Bytecode.bytecode_fileuriindex _ _ _ _ = Ret _ |- _ =>
    apply bytecode_fileuriindex_tables in Hx;
    destruct Hx as ((_ & _ & _ & Hx & _) & _)
  end.
  cbn [program set_program Bytecode.main_func_index Bytecode.set_symbols
       Bytecode.set_main_func_index asts] in *.
  split; [assumption|]. split; [assumption | reflexivity].
Qed.

Lemma extract_main_func_early pr ast e id o r oom pr' o' :
  extract_main_func_ pr ast e id o = Ret (Some (r, oom), pr', o') -> r = 0.
Proof.
  unfold extract_main_func. intros H. repeat step H; reflexivity.
Qed.

(** The storage of a function named main of the file scope: the function
    is registered, its storage is assigned, the main function is
    extracted, and the id of the function is noted on the node. *)
Lemma ComputeItemStorage_global_main
    depth pr expr ast a e o oom pr' o' :
  asts pr !! ast = Some a -> nodes a !! expr = Some e ->
  global_main_funcdef e ->
  ComputeItemStorage (S depth) pr expr ast true o = Ret (1, oom, pr', o') ->
  exists id p1 o1 pr2,
    0 <= id /\
    Bytecode.main_func_index p1 = Bytecode.main_func_index (program pr) /\
    let e1 := set_storage e
                {| set := true;
                   ref := {| sr_type := H64STORETYPE_GLOBALFUNCSLOT;
                             sr_id := id |} |} in
    extract_main_func_ (store_expr (set_program pr p1) ast expr e1) ast e1
      id o1 = Ret (None, pr2, o') /\
    pr' = store_expr pr2 ast expr (set_bytecode_func_id e1 id).
Proof.
  intros Ha He Hmain H.
  cbn [scoperesolver_ComputeItemStorage] in H.
  unfold ComputeItemStorage_body in H.
  step H. destruct a0 as [[ret1 pr1] o1].
  apply (storage_global_items_funcdef _ _ _ _ _ _ _ Ha He Hmain) in Hm.
  inversion Hm; subst ret1 pr1 o1; clear Hm.
  step H. destruct a0 as [[ret2 pr2] o2].
  apply (storage_class_members_funcdef _ _ _ _ _ _ _ _ Ha He Hmain) in Hm.
  inversion Hm; subst ret2 pr2 o2; clear Hm.
  destruct Hmain as (Hty & Hpar & Hglob & Hset & Hname).
  unfold storage_functions in H. rewrite Ha, He, Hglob, Hty, Hpar in H.
  rewrite bool_decide_eq_true_2 in H by reflexivity. cbn [orb] in H.
  rewrite find_owningclass_none in H.
  unfold mbind, outcome_bind in H. cbn [obind] in H.
  change (1 =? 0) with false in H. cbv iota in H.
  rewrite Hname in H.
  rewrite (bool_decide_eq_true_2 (Some "main"%string = Some "main"%string))
    in H by reflexivity.
  cbn [andb] in H.
  repeat step H;
    match goal with
    | Hx : obind (extract_main_func _ _ _ _ _ _) _ = Ret _ |- _ =>
      repeat step Hx
    end;
    try match goal with
        | Hx : extract_main_func _ _ _ _ _ _ = Ret (Some (1, _), _, _)
          |- _ => apply extract_main_func_early in Hx; discriminate Hx
        end.
  match goal with
  | Hreg : Bytecode.h64program_RegisterHorse64Function _ _ _ _ _ _ _ _ _ _
             _ _ _ _ = Ret (?id, ?p1, ?o1),
    Hid : (?id <? 0) = false,
    Hex : extract_main_func _ _ _ _ _ _ = Ret (None, ?pr2, _) |- _ =>
    exists id, p1, o1, pr2;
    apply RegisterHorse64Function_main_func_index in Hreg;
    apply Z.ltb_ge in Hid
  end.
  split; [assumption|]. split; [assumption|]. split; [assumption|].
  reflexivity.
Qed.

Lemma duplicate_main_message_contains a e :
  string_contains "duplicate main func found"
    (message (duplicate_main_message a e)) = true.
Proof. reflexivity. Qed.

(** C7.  In an AST, two definitions of a function named main at the top
    of the file, in the file scope, get their storage with [extract_main]
    set, on a program without a main function, and both calls succeed.
    After the first call the index of the main function is the id noted on
    the first definition.  After the second call it still is, the result of
    the AST is marked as failed, and it holds an error message with
    "duplicate main func found" in it. *)
Theorem duplicate_main_keeps_first_and_is_reported
    (depth : nat) (pr : h64compileproject) (ast : nat) (a : h64ast)
    (expr1 expr2 : nat) (e1 e2 : h64expression)
    (o : alloc_oracle) (oom1 : bool) (pr1 : h64compileproject)
    (o1 : alloc_oracle) (oom2 : bool) (pr2 : h64compileproject)
    (o2 : alloc_oracle) :
  asts pr !! ast = Some a ->
  nodes a !! expr1 = Some e1 -> nodes a !! expr2 = Some e2 ->
  expr1 <> expr2 ->
  global_main_funcdef e1 -> global_main_funcdef e2 ->
  Bytecode.main_func_index (program pr) < 0 ->
  ComputeItemStorage (S depth) pr expr1 ast true o
  = Ret (1, oom1, pr1, o1) ->
  ComputeItemStorage (S depth) pr1 expr2 ast true o1
  = Ret (1, oom2, pr2, o2) ->
  exists first a1 f1 a2,
    0 <= first /\
    asts pr1 !! ast = Some a1 /\ nodes a1 !! expr1 = Some f1 /\
    funcdef_bytecode_func_id f1 = first /\
    Bytecode.main_func_index (program pr1) = first /\
    Bytecode.main_func_index (program pr2) = first /\
    asts pr2 !! ast = Some a2 /\
    success (resultmsg a2) = false /\
    has_error_with "duplicate main func found" (resultmsg a2).
Proof.
  intros Ha He1 He2 Hne Hmain1 Hmain2 Hnomain Hcall1 Hcall2.
  (* the first definition *)
  destruct (ComputeItemStorage_global_main _ _ _ _ _ _ _ _ _ _ Ha He1 Hmain1
              Hcall1) as (id1 & p1 & om1 & prm1 & Hid1 & Hp1 & Hex1 & Hpr1).
  cbv zeta in Hex1.
  apply extract_main_func_first in Hex1;
    [|rewrite store_expr_program; cbn [program set_program]; lia].
  destruct Hex1 as (Hmainidx1 & _ & Hasts1).
  assert (asts prm1 !! ast
          = Some (set_nodes a
                    (<[expr1 := set_storage e1
                                  {| set := true;
                                     ref := {| sr_type :=
                                                 H64STORETYPE_GLOBALFUNCSLOT;
                                               sr_id := id1 |} |}]>
                       (nodes a)))) as Hast1.
  { rewrite Hasts1. apply store_expr_lookup. exact Ha. }
  pose proof (store_expr_lookup prm1 ast expr1
                (set_bytecode_func_id
                   (set_storage e1
                      {| set := true;
                         ref := {| sr_type := H64STORETYPE_GLOBALFUNCSLOT;
                                   sr_id := id1 |} |}) id1) _ Hast1)
    as Ha1.
  rewrite <- Hpr1 in Ha1. cbn [nodes set_nodes] in Ha1.
  rewrite list_insert_insert_eq in Ha1.
  set (a1 := set_nodes _ _) in Ha1.
  assert (Bytecode.main_func_index (program pr1) = id1) as Hmainpr1.
  { rewrite Hpr1, store_expr_program. assumption. }
  assert (nodes a1 !! expr2 = Some e2) as He2'.
  { unfold a1. cbn [nodes set_nodes].
    rewrite list_lookup_insert_ne by assumption. assumption. }
  (* the second definition *)
  destruct (ComputeItemStorage_global_main _ _ _ _ _ _ _ _ _ _ Ha1 He2'
              Hmain2 Hcall2)
    as (id2 & p2 & om2 & prm2 & Hid2 & Hp2 & Hex2 & Hpr2).
  cbv zeta in Hex2.
  eapply extract_main_func_duplicate in Hex2;
    [|apply store_expr_lookup; exact Ha1
     |rewrite store_expr_program; cbn [program set_program]; lia].
  destruct Hex2 as (Hprog2 & Hasts2).
  rewrite store_expr_program in Hprog2. cbn [program set_program] in Hprog2.
  assert (exists am, asts prm2 !! ast = Some am /\
            resultmsg am
            = {| success := false;
                 messages := messages (resultmsg a1)
                             ++ [duplicate_main_message
                                   (set_nodes a1
                                      (<[expr2 := set_storage e2
                                           {| set := true;
                                              ref := {| sr_type :=
                                                 H64STORETYPE_GLOBALFUNCSLOT;
                                                        sr_id := id2 |} |}]>
                                         (nodes a1)))
                                   (set_storage e2
                                      {| set := true;
                                         ref := {| sr_type :=
                                                 H64STORETYPE_GLOBALFUNCSLOT;
                                                   sr_id := id2 |} |})] |})
    as (am & Ham & Hres).
  { eexists. split.
    - rewrite Hasts2. apply list_lookup_insert_eq.
      rewrite store_expr_length. cbn [asts set_program].
      apply lookup_lt_Some in Ha1. assumption.
    - reflexivity. }
  pose proof (store_expr_lookup prm2 ast expr2
                (set_bytecode_func_id
                   (set_storage e2
                      {| set := true;
                         ref := {| sr_type := H64STORETYPE_GLOBALFUNCSLOT;
                                   sr_id := id2 |} |}) id2) _ Ham) as Ha2.
  rewrite <- Hpr2 in Ha2.
  eexists id1, a1, _, _.
  split; [assumption|]. split; [exact Ha1|].
  split.
  { unfold a1. cbn [nodes set_nodes]. apply list_lookup_insert_eq.
    apply lookup_lt_Some in He1. assumption. }
  split; [reflexivity|]. split; [assumption|].
  split; [rewrite Hpr2, store_expr_program, Hprog2; lia|].
  split; [exact Ha2|].
  cbn [resultmsg set_nodes]. rewrite Hres. split; [reflexivity|].
  eexists. split; [|split].
  - cbn [messages]. apply elem_of_app. right. apply list_elem_of_singleton.
    reflexivity.
  - reflexivity.
  - apply duplicate_main_message_contains.
Qed.

(** ** compiler/scoperesolver.c: the run of a call that builds the storage *)

(** The ways in which [scoperesolver_BuildASTGlobalStorage] returns: at
    once for an AST whose global storage is built; else, with the AST
    marked, out of the assignment of the module path, out of the loading
    of the imports, after the visit of the expressions, or after the loop
    over the imports. *)
Lemma BuildASTGlobalStorage_inv
    depth pr ast recursive rinfo o r pr' o' calls :
  BuildASTGlobalStorage (S depth) pr ast recursive rinfo o
  = Ret (r, pr', o', calls) ->
  let this := {| inv_ast := ast; inv_recursive := recursive;
                 inv_extract_main := extract_main rinfo |} in
  exists a0,
    asts pr !! ast = Some a0 /\
    ((global_storage_built a0 = true /\ r = 1 /\ pr' = pr /\ calls = [this])
     \/
     (global_storage_built a0 = false /\
      let marked := store_ast pr ast (set_global_storage_built a0 true) in
      ((exists o1,
          assign_module_path compileproject_GetFileSubProjectPath
            compileproject_URIRelPath filesys_Normalize marked ast o1
          = Ret (Some r, pr', o') /\ calls = [this])
       \/
       (exists o1 pr1 o2,
          assign_module_path compileproject_GetFileSubProjectPath
            compileproject_URIRelPath filesys_Normalize marked ast o1
          = Ret (None, pr1, o2) /\
          ((exists defs,
              load_imports compileproject_ResolveImport compileproject_GetAST
                defs pr1 ast o2 = Ret (Some r, pr', o') /\ calls = [this])
           \/
           (exists defs pr2 o3 r3 pr3 o4,
              load_imports compileproject_ResolveImport compileproject_GetAST
                defs pr1 ast o2 = Ret (None, pr2, o3) /\
              asttransform_Apply
                (_resolvercallback_BuildGlobalStorage_visit_out
                   H64CLASS_HASH_SIZE H64CLASS_MAX_METHODS uri_Normalize
                   indeterminate ast_ExpressionToJSONStr
                   ast_ExpressionTypeToStr)
                pr2 ast rinfo o3 = Ret (r3, pr3, o4) /\
              ((r3 = 0 /\ r = 0 /\ pr' = pr3 /\ calls = [this])
               \/
               (r3 <> 0 /\ recursive = false /\ r = 1 /\ pr' = pr3 /\
                calls = [this])
               \/
               (r3 <> 0 /\ recursive = true /\
                exists a3 early,
                  asts pr3 !! ast = Some a3 /\
                  recurse_imports (BuildASTGlobalStorage depth)
                    (definitionref a3) pr3 ast rinfo o4 [this]
                  = Ret (early, pr', o', calls) /\
                  r = default 1 early)))))))).
Proof.
  intros H this. cbn [scoperesolver_BuildASTGlobalStorage] in H.
  unfold BuildASTGlobalStorage_body in H.
  destruct (asts pr !! ast) as [a0|] eqn:Ha0; [|discriminate].
  exists a0. split; [reflexivity|].
  destruct (global_storage_built a0) eqn:Hb0.
  { left. inversion H; subst. auto. }
  right. split; [reflexivity|]. cbv zeta.
  unfold mbind, outcome_bind in H.
  apply obind_ret in H. destruct H as ([[early1 pr1] o1] & Hassign & H).
  destruct early1 as [r1|].
  { left. inversion H; subst. eauto. }
  right. exists o, pr1, o1. split; [exact Hassign|].
  apply obind_ret in H. destruct H as ([[early2 pr2] o2] & Hload & H).
  destruct early2 as [r2|].
  { left. inversion H; subst. eauto. }
  right. apply obind_ret in H. destruct H as ([[r3 pr3] o3] & Happly & H).
  exists (definitionref (set_global_storage_built a0 true)), pr2, o2, r3, pr3,
    o3.
  split; [exact Hload|]. split; [exact Happly|].
  destruct (r3 =? 0) eqn:Hr3.
  { left. apply Z.eqb_eq in Hr3. inversion H; subst. auto. }
  apply Z.eqb_neq in Hr3. right.
  destruct recursive.
  - right. split; [assumption|]. split; [reflexivity|].
    destruct (asts pr3 !! ast) as [a3|] eqn:Ha3; [|discriminate].
    apply obind_ret in H.
    destruct H as ([[[early4 pr4] o4] calls4] & Hloop & H).
    exists a3, early4.
    destruct early4 as [r4|]; inversion H; subst; auto.
  - left. inversion H; subst. auto.
Qed.

(** ** compiler/scoperesolver.c: what a call leaves of the ASTs *)

Lemma keeps_built_refl pr : keeps_built pr pr.
Proof. intros i a Ha. exists a. auto. Qed.

Lemma evolves_refl ast pr : evolves ast pr pr.
Proof. intros i a Ha. exists a. auto. Qed.

Lemma evolves_trans ast pr0 pr pr' :
  evolves ast pr0 pr -> evolves ast pr pr' -> evolves ast pr0 pr'.
Proof.
  intros H1 H2 i a Ha.
  destruct (H1 i a Ha) as (a1 & Ha1 & K1).
  destruct (H2 i a1 Ha1) as (a2 & Ha2 & K2).
  exists a2. split; [assumption|]. intros Hb.
  destruct (K1 Hb) as (Hb1 & Hne1). destruct (K2 Hb1) as (Hb2 & Hne2).
  split; [assumption|]. intros Hi.
  rewrite Hne2, Hne1 by assumption. reflexivity.
Qed.

Lemma evolves_keeps_built ast pr0 pr pr' :
  keeps_built pr pr' -> evolves ast pr0 pr -> evolves ast pr0 pr'.
Proof.
  intros H H0. eapply evolves_trans; [exact H0|].
  intros i a Ha. destruct (H i a Ha) as (a' & Ha' & K).
  exists a'. split; [assumption|]. intros Hb.
  rewrite (K Hb). auto.
Qed.

Lemma evolves_built_at ast pr pr' i :
  evolves ast pr pr' -> built_at pr i -> built_at pr' i.
Proof.
  intros H (a & Ha & Hb). destruct (H i a Ha) as (a' & Ha' & K).
  exists a'. split; [assumption|]. apply K. assumption.
Qed.


Lemma evolves_store_ast ast pr0 pr a a2 :
  asts pr !! ast = Some a ->
  (global_storage_built a = true -> global_storage_built a2 = true) ->
  evolves ast pr0 pr -> evolves ast pr0 (store_ast pr ast a2).
Proof.
  intros Ha Hb H. eapply evolves_trans; [exact H|].
  intros i x Hx. unfold store_ast. cbn [asts set_asts].
  destruct (decide (i = ast)) as [->|Hi].
  - exists a2. rewrite list_lookup_insert_eq
      by (apply lookup_lt_Some in Ha; assumption).
    split; [reflexivity|]. rewrite Ha in Hx. inversion Hx; subst.
    intros Hx'. split; [auto | congruence].
  - exists x. rewrite list_lookup_insert_ne by congruence. auto.
Qed.

Lemma evolves_store_expr ast pr0 pr expr e :
  evolves ast pr0 pr -> evolves ast pr0 (store_expr pr ast expr e).
Proof.
  intros H. unfold store_expr.
  destruct (asts pr !! ast) as [a|] eqn:Ha; [|assumption].
  eapply evolves_store_ast; eauto.
Qed.

Lemma evolves_set_program ast pr0 pr p :
  evolves ast pr0 pr -> evolves ast pr0 (set_program pr p).
Proof. intros H. exact H. Qed.

Lemma evolves_set_pr_resultmsg ast pr0 pr r :
  evolves ast pr0 pr -> evolves ast pr0 (set_pr_resultmsg pr r).
Proof. intros H. exact H. Qed.

Lemma evolves_set_ast_success ast pr0 pr b :
  evolves ast pr0 pr -> evolves ast pr0 (set_ast_success pr ast b).
Proof.
  intros H. unfold set_ast_success.
  destruct (asts pr !! ast) as [a|] eqn:Ha; [|assumption].
  eapply evolves_store_ast; eauto.
Qed.

Lemma evolves_add_ast_message ast pr0 pr msg ln col o added pr' o' :
  add_ast_message pr ast msg ln col o = Ret (added, pr', o') ->
  evolves ast pr0 pr -> evolves ast pr0 pr'.
Proof.
  unfold add_ast_message. intros H H0. repeat step H.
  eapply evolves_store_ast; eauto.
Qed.

Create HintDb evolves.

#[local] Hint Resolve evolves_refl evolves_store_expr evolves_set_program
  evolves_set_pr_resultmsg evolves_set_ast_success evolves_add_ast_message
  : evolves.

#[local] Hint Extern 2 (evolves _ _ (store_ast _ _ _)) =>
  eapply evolves_store_ast; [eassumption | auto |] : evolves.

Lemma evolves_assign_module_path ast pr0 pr o early pr' o' :
  assign_module_path compileproject_GetFileSubProjectPath
    compileproject_URIRelPath filesys_Normalize pr ast o
  = Ret (early, pr', o') ->
  evolves ast pr0 pr -> evolves ast pr0 pr'.
Proof.
  unfold assign_module_path. intros H H0.
  steps; eauto 6 with evolves.
Qed.

Lemma evolves_extract_main_func ast pr0 pr e id o early pr' o' :
  extract_main_func_ pr ast e id o = Ret (early, pr', o') ->
  evolves ast pr0 pr -> evolves ast pr0 pr'.
Proof.
  unfold extract_main_func. intros H H0.
  steps; eauto 8 with evolves.
Qed.

Lemma evolves_storage_global_items ast pr0 pr expr o early pr' o' :
  storage_global_items H64CLASS_HASH_SIZE uri_Normalize pr expr ast o
  = Ret (early, pr', o') ->
  evolves ast pr0 pr -> evolves ast pr0 pr'.
Proof.
  unfold storage_global_items. intros H H0.
  steps; eauto 8 with evolves.
Qed.

#[local] Hint Resolve evolves_extract_main_func evolves_storage_global_items
  : evolves.

Section WithSelf.

Variable self : ComputeItemStorage_t.
Variable ast : nat.
Hypothesis evolves_self : forall pr0 pr expr extract_main o r oom pr' o',
  self pr expr ast extract_main o = Ret (r, oom, pr', o') ->
  evolves ast pr0 pr -> evolves ast pr0 pr'.

Lemma evolves_owningclass_storage pr0 pr oc extract_main o r oom pr' o' :
  owningclass_storage self pr ast oc extract_main o = Ret (r, oom, pr', o') ->
  evolves ast pr0 pr -> evolves ast pr0 pr'.
Proof.
  unfold owningclass_storage. intros H H0.
  steps; eauto 8 with evolves.
Qed.

#[local] Hint Resolve evolves_owningclass_storage : evolves.

Lemma evolves_storage_class_members pr0 pr expr extract_main o early pr' o' :
  storage_class_members H64CLASS_HASH_SIZE H64CLASS_MAX_METHODS
    uri_Normalize indeterminate self pr expr ast extract_main o
  = Ret (early, pr', o') ->
  evolves ast pr0 pr -> evolves ast pr0 pr'.
Proof.
  unfold storage_class_members. intros H H0.
  steps; eauto 8 with evolves.
Qed.

Lemma evolves_storage_functions pr0 pr expr extract_main o r oom pr' o' :
  storage_functions_ self pr expr ast extract_main o
  = Ret (r, oom, pr', o') ->
  evolves ast pr0 pr -> evolves ast pr0 pr'.
Proof.
  unfold storage_functions. intros H H0.
  steps; eauto 10 with evolves.
Qed.

Lemma evolves_ComputeItemStorage_body
    pr0 pr expr extract_main o r oom pr' o' :
  ComputeItemStorage_body H64CLASS_HASH_SIZE H64CLASS_MAX_METHODS
    uri_Normalize indeterminate self pr expr ast extract_main o
  = Ret (r, oom, pr', o') ->
  evolves ast pr0 pr -> evolves ast pr0 pr'.
Proof.
  unfold ComputeItemStorage_body. intros H H0.
  pose proof evolves_storage_class_members.
  pose proof evolves_storage_functions.
  steps; eauto 8 with evolves.
Qed.

End WithSelf.

Lemma evolves_ComputeItemStorage depth ast :
  forall pr0 pr expr extract_main o r oom pr' o',
    ComputeItemStorage depth pr expr ast extract_main o
    = Ret (r, oom, pr', o') ->
    evolves ast pr0 pr -> evolves ast pr0 pr'.
Proof.
  induction depth as [|depth IH];
    intros pr0 pr expr extract_main o r oom pr' o' H H0.
  - discriminate H.
  - cbn [scoperesolver_ComputeItemStorage] in H.
    eapply evolves_ComputeItemStorage_body; eassumption.
Qed.

#[local] Hint Resolve evolves_ComputeItemStorage : evolves.

Lemma evolves_visit_out ast pr0 pr expr rinfo o r oom pr' o' :
  _resolvercallback_BuildGlobalStorage_visit_out H64CLASS_HASH_SIZE
    H64CLASS_MAX_METHODS uri_Normalize indeterminate
    ast_ExpressionToJSONStr ast_ExpressionTypeToStr pr expr ast rinfo o
  = Ret (r, oom, pr', o') ->
  evolves ast pr0 pr -> evolves ast pr0 pr'.
Proof.
  unfold _resolvercallback_BuildGlobalStorage_visit_out. intros H H0.
  steps; eauto 8 with evolves.
Qed.

#[local] Hint Resolve evolves_visit_out : evolves.

Lemma evolves_asttransform_visit ast exprs : forall pr0 pr rinfo o r pr' o',
  asttransform_visit
    (_resolvercallback_BuildGlobalStorage_visit_out H64CLASS_HASH_SIZE
       H64CLASS_MAX_METHODS uri_Normalize indeterminate
       ast_ExpressionToJSONStr ast_ExpressionTypeToStr)
    exprs pr ast rinfo o = Ret (r, pr', o') ->
  evolves ast pr0 pr -> evolves ast pr0 pr'.
Proof.
  induction exprs as [|expr exprs IH]; intros pr0 pr rinfo o r pr' o' H H0;
    simpl in H.
  - inversion H; subst. assumption.
  - steps; eauto 8 with evolves.
Qed.

Lemma evolves_asttransform_Apply ast pr0 pr rinfo o r pr' o' :
  asttransform_Apply
    (_resolvercallback_BuildGlobalStorage_visit_out H64CLASS_HASH_SIZE
       H64CLASS_MAX_METHODS uri_Normalize indeterminate
       ast_ExpressionToJSONStr ast_ExpressionTypeToStr)
    pr ast rinfo o = Ret (r, pr', o') ->
  evolves ast pr0 pr -> evolves ast pr0 pr'.
Proof.
  unfold asttransform_Apply. intros H H0.
  destruct (asts pr !! ast); [|discriminate].
  eapply evolves_asttransform_visit; eassumption.
Qed.

Section WithLoader.

Hypothesis loader : loader_resolves compileproject_GetAST.

Lemma evolves_GetAST ast pr0 pr path got error pr' :
  compileproject_GetAST pr path = (got, error, pr') ->
  evolves ast pr0 pr -> evolves ast pr0 pr'.
Proof.
  intros H. apply evolves_keeps_built. eapply loader. exact H.
Qed.

#[local] Hint Resolve evolves_assign_module_path evolves_GetAST
  evolves_asttransform_Apply : evolves.

Lemma evolves_load_imports ast defs : forall pr0 pr o early pr' o',
  load_imports compileproject_ResolveImport compileproject_GetAST defs pr
    ast o = Ret (early, pr', o') ->
  evolves ast pr0 pr -> evolves ast pr0 pr'.
Proof.
  induction defs as [|expr defs IH]; intros pr0 pr o early pr' o' H H0;
    simpl in H.
  - inversion H; subst. assumption.
  - steps; eauto 12 with evolves.
Qed.

#[local] Hint Resolve evolves_load_imports : evolves.

(** The loop over the imports, when the calls it makes leave the ASTs
    whose global storage is built as they are. *)
Lemma evolves_recurse_imports (self : BuildASTGlobalStorage_t) ast defs :
  (forall pr ra recursive rinfo o r pr' o' made,
     self pr ra recursive rinfo o = Ret (r, pr', o', made) ->
     keeps_built pr pr') ->
  forall pr0 pr rinfo o calls0 early pr' o' calls,
    recurse_imports self defs pr ast rinfo o calls0
    = Ret (early, pr', o', calls) ->
    evolves ast pr0 pr -> evolves ast pr0 pr'.
Proof.
  intros Hself.
  induction defs as [|expr defs IH];
    intros pr0 pr rinfo o calls0 early pr' o' calls H H0; simpl in H.
  - inversion H; subst. assumption.
  - steps;
      try match goal with
          | Hx : self _ _ _ _ _ = Ret _ |- _ =>
            apply Hself in Hx;
            apply (evolves_keeps_built ast pr0) in Hx; [|assumption]
          end;
      try (eapply IH; [eassumption|]);
      clear IH Hself; eauto 6 with evolves.
Qed.

(** A call leaves the ASTs whose global storage is built as they are,
    and the global storage of its AST is built after it. *)
Lemma BuildASTGlobalStorage_keeps_built depth :
  forall pr ast recursive rinfo o r pr' o' calls,
    BuildASTGlobalStorage depth pr ast recursive rinfo o
    = Ret (r, pr', o', calls) ->
    keeps_built pr pr' /\ built_at pr' ast.
Proof.
  induction depth as [|depth IH];
    intros pr ast recursive rinfo o r pr' o' calls H; [discriminate|].
  apply BuildASTGlobalStorage_inv in H. cbv zeta in H.
  destruct H as (a0 & Ha0 & [(Hb0 & _ & -> & _) | (Hb0 & H)]).
  { split; [apply keeps_built_refl | exists a0; auto]. }
  set (marked := store_ast pr ast (set_global_storage_built a0 true)) in H.
  assert (asts marked !! ast = Some (set_global_storage_built a0 true))
    as Hmarked.
  { unfold marked, store_ast. cbn [asts set_asts].
    apply list_lookup_insert_eq. apply lookup_lt_Some in Ha0. assumption. }
  assert (evolves ast marked pr') as Hev.
  { pose proof (evolves_refl ast marked) as H0.
    destruct H as [(o1 & Hassign & _) | (o1 & pr1 & o2 & Hassign & H)];
      [eauto with evolves|].
    destruct H as [(defs & Hload & _)
                  | (defs & pr2 & o3 & r3 & pr3 & o4 & Hload & Happly & H)];
      [eauto with evolves|].
    assert (evolves ast marked pr3) as H3 by eauto 6 with evolves.
    destruct H as [(_ & _ & -> & _) | [(_ & _ & _ & -> & _) | H]];
      [assumption | assumption |].
    destruct H as (_ & _ & a3 & early & _ & Hloop & _).
    eapply evolves_recurse_imports; [|exact Hloop|exact H3].
    intros. eapply IH. eassumption. }
  split.
  - intros i a Ha. destruct (decide (i = ast)) as [->|Hi].
    + destruct (Hev ast _ Hmarked) as (a' & Ha' & _).
      exists a'. split; [assumption|]. congruence.
    + assert (asts marked !! i = Some a) as Ha1.
      { unfold marked, store_ast. cbn [asts set_asts].
        rewrite list_lookup_insert_ne by congruence. assumption. }
      destruct (Hev i a Ha1) as (a' & Ha' & K).
      exists a'. split; [assumption|]. intros Hb. apply K; assumption.
  - eapply evolves_built_at; [exact Hev|].
    eexists. split; [exact Hmarked | reflexivity].
Qed.

(** ** compiler/scoperesolver.c: the calls made for the imports *)





(** ** compiler/scoperesolver.c: calls that leave the index of main *)

Lemma keeps_main_refl pr : keeps_main pr pr.
Proof. reflexivity. Qed.

Lemma keeps_main_set_program pr0 pr p :
  Bytecode.main_func_index p = Bytecode.main_func_index (program pr) ->
  keeps_main pr0 pr -> keeps_main pr0 (set_program pr p).
Proof. unfold keeps_main. cbn [program set_program]. congruence. Qed.

Lemma keeps_main_store_ast pr0 pr ast a :
  keeps_main pr0 pr -> keeps_main pr0 (store_ast pr ast a).
Proof. intros H. exact H. Qed.

Lemma keeps_main_store_expr pr0 pr ast expr e :
  keeps_main pr0 pr -> keeps_main pr0 (store_expr pr ast expr e).
Proof. unfold keeps_main. rewrite store_expr_program. auto. Qed.

Lemma keeps_main_set_pr_resultmsg pr0 pr r :
  keeps_main pr0 pr -> keeps_main pr0 (set_pr_resultmsg pr r).
Proof. intros H. exact H. Qed.

Lemma keeps_main_set_ast_success pr0 pr ast b :
  keeps_main pr0 pr -> keeps_main pr0 (set_ast_success pr ast b).
Proof.
  unfold set_ast_success. destruct (asts pr !! ast); intros H; exact H.
Qed.

Lemma keeps_main_add_ast_message pr0 pr ast msg ln col o added pr' o' :
  add_ast_message pr ast msg ln col o = Ret (added, pr', o') ->
  keeps_main pr0 pr -> keeps_main pr0 pr'.
Proof.
  unfold add_ast_message. intros H H0. repeat step H. exact H0.
Qed.

Lemma RegisterClassVariable_main_func_index p class_id name o r p' o' :
  Bytecode.h64program_RegisterClassVariable H64CLASS_HASH_SIZE
    H64CLASS_MAX_METHODS indeterminate p class_id name o = Ret (r, p', o') ->
  Bytecode.main_func_index p' = Bytecode.main_func_index p.
Proof.
  unfold Bytecode.h64program_RegisterClassVariable. intros H.
  apply RegisterClassMemberEx_main_func_index in H. apply H.
Qed.

Create HintDb keeps_main.

#[local] Hint Resolve keeps_main_refl keeps_main_store_ast
  keeps_main_store_expr keeps_main_set_pr_resultmsg
  keeps_main_set_ast_success keeps_main_add_ast_message : keeps_main.

#[local] Hint Extern 2 (keeps_main _ (set_program _ _)) =>
  eapply keeps_main_set_program;
  [ first [ reflexivity
          | eapply AddGlobalvar_main_func_index; eassumption
          | eapply AddClass_main_func_index; eassumption
          | eapply RegisterClassVariable_main_func_index; eassumption
          | eapply RegisterHorse64Function_main_func_index; eassumption ]
  | ] : keeps_main.

Lemma keeps_main_assign_module_path pr0 pr ast o early pr' o' :
  assign_module_path compileproject_GetFileSubProjectPath
    compileproject_URIRelPath filesys_Normalize pr ast o
  = Ret (early, pr', o') ->
  keeps_main pr0 pr -> keeps_main pr0 pr'.
Proof.
  unfold assign_module_path. intros H H0.
  steps; eauto 6 with keeps_main.
Qed.

Lemma keeps_main_storage_global_items pr0 pr expr ast o early pr' o' :
  storage_global_items H64CLASS_HASH_SIZE uri_Normalize pr expr ast o
  = Ret (early, pr', o') ->
  keeps_main pr0 pr -> keeps_main pr0 pr'.
Proof.
  unfold storage_global_items. intros H H0.
  steps; eauto 8 with keeps_main.
Qed.

#[local] Hint Resolve keeps_main_assign_module_path
  keeps_main_storage_global_items : keeps_main.

Section WithSelfOff.

Variable self : ComputeItemStorage_t.
Hypothesis keeps_main_self : forall pr0 pr expr ast o r oom pr' o',
  self pr expr ast false o = Ret (r, oom, pr', o') ->
  keeps_main pr0 pr -> keeps_main pr0 pr'.

Lemma keeps_main_owningclass_storage pr0 pr ast oc o r oom pr' o' :
  owningclass_storage self pr ast oc false o = Ret (r, oom, pr', o') ->
  keeps_main pr0 pr -> keeps_main pr0 pr'.
Proof.
  unfold owningclass_storage. intros H H0.
  steps; eauto 8 with keeps_main.
Qed.

#[local] Hint Resolve keeps_main_owningclass_storage : keeps_main.

Lemma keeps_main_storage_class_members pr0 pr expr ast o early pr' o' :
  storage_class_members H64CLASS_HASH_SIZE H64CLASS_MAX_METHODS
    uri_Normalize indeterminate self pr expr ast false o
  = Ret (early, pr', o') ->
  keeps_main pr0 pr -> keeps_main pr0 pr'.
Proof.
  unfold storage_class_members. intros H H0.
  steps; eauto 8 with keeps_main.
Qed.

Lemma keeps_main_storage_functions pr0 pr expr ast o r oom pr' o' :
  storage_functions_ self pr expr ast false o = Ret (r, oom, pr', o') ->
  keeps_main pr0 pr -> keeps_main pr0 pr'.
Proof.
  unfold storage_functions. intros H H0.
  steps;
    try match goal with
        | Hx : andb _ false = true |- _ =>
          rewrite andb_false_r in Hx; discriminate Hx
        end;
    eauto 10 with keeps_main.
Qed.

Lemma keeps_main_ComputeItemStorage_body pr0 pr expr ast o r oom pr' o' :
  ComputeItemStorage_body H64CLASS_HASH_SIZE H64CLASS_MAX_METHODS
    uri_Normalize indeterminate self pr expr ast false o
  = Ret (r, oom, pr', o') ->
  keeps_main pr0 pr -> keeps_main pr0 pr'.
Proof.
  unfold ComputeItemStorage_body. intros H H0.
  pose proof keeps_main_storage_class_members.
  pose proof keeps_main_storage_functions.
  steps; eauto 8 with keeps_main.
Qed.

End WithSelfOff.

Lemma keeps_main_ComputeItemStorage depth :
  forall pr0 pr expr ast o r oom pr' o',
    ComputeItemStorage depth pr expr ast false o = Ret (r, oom, pr', o') ->
    keeps_main pr0 pr -> keeps_main pr0 pr'.
Proof.
  induction depth as [|depth IH]; intros pr0 pr expr ast o r oom pr' o' H H0.
  - discriminate H.
  - cbn [scoperesolver_ComputeItemStorage] in H.
    eapply keeps_main_ComputeItemStorage_body; eassumption.
Qed.

#[local] Hint Resolve keeps_main_ComputeItemStorage : keeps_main.

Lemma keeps_main_visit_out pr0 pr expr ast rinfo o r oom pr' o' :
  extract_main rinfo = false ->
  _resolvercallback_BuildGlobalStorage_visit_out H64CLASS_HASH_SIZE
    H64CLASS_MAX_METHODS uri_Normalize indeterminate
    ast_ExpressionToJSONStr ast_ExpressionTypeToStr pr expr ast rinfo o
  = Ret (r, oom, pr', o') ->
  keeps_main pr0 pr -> keeps_main pr0 pr'.
Proof.
  unfold _resolvercallback_BuildGlobalStorage_visit_out. intros -> H H0.
  steps; eauto 8 with keeps_main.
Qed.

Lemma keeps_main_asttransform_visit exprs :
  forall pr0 pr ast rinfo o r pr' o',
    extract_main rinfo = false ->
    asttransform_visit
      (_resolvercallback_BuildGlobalStorage_visit_out H64CLASS_HASH_SIZE
         H64CLASS_MAX_METHODS uri_Normalize indeterminate
         ast_ExpressionToJSONStr ast_ExpressionTypeToStr)
      exprs pr ast rinfo o = Ret (r, pr', o') ->
    keeps_main pr0 pr -> keeps_main pr0 pr'.
Proof.
  induction exprs as [|expr exprs IH];
    intros pr0 pr ast rinfo o r pr' o' Hoff H H0; simpl in H.
  - inversion H; subst. assumption.
  - pose proof (fun pr0 pr expr o r oom pr' o' =>
                  keeps_main_visit_out pr0 pr expr ast rinfo o r oom pr' o'
                    Hoff).
    steps; eauto 8 with keeps_main.
Qed.

Lemma keeps_main_asttransform_Apply pr0 pr ast rinfo o r pr' o' :
  extract_main rinfo = false ->
  asttransform_Apply
    (_resolvercallback_BuildGlobalStorage_visit_out H64CLASS_HASH_SIZE
       H64CLASS_MAX_METHODS uri_Normalize indeterminate
       ast_ExpressionToJSONStr ast_ExpressionTypeToStr)
    pr ast rinfo o = Ret (r, pr', o') ->
  keeps_main pr0 pr -> keeps_main pr0 pr'.
Proof.
  unfold asttransform_Apply. intros Hoff H H0.
  destruct (asts pr !! ast); [|discriminate].
  eapply keeps_main_asttransform_visit; eassumption.
Qed.

Lemma keeps_main_trans pr0 pr pr' :
  keeps_main pr0 pr -> keeps_main pr pr' -> keeps_main pr0 pr'.
Proof. unfold keeps_main. congruence. Qed.

Lemma keeps_main_GetAST pr0 pr path got error pr' :
  compileproject_GetAST pr path = (got, error, pr') ->
  keeps_main pr0 pr -> keeps_main pr0 pr'.
Proof.
  intros H H0. eapply keeps_main_trans; [exact H0|].
  eapply loader. exact H.
Qed.

#[local] Hint Resolve keeps_main_GetAST : keeps_main.

Lemma keeps_main_load_imports defs : forall pr0 pr ast o early pr' o',
  load_imports compileproject_ResolveImport compileproject_GetAST defs pr
    ast o = Ret (early, pr', o') ->
  keeps_main pr0 pr -> keeps_main pr0 pr'.
Proof.
  induction defs as [|expr defs IH]; intros pr0 pr ast o early pr' o' H H0;
    simpl in H.
  - inversion H; subst. assumption.
  - steps; eauto 12 with keeps_main.
Qed.

(** The loop over the imports leaves the index of main, whatever
    [extract_main] is for the call that runs it. *)
Lemma keeps_main_recurse_imports (self : BuildASTGlobalStorage_t) defs :
  (forall pr ra rinfo o r pr' o' calls,
     extract_main rinfo = false ->
     self pr ra false rinfo o = Ret (r, pr', o', calls) ->
     keeps_main pr pr') ->
  forall pr ast rinfo o calls0 early pr' o' calls,
    recurse_imports self defs pr ast rinfo o calls0
    = Ret (early, pr', o', calls) ->
    keeps_main pr pr'.
Proof.
  intros Hself.
  induction defs as [|expr defs IH];
    intros pr ast rinfo o calls0 early pr' o' calls H; simpl in H.
  - inversion H; subst. apply keeps_main_refl.
  - destruct (asts pr !! ast) as [a|]; [|discriminate].
    destruct (nodes a !! expr) as [e|]; [|discriminate].
    destruct (negb (bool_decide (etype e = H64EXPRTYPE_IMPORT_STMT)));
      [eapply IH; eassumption|].
    destruct (importstmt_referenced_ast e) as [ra|];
      [|eapply IH; eassumption].
    bind_inv H. destruct a0 as [[[r1 pr1] o1] made1].
    apply Hself in Hm; [|reflexivity].
    cbv beta iota zeta in H.
    destruct (r1 =? 0); [inversion H; subst; assumption|].
    destruct (asts pr1 !! ra) as [imported|]; [|discriminate].
    destruct (result_TransferMessages _ _ _) as [[transferred res] o2].
    destruct (negb transferred); [inversion H; subst; exact Hm|].
    apply IH in H. eapply keeps_main_trans; [exact Hm | exact H].
Qed.

(** A call without [extract_main] leaves the index of main. *)
Lemma BuildASTGlobalStorage_keeps_main depth :
  forall pr ast recursive rinfo o r pr' o' calls,
    extract_main rinfo = false ->
    BuildASTGlobalStorage depth pr ast recursive rinfo o
    = Ret (r, pr', o', calls) ->
    keeps_main pr pr'.
Proof.
  induction depth as [|depth IH];
    intros pr ast recursive rinfo o r pr' o' calls Hoff H;
    [discriminate|].
  apply BuildASTGlobalStorage_inv in H. cbv zeta in H.
  destruct H as (a0 & Ha0 & [(_ & _ & -> & _) | (_ & H)]);
    [apply keeps_main_refl|].
  set (marked := store_ast pr ast (set_global_storage_built a0 true)) in H.
  assert (keeps_main pr marked) as H0 by reflexivity.
  destruct H as [(o1 & Hassign & _) | (o1 & pr1 & o2 & Hassign & H)];
    [eapply keeps_main_assign_module_path; eassumption|].
  apply (keeps_main_assign_module_path pr) in Hassign; [|assumption].
  destruct H as [(defs & Hload & _)
                | (defs & pr2 & o3 & r3 & pr3 & o4 & Hload & Happly & H)];
    [eapply keeps_main_load_imports; eassumption|].
  apply (keeps_main_load_imports _ pr) in Hload; [|assumption].
  apply (keeps_main_asttransform_Apply pr) in Happly; [|assumption..].
  destruct H as [(_ & _ & -> & _) | [(_ & _ & _ & -> & _) | H]];
    [assumption | assumption |].
  destruct H as (_ & _ & a3 & early & _ & Hloop & _).
  apply keeps_main_recurse_imports in Hloop.
  - eapply keeps_main_trans; [exact Happly | exact Hloop].
  - intros. eapply IH; eassumption.
Qed.

(** ** compiler/scoperesolver.c: the ASTs that the imports reference *)

Lemma built_at_store_ast pr ast a a2 i :
  asts pr !! ast = Some a ->
  (global_storage_built a = true -> global_storage_built a2 = true) ->
  built_at pr i -> built_at (store_ast pr ast a2) i.
Proof.
  intros Ha Hb (x & Hx & Hbx). unfold built_at, store_ast.
  cbn [asts set_asts].
  destruct (decide (i = ast)) as [->|Hi].
  - exists a2. rewrite list_lookup_insert_eq
      by (apply lookup_lt_Some in Ha; assumption).
    split; [reflexivity|]. apply Hb. congruence.
  - exists x. rewrite list_lookup_insert_ne by congruence. auto.
Qed.

Lemma links_built_store_ast pr ast a a2 :
  asts pr !! ast = Some a ->
  (global_storage_built a = true -> global_storage_built a2 = true) ->
  (forall ra, ra ∈ imported_asts a2 ->
              ra ∈ imported_asts a \/ built_at pr ra) ->
  links_built pr -> links_built (store_ast pr ast a2).
Proof.
  intros Ha Hb Hlinks H i x ra Hx Hra.
  apply (built_at_store_ast pr ast a a2 ra Ha Hb).
  unfold store_ast in Hx. cbn [asts set_asts] in Hx.
  destruct (decide (i = ast)) as [->|Hi].
  - rewrite list_lookup_insert_eq in Hx
      by (apply lookup_lt_Some in Ha; assumption).
    inversion Hx; subst x.
    destruct (Hlinks ra Hra) as [Hold|Hold]; [|assumption].
    eapply H; eassumption.
  - rewrite list_lookup_insert_ne in Hx by congruence.
    eapply H; eassumption.
Qed.

Lemma links_built_store_ast_same pr ast a a2 :
  asts pr !! ast = Some a ->
  (global_storage_built a = true -> global_storage_built a2 = true) ->
  imported_asts a2 = imported_asts a ->
  links_built pr -> links_built (store_ast pr ast a2).
Proof.
  intros Ha Hb Heq. apply (links_built_store_ast pr ast a a2 Ha Hb).
  intros ra Hra. left. rewrite <- Heq. assumption.
Qed.

(** An expression is stored: the import statements reference the ASTs
    they did, but for the statement stored. *)
Lemma links_built_store_expr pr ast expr e :
  (etype e = H64EXPRTYPE_IMPORT_STMT ->
   forall ra, importstmt_referenced_ast e = Some ra -> built_at pr ra) ->
  links_built pr -> links_built (store_expr pr ast expr e).
Proof.
  intros He H. unfold store_expr.
  destruct (asts pr !! ast) as [a|] eqn:Ha; [|assumption].
  apply (links_built_store_ast pr ast a); [assumption | auto | | assumption].
  intros ra Hra. unfold imported_asts in Hra.
  apply list_elem_of_omap in Hra. destruct Hra as (x & Hx & Hlink).
  cbn [definitionref set_nodes] in Hx.
  unfold import_link in Hlink. cbn [nodes set_nodes] in Hlink.
  destruct (decide (x = expr)) as [->|Hne].
  - destruct (decide (expr < length (nodes a))%nat) as [Hlt|Hge].
    + rewrite list_lookup_insert_eq in Hlink by assumption.
      cbn [mbind option_bind] in Hlink.
      destruct (bool_decide (etype e = H64EXPRTYPE_IMPORT_STMT)) eqn:Hty;
        [|discriminate].
      apply bool_decide_eq_true in Hty. right. eapply He; eassumption.
    + rewrite list_insert_ge in Hlink by lia.
      left. apply list_elem_of_omap. exists expr. auto.
  - rewrite list_lookup_insert_ne in Hlink by congruence.
    left. apply list_elem_of_omap. exists x. auto.
Qed.

Lemma links_built_set_program pr p :
  links_built pr -> links_built (set_program pr p).
Proof. intros H. exact H. Qed.

Lemma links_built_set_pr_resultmsg pr r :
  links_built pr -> links_built (set_pr_resultmsg pr r).
Proof. intros H. exact H. Qed.

Lemma links_built_set_ast_success pr ast b :
  links_built pr -> links_built (set_ast_success pr ast b).
Proof.
  intros H. unfold set_ast_success.
  destruct (asts pr !! ast) as [a|] eqn:Ha; [|assumption].
  eapply links_built_store_ast_same; eauto.
Qed.

Lemma links_built_add_ast_message pr ast msg ln col o added pr' o' :
  add_ast_message pr ast msg ln col o = Ret (added, pr', o') ->
  links_built pr -> links_built pr'.
Proof.
  unfold add_ast_message. intros H H0. repeat step H.
  eapply links_built_store_ast_same; eauto.
Qed.

(** An expression that is stored with the type of a definition is no
    import statement. *)
Ltac not_import :=
  let Ht := fresh "Ht" in
  intros Ht; cbn in Ht; rewrite Ht in *;
  repeat match goal with
         | E : context [bool_decide (H64EXPRTYPE_IMPORT_STMT = ?t)] |- _ =>
           rewrite (bool_decide_eq_false_2 (H64EXPRTYPE_IMPORT_STMT = t))
             in E by discriminate
         end;
  repeat match goal with
         | E : _ = true |- _ => cbn [orb andb negb] in E; discriminate E
         end.

Create HintDb links_built.

#[local] Hint Resolve links_built_set_program links_built_set_pr_resultmsg
  links_built_set_ast_success links_built_add_ast_message : links_built.

#[local] Hint Extern 2 (links_built (store_ast _ _ _)) =>
  eapply links_built_store_ast_same; [eassumption | auto | reflexivity |]
  : links_built.

#[local] Hint Extern 2 (links_built (store_expr _ _ _ _)) =>
  apply links_built_store_expr; [solve [not_import] |] : links_built.

Lemma links_built_assign_module_path pr ast o early pr' o' :
  assign_module_path compileproject_GetFileSubProjectPath
    compileproject_URIRelPath filesys_Normalize pr ast o
  = Ret (early, pr', o') ->
  links_built pr -> links_built pr'.
Proof.
  unfold assign_module_path. intros H H0.
  steps; eauto 6 with links_built.
Qed.

Lemma links_built_extract_main_func pr ast e id o early pr' o' :
  extract_main_func_ pr ast e id o = Ret (early, pr', o') ->
  links_built pr -> links_built pr'.
Proof.
  unfold extract_main_func. intros H H0.
  steps; eauto 8 with links_built.
Qed.

Lemma links_built_storage_global_items pr expr ast o early pr' o' :
  storage_global_items H64CLASS_HASH_SIZE uri_Normalize pr expr ast o
  = Ret (early, pr', o') ->
  links_built pr -> links_built pr'.
Proof.
  unfold storage_global_items. intros H H0.
  steps; eauto 8 with links_built.
Qed.

#[local] Hint Resolve links_built_extract_main_func
  links_built_storage_global_items : links_built.

Section WithSelfLinks.

Variable self : ComputeItemStorage_t.
Hypothesis links_built_self : forall pr expr ast extract_main o r oom pr' o',
  self pr expr ast extract_main o = Ret (r, oom, pr', o') ->
  links_built pr -> links_built pr'.

Lemma links_built_owningclass_storage pr ast oc extract_main o r oom pr' o' :
  owningclass_storage self pr ast oc extract_main o = Ret (r, oom, pr', o') ->
  links_built pr -> links_built pr'.
Proof.
  unfold owningclass_storage. intros H H0.
  steps; eauto 8 with links_built.
Qed.

#[local] Hint Resolve links_built_owningclass_storage : links_built.

Lemma links_built_storage_class_members
    pr expr ast extract_main o early pr' o' :
  storage_class_members H64CLASS_HASH_SIZE H64CLASS_MAX_METHODS
    uri_Normalize indeterminate self pr expr ast extract_main o
  = Ret (early, pr', o') ->
  links_built pr -> links_built pr'.
Proof.
  unfold storage_class_members. intros H H0.
  steps; eauto 8 with links_built.
Qed.

Lemma links_built_storage_functions pr expr ast extract_main o r oom pr' o' :
  storage_functions_ self pr expr ast extract_main o
  = Ret (r, oom, pr', o') ->
  links_built pr -> links_built pr'.
Proof.
  unfold storage_functions. intros H H0.
  steps; eauto 10 with links_built.
Qed.

Lemma links_built_ComputeItemStorage_body
    pr expr ast extract_main o r oom pr' o' :
  ComputeItemStorage_body H64CLASS_HASH_SIZE H64CLASS_MAX_METHODS
    uri_Normalize indeterminate self pr expr ast extract_main o
  = Ret (r, oom, pr', o') ->
  links_built pr -> links_built pr'.
Proof.
  unfold ComputeItemStorage_body. intros H H0.
  pose proof links_built_storage_class_members.
  pose proof links_built_storage_functions.
  steps; eauto 8 with links_built.
Qed.

End WithSelfLinks.

Lemma links_built_ComputeItemStorage depth :
  forall pr expr ast extract_main o r oom pr' o',
    ComputeItemStorage depth pr expr ast extract_main o
    = Ret (r, oom, pr', o') ->
    links_built pr -> links_built pr'.
Proof.
  induction depth as [|depth IH];
    intros pr expr ast extract_main o r oom pr' o' H H0.
  - discriminate H.
  - cbn [scoperesolver_ComputeItemStorage] in H.
    eapply links_built_ComputeItemStorage_body; eassumption.
Qed.

#[local] Hint Resolve links_built_ComputeItemStorage : links_built.

Lemma links_built_visit_out pr expr ast rinfo o r oom pr' o' :
  _resolvercallback_BuildGlobalStorage_visit_out H64CLASS_HASH_SIZE
    H64CLASS_MAX_METHODS uri_Normalize indeterminate
    ast_ExpressionToJSONStr ast_ExpressionTypeToStr pr expr ast rinfo o
  = Ret (r, oom, pr', o') ->
  links_built pr -> links_built pr'.
Proof.
  unfold _resolvercallback_BuildGlobalStorage_visit_out. intros H H0.
  steps; eauto 8 with links_built.
Qed.

#[local] Hint Resolve links_built_visit_out : links_built.

Lemma links_built_asttransform_visit exprs : forall pr ast rinfo o r pr' o',
  asttransform_visit
    (_resolvercallback_BuildGlobalStorage_visit_out H64CLASS_HASH_SIZE
       H64CLASS_MAX_METHODS uri_Normalize indeterminate
       ast_ExpressionToJSONStr ast_ExpressionTypeToStr)
    exprs pr ast rinfo o = Ret (r, pr', o') ->
  links_built pr -> links_built pr'.
Proof.
  induction exprs as [|expr exprs IH]; intros pr ast rinfo o r pr' o' H H0;
    simpl in H.
  - inversion H; subst. assumption.
  - steps; eauto 8 with links_built.
Qed.

Lemma links_built_asttransform_Apply pr ast rinfo o r pr' o' :
  asttransform_Apply
    (_resolvercallback_BuildGlobalStorage_visit_out H64CLASS_HASH_SIZE
       H64CLASS_MAX_METHODS uri_Normalize indeterminate
       ast_ExpressionToJSONStr ast_ExpressionTypeToStr)
    pr ast rinfo o = Ret (r, pr', o') ->
  links_built pr -> links_built pr'.
Proof.
  unfold asttransform_Apply. intros H H0.
  destruct (asts pr !! ast); [|discriminate].
  eapply links_built_asttransform_visit; eassumption.
Qed.

Lemma links_built_GetAST pr path got error pr' :
  compileproject_GetAST pr path = (got, error, pr') ->
  links_built pr -> links_built pr'.
Proof. intros H. eapply loader. exact H. Qed.

Lemma built_at_GetAST pr path ra error pr' :
  compileproject_GetAST pr path = (Some ra, error, pr') -> built_at pr' ra.
Proof. intros H. eapply loader; [exact H | reflexivity]. Qed.

(** The AST that an import statement is made to reference is the one the
    loader has handed out. *)
Ltac import_loaded :=
  let Hra := fresh "Hra" in
  intros _ ? Hra; cbn in Hra;
  first [ discriminate Hra
        | inversion Hra; subst; eapply built_at_GetAST; eassumption ].

#[local] Hint Resolve links_built_GetAST : links_built.

#[local] Hint Extern 1 (links_built
                          (store_expr _ _ _ (set_referenced_ast _ _))) =>
  apply links_built_store_expr; [solve [import_loaded] |] : links_built.

Lemma links_built_load_imports defs : forall pr ast o early pr' o',
  load_imports compileproject_ResolveImport compileproject_GetAST defs pr
    ast o = Ret (early, pr', o') ->
  links_built pr -> links_built pr'.
Proof.
  induction defs as [|expr defs IH]; intros pr ast o early pr' o' H H0;
    simpl in H.
  - inversion H; subst. assumption.
  - steps; eauto 12 with links_built.
Qed.

Lemma links_built_recurse_imports (self : BuildASTGlobalStorage_t) defs :
  (forall pr ra recursive rinfo o r pr' o' calls,
     self pr ra recursive rinfo o = Ret (r, pr', o', calls) ->
     links_built pr -> links_built pr') ->
  forall pr ast rinfo o calls0 early pr' o' calls,
    recurse_imports self defs pr ast rinfo o calls0
    = Ret (early, pr', o', calls) ->
    links_built pr -> links_built pr'.
Proof.
  intros Hself.
  induction defs as [|expr defs IH];
    intros pr ast rinfo o calls0 early pr' o' calls H H0; simpl in H.
  - inversion H; subst. assumption.
  - destruct (asts pr !! ast) as [a|]; [|discriminate].
    destruct (nodes a !! expr) as [e|]; [|discriminate].
    destruct (negb (bool_decide (etype e = H64EXPRTYPE_IMPORT_STMT)));
      [eapply IH; eassumption|].
    destruct (importstmt_referenced_ast e) as [ra|];
      [|eapply IH; eassumption].
    bind_inv H. destruct a0 as [[[r1 pr1] o1] made1].
    apply Hself in Hm; [|assumption].
    cbv beta iota zeta in H.
    destruct (r1 =? 0); [inversion H; subst; assumption|].
    destruct (asts pr1 !! ra) as [imported|]; [|discriminate].
    destruct (result_TransferMessages _ _ _) as [[transferred res] o2].
    destruct (negb transferred); [inversion H; subst; exact Hm|].
    apply IH in H; [assumption | exact Hm].
Qed.

(** A call leaves every import statement of the project with a
    reference to an AST whose global storage is built. *)
Lemma BuildASTGlobalStorage_links_built depth :
  forall pr ast recursive rinfo o r pr' o' calls,
    BuildASTGlobalStorage depth pr ast recursive rinfo o
    = Ret (r, pr', o', calls) ->
    links_built pr -> links_built pr'.
Proof.
  induction depth as [|depth IH];
    intros pr ast recursive rinfo o r pr' o' calls H H0; [discriminate|].
  apply BuildASTGlobalStorage_inv in H. cbv zeta in H.
  destruct H as (a0 & Ha0 & [(_ & _ & -> & _) | (_ & H)]); [assumption|].
  set (marked := store_ast pr ast (set_global_storage_built a0 true)) in H.
  assert (links_built marked) as Hmarked.
  { eapply links_built_store_ast_same; [exact Ha0 | | | exact H0];
      reflexivity. }
  destruct H as [(o1 & Hassign & _) | (o1 & pr1 & o2 & Hassign & H)];
    [eapply links_built_assign_module_path; eassumption|].
  apply links_built_assign_module_path in Hassign; [|assumption].
  destruct H as [(defs & Hload & _)
                | (defs & pr2 & o3 & r3 & pr3 & o4 & Hload & Happly & H)];
    [eapply links_built_load_imports; eassumption|].
  apply links_built_load_imports in Hload; [|assumption].
  apply links_built_asttransform_Apply in Happly; [|assumption].
  destruct H as [(_ & _ & -> & _) | [(_ & _ & _ & -> & _) | H]];
    [assumption | assumption |].
  destruct H as (_ & _ & a3 & early & _ & Hloop & _).
  eapply links_built_recurse_imports; [|exact Hloop | exact Happly].
  intros. eapply IH; eassumption.
Qed.






End WithLoader.

End ResolverProperties.

(** ** The statements on the example data *)

Section StackInstances.
Import Values Stack StackExamples.

(** The stack with 7 and 9 written goes through the sizes 5, 8, 3 and 1:
    the slot 0 holds 7 as before, and the capacity ends at 5, below
    8 + 4 + 2 + 1. *)
Lemma stack_ToSize_up_and_down :
  stack_ToSize_seq overshoot maxovershoot emergency_margin stale_cell
    two_written up_and_down up_and_down_oracle
  = Ret (after_up_and_down, []) /\
  keeps_below (foldr Z.min (entry_count two_written) (map fst up_and_down))
    two_written after_up_and_down /\
  alloc_count after_up_and_down
  <= foldr Z.max (entry_count two_written) (map fst up_and_down)
     + overshoot + emergency_margin + 1.
Proof.
  assert (stack_ToSize_seq overshoot maxovershoot emergency_margin stale_cell
            two_written up_and_down up_and_down_oracle
          = Ret (after_up_and_down, [])) as Hrun
    by (vm_compute; reflexivity).
  split; [exact Hrun|].
  apply (stack_ToSize_sequence_keeps_slots_and_bounds_capacity
           overshoot maxovershoot emergency_margin stale_cell
           ltac:(unfold overshoot; lia) ltac:(unfold emergency_margin; lia)
           two_written up_and_down up_and_down_oracle after_up_and_down []).
  - unfold stack_wf. simpl. lia.
  - simpl. unfold overshoot, emergency_margin. lia.
  - reflexivity.
  - exact Hrun.
Defined.

End StackInstances.

Section BytecodeInstances.
Import DebugSymbols Bytecode BytecodeExamples.

(** The class "A" of the example, after the seven registrations, one of
    which fails for lack of memory and one for the name being there. *)
Lemma class_A_buckets_stay_terminated :
  with_class_A = Ret (0, class_A_program, []) /\
  exists p2 o3 cls hashmap,
    RegisterClassMemberEx_seq hash_size max_methods stale_record
      class_A_program 0 member_calls member_calls_oracle = Ret (p2, o3) /\
    classes p2 !! Z.to_nat 0 = Some cls /\
    global_name_to_member_hashmap cls = Some hashmap /\
    Z.of_nat (length hashmap) = hash_size /\
    Forall bucket_ok hashmap.
Proof.
  assert (with_class_A = Ret (0, class_A_program, [])) as Hadd
    by (vm_compute; reflexivity).
  split; [exact Hadd|].
  apply (class_member_buckets_stay_terminated hash_size max_methods
           with_scheme stale_record zeroed_program "A" None None None []
           0 class_A_program [] member_calls member_calls_oracle).
  - unfold hash_size. lia.
  - exact Hadd.
  - lia.
Defined.

(** The method "run" of the class "A", registered with the function
    index 0. *)
Lemma method_run_is_looked_up_as_variable :
  with_method_run = Ret (1, returned_program with_method_run, []) /\
  exists sym' nid var_id,
    symbols (returned_program with_method_run) = Some sym' /\
    member_name_to_member_name_id sym' !! "run"%string = Some nid /\
    0 <= var_id /\
    h64program_LookupClassMember hash_size max_methods
      (returned_program with_method_run) 0 nid = Ret (var_id, -1).
Proof.
  assert (with_method_run = Ret (1, returned_program with_method_run, []))
    as Hreg by (vm_compute; reflexivity).
  split; [exact Hreg|].
  apply (method_with_func_idx_zero_is_looked_up_as_variable hash_size
           max_methods stale_record class_A_program 0 "run" []
           (returned_program with_method_run) []).
  exact Hreg.
Defined.

(** The lookup of the name "nosuch", which no program has interned, on
    the class "A". *)
Lemma lookup_of_nosuch_reads_bucket_minus_one :
  h64program_LookupClassMemberByname hash_size max_methods class_A_program
    0 "nosuch" (5, 5)
  = h64program_LookupClassMember hash_size max_methods class_A_program 0
      (-1) /\
  h64program_LookupClassMemberByname hash_size max_methods class_A_program
    0 "nosuch" (5, 5) = Fault.
Proof.
  apply (lookup_by_unknown_name_reads_bucket_minus_one hash_size max_methods
           class_A_program
           (default h64debugsymbols_New (symbols class_A_program))
           0 "nosuch" (5, 5)).
  - unfold hash_size. lia.
  - vm_compute. reflexivity.
  - vm_compute. reflexivity.
Defined.

(** The file main.h64, given once without and once with its scheme. *)
Lemma fileuriindex_of_main_h64_twice :
  with_scheme "main.h64" = Some "file://main.h64"%string /\
  with_scheme "file://main.h64" = Some "file://main.h64"%string /\
  exists p1 p2 sym2,
    bytecode_fileuriindex with_scheme zeroed_program "main.h64"
      [true; true] = Ret (fileuri_count h64debugsymbols_New, p1, [true]) /\
    bytecode_fileuriindex with_scheme p1 "file://main.h64" [true]
    = Ret (fileuri_count h64debugsymbols_New + 1, p2, []) /\
    symbols p2 = Some sym2 /\
    fileuri sym2
    = fileuri h64debugsymbols_New
      ++ ["file://main.h64"%string; "file://main.h64"%string].
Proof.
  split; [reflexivity|]. split; [reflexivity|].
  apply (fileuriindex_of_one_uri_twice with_scheme zeroed_program
           h64debugsymbols_New "main.h64" "file://main.h64"
           "file://main.h64" []); reflexivity.
Defined.

(** The global "count" of the file main.h64, when the symbols of the
    module cannot be reallocated. *)
Lemma AddGlobalvar_failure_on_zeroed_program :
  exists p',
    h64program_AddGlobalvar with_scheme zeroed_program "count" 0
      (Some "main.h64"%string) None None [true; true; false]
    = Ret (-1, p', []) /\
    symbols p'
    = Some (set_fileuri h64debugsymbols_New
              (fileuri h64debugsymbols_New ++ ["file://main.h64"%string])) /\
    observable_state p' <> observable_state zeroed_program.
Proof.
  apply (AddGlobalvar_failure_leaves_file_uri with_scheme zeroed_program
           h64debugsymbols_New "count" 0 "main.h64" "file://main.h64" []);
    reflexivity.
Defined.

End BytecodeInstances.

Section VMInstances.
Import Values Stack Bytecode VMExec VMExamples.

(** The function that sets the slot 1 to "hello", run on a thread with
    three empty slots and an empty heap. *)
Lemma setconst_hello_allocates_in_no_pool :
  vmthread_RunFunction (Some hello_thread) hello_program 0 true [] = Fault.
Proof.
  apply (setconst_preallocstr_allocates_in_no_pool hello_thread hello_program
           0 hello_func setconst_hello [Iother H64INST_RETURNVALUE]
           empty_slots zero_valuecontent []).
  - lia.
  - reflexivity.
  - reflexivity.
  - reflexivity.
  - vm_compute. discriminate.
  - reflexivity.
  - reflexivity.
Defined.

End VMInstances.

Section ResolverInstances.
Import Scoperesolver ResolverExamples.

(** The file with two functions named main: the first gets the id 0 and
    is the main function; after the second the main function is still 0
    and the result of the file holds the error. *)
Lemma two_mains_keep_first_and_are_reported :
  exists first a1 f1 a2,
    0 <= first /\
    asts (stored first_main) !! 0%nat = Some a1 /\
    nodes a1 !! 0%nat = Some f1 /\
    funcdef_bytecode_func_id f1 = first /\
    Bytecode.main_func_index (program (stored first_main)) = first /\
    Bytecode.main_func_index (program (stored second_main)) = first /\
    asts (stored second_main) !! 0%nat = Some a2 /\
    success (resultmsg a2) = false /\
    has_error_with "duplicate main func found" (resultmsg a2).
Proof.
  apply (duplicate_main_keeps_first_and_is_reported
           BytecodeExamples.hash_size BytecodeExamples.max_methods
           BytecodeExamples.with_scheme BytecodeExamples.stale_record
           1 two_mains 0%nat
           (file "main.h64" "main" [funcdef "main" 1; funcdef "main" 5])
           0%nat 1%nat (funcdef "main" 1) (funcdef "main" 5)
           [] false (stored first_main) [] false (stored second_main) []).
  - reflexivity.
  - reflexivity.
  - reflexivity.
  - discriminate.
  - unfold global_main_funcdef. simpl. auto.
  - unfold global_main_funcdef. simpl. auto.
  - simpl. lia.
  - vm_compute. reflexivity.
  - vm_compute. reflexivity.
Defined.

(** The loader of the examples resolves the ASTs it hands out. *)
Lemma get_ast_resolves (fuel : nat) : loader_resolves (get_ast fuel).
Proof.
  induction fuel as [|fuel IH]; intros pr path got error pr' H.
  - inversion H; subst.
    split; [reflexivity|]. split; [apply keeps_built_refl|].
    split; [auto | discriminate].
  - cbn [get_ast] in H.
    destruct path as [uri|];
      [|inversion H; subst; split; [reflexivity|];
        split; [apply keeps_built_refl|]; split; [auto | discriminate]].
    destruct (find_file uri (asts pr) 0) as [i|];
      [|inversion H; subst; split; [reflexivity|];
        split; [apply keeps_built_refl|]; split; [auto | discriminate]].
    destruct (scoperesolver_BuildASTGlobalStorage _ _ _ _ _ _ _ _ _ _ _ _ _ _
                _ _ _) as [[[[r pr1] o1] calls]| |] eqn:E;
      [|inversion H; subst; split; [reflexivity|];
        split; [apply keeps_built_refl|]; split; [auto | discriminate]..].
    assert (keeps_main pr pr1) as Hmain.
    { eapply BuildASTGlobalStorage_keeps_main; [exact IH | | exact E].
      reflexivity. }
    destruct (BuildASTGlobalStorage_keeps_built _ _ _ _ _ _ _ _ _ _ _ IH
                _ _ _ _ _ _ _ _ _ _ E) as (Hkeep & Hbuilt).
    assert (links_built pr -> links_built pr1) as Hlinks.
    { eapply BuildASTGlobalStorage_links_built; [exact IH | exact E]. }
    destruct (r =? 0); inversion H; subst;
      (split; [exact Hmain|]; split; [exact Hkeep|];
       split; [exact Hlinks|]).
    + discriminate.
    + intros ra Hra. inversion Hra; subst. exact Hbuilt.
Qed.



(** What the call on a.h64 gives: it succeeds with the two calls, the one
    on a.h64 and the one on b.h64; the import statements of a.h64 and of
    b.h64 reference b.h64 and c.h64; the global storage of both is built;
    and the main function is the one of a.h64. *)
Lemma chain_built_by_call_and_loader :
  built_result chain_built = Some 1 /\
  calls_of chain_built
  = [ {| inv_ast := 0; inv_recursive := true; inv_extract_main := true |};
      import_call 1 ] /\
  imported_by (built chain_built) 0 = [1%nat] /\
  imported_by (built chain_built) 1 = [2%nat] /\
  storage_built (built chain_built) 1 = Some true /\
  storage_built (built chain_built) 2 = Some true.
Proof. vm_compute. repeat split; reflexivity. Qed.

End ResolverInstances.

(** * Further properties of the code *)

(** ** unicode.c: the decoder on plain ASCII text *)

Section UnicodeFurther.
Import Unicode.

Lemma ascii_is_no_utf8_start (b : Z) :
  0 <= b <= 127 -> is_utf8_start b = false.
Proof.
  intros Hb.
  assert (forallb (fun n : nat => negb (is_utf8_start (Z.of_nat n)))
            (seq 0 128) = true) as Hall by (vm_compute; reflexivity).
  rewrite forallb_forall in Hall.
  specialize (Hall (Z.to_nat b)). rewrite Z2Nat.id in Hall by lia.
  apply negb_true_iff, Hall, in_seq. lia.
Qed.

Lemma get_utf8_codepoint_ascii (b : Z) (rest : list Z) :
  0 <= b <= 127 ->
  get_utf8_codepoint (b :: rest) (Z.of_nat (length (b :: rest)))
  = Some (b, 1).
Proof.
  intros Hb. unfold get_utf8_codepoint.
  rewrite (proj2 (Z.ltb_ge _ _)) by (cbn [length]; lia).
  change (byte_at (b :: rest) 0) with b.
  rewrite ascii_is_no_utf8_start by assumption. cbn [negb].
  rewrite (proj2 (Z.ltb_ge _ _)) by lia. reflexivity.
Qed.

(** On ASCII text every byte gives a code point of its own. *)
Lemma utf8_to_utf32_loop_ascii (input : list Z) :
  Forall (fun b => 0 <= b <= 127) input ->
  forall (fuel : nat) (surrogatereplaceinvalid : bool) (acc : list Z),
    (length input <= fuel)%nat ->
    utf8_to_utf32_loop fuel input surrogatereplaceinvalid acc
    = Some (acc ++ input).
Proof.
  induction 1 as [|b rest Hb _ IH]; intros fuel s acc Hfuel.
  - destruct fuel; cbn [utf8_to_utf32_loop]; rewrite app_nil_r; reflexivity.
  - destruct fuel as [|fuel]; [cbn [length] in Hfuel; lia|].
    cbn [utf8_to_utf32_loop].
    rewrite get_utf8_codepoint_ascii by assumption.
    change (drop (Z.to_nat 1) (b :: rest)) with rest.
    rewrite IH by (cbn [length] in Hfuel; lia).
    rewrite <- app_assoc. reflexivity.
Qed.

(** The decoder on ASCII text of fewer than 512 bytes, the empty text
    among them: [temp_buf] has room for as many code points as the text
    has bytes, the text gives that many, and the write of the final zero
    at [temp_buf[k * sizeof(unicodechar)]] passes the end of the
    buffer. *)
Theorem utf8_to_utf32_of_ascii_overruns_temp_buf
    (input : list Z) (o : alloc_oracle) (surrogatereplaceinvalid : bool) :
  Forall (fun b => 0 <= b <= 127) input ->
  (length input < 512)%nat ->
  utf8_to_utf32_ex input o surrogatereplaceinvalid = (BufferOverrun, o).
Proof.
  intros Hascii Hlen. unfold utf8_to_utf32_ex. cbv zeta.
  rewrite (proj2 (Z.ltb_lt _ _)) by lia. cbn [negb].
  rewrite (utf8_to_utf32_loop_ascii input Hascii) by lia.
  rewrite app_nil_l, Z.leb_refl. reflexivity.
Qed.

End UnicodeFurther.

(** ** stack.c: the last cell of the allocation, and the hysteresis of
    the shrinking *)

Section StackFurther.
Import Values Stack.

Variables ALLOC_OVERSHOOT ALLOC_MAXOVERSHOOT ALLOC_EMERGENCY_MARGIN : Z.
Variable indeterminate : valuecontent.

(** A stack cannot be sized to its whole allocation, not even with the
    use of the emergency margin: nothing is reallocated, and the
    [assert(st->alloc_count > total_entries)] stops the process. *)
Theorem stack_ToSize_to_whole_allocation_aborts
    (st : h64stack) (o : alloc_oracle) :
  stack_wf st ->
  stack_ToSize ALLOC_OVERSHOOT ALLOC_MAXOVERSHOOT ALLOC_EMERGENCY_MARGIN
    indeterminate st (alloc_count st) true o
  = AssertFail.
Proof.
  intros (Hc & Hca & Hlen). unfold stack_ToSize.
  rewrite (proj2 (Z.leb_le 0 (alloc_count st))) by lia.
  unfold mbind, outcome_bind. cbn [assert obind].
  rewrite (proj2 (Z.ltb_ge _ _)) by lia.
  rewrite (proj2 (Z.ltb_ge _ _)) by lia.
  rewrite Z.gtb_ltb, Z.ltb_irrefl. reflexivity.
Qed.

(** The test before the reallocation in [stack_Shrink] adds
    [ALLOC_MAXOVERSHOOT] on the side of the allocation, so it holds for
    every stack: a shrink reallocates whenever the allocator lets it, down
    to the new size with [ALLOC_OVERSHOOT], whatever room was left
    before. *)
Theorem stack_Shrink_reallocates_each_time
    (st : h64stack) (total : Z) (o : alloc_oracle) :
  0 < ALLOC_MAXOVERSHOOT ->
  stack_wf st -> no_preallocstr st -> 0 <= total <= entry_count st ->
  exists st',
    stack_Shrink ALLOC_OVERSHOOT ALLOC_MAXOVERSHOOT indeterminate st total
      (true :: o) = Ret (st', o) /\
    entry_count st' = total /\
    alloc_count st' = total + ALLOC_OVERSHOOT /\
    entry st' = realloc_entries indeterminate (entry st)
                  (total + ALLOC_OVERSHOOT).
Proof.
  intros Hmax Hwf Hno Ht. pose proof Hwf as (Hc & Hca & Hlen).
  unfold stack_Shrink.
  rewrite stack_Shrink_loop_returns by (assumption || lia).
  replace (entry_count st - Z.of_nat (Z.to_nat (entry_count st - total)))
    with total by lia.
  unfold mbind, outcome_bind. cbn [obind entry_count alloc_count].
  rewrite (proj2 (Z.gtb_lt _ _)) by lia.
  cbn [alloc_request negb entry current_func_floor].
  eexists. split; [reflexivity|]. cbn [entry_count alloc_count entry]. auto.
Qed.

End StackFurther.

(** ** bytecode.c: a registered member is found again *)

Section BytecodeFurther.
Import DebugSymbols Bytecode.

Variables H64CLASS_HASH_SIZE H64CLASS_MAX_METHODS : Z.
Variable indeterminate : h64classmemberinfo.


End BytecodeFurther.

(** ** compiler/scoperesolver.c: what a call of the resolver leaves *)

Section ResolverFurther.
Import Scoperesolver.

Variables H64CLASS_HASH_SIZE H64CLASS_MAX_METHODS : Z.
Variable uri_Normalize : string -> option string.
Variable indeterminate : Bytecode.h64classmemberinfo.
Variable ast_ExpressionToJSONStr : h64expression -> string -> string.
Variable ast_ExpressionTypeToStr : h64expressiontype -> string.
Variable compileproject_GetFileSubProjectPath :
  h64compileproject -> string -> option (string * option string) * bool.
Variable compileproject_URIRelPath :
  string -> string -> option string * bool.
Variable filesys_Normalize : string -> option string.
Variable compileproject_ResolveImport :
  h64compileproject -> string -> list string -> option string ->
  option string * bool.
Variable compileproject_GetAST :
  h64compileproject -> option string ->
  option nat * string * h64compileproject.

Local Abbreviation ComputeItemStorage :=
  (scoperesolver_ComputeItemStorage H64CLASS_HASH_SIZE H64CLASS_MAX_METHODS
     uri_Normalize indeterminate).
Local Abbreviation BuildASTGlobalStorage_body_ :=
  (BuildASTGlobalStorage_body H64CLASS_HASH_SIZE
     H64CLASS_MAX_METHODS uri_Normalize indeterminate
     ast_ExpressionToJSONStr ast_ExpressionTypeToStr
     compileproject_GetFileSubProjectPath compileproject_URIRelPath
     filesys_Normalize compileproject_ResolveImport compileproject_GetAST).
Local Abbreviation BuildASTGlobalStorage :=
  (scoperesolver_BuildASTGlobalStorage H64CLASS_HASH_SIZE
     H64CLASS_MAX_METHODS uri_Normalize indeterminate
     ast_ExpressionToJSONStr ast_ExpressionTypeToStr
     compileproject_GetFileSubProjectPath compileproject_URIRelPath
     filesys_Normalize compileproject_ResolveImport compileproject_GetAST).

(** The loop over the imports makes calls that are not recursive only. *)
Lemma recurse_imports_ext (self1 self2 : BuildASTGlobalStorage_t) defs :
  (forall pr ra rinfo o,
     self1 pr ra false rinfo o = self2 pr ra false rinfo o) ->
  forall pr ast rinfo o calls,
    recurse_imports self1 defs pr ast rinfo o calls
    = recurse_imports self2 defs pr ast rinfo o calls.
Proof.
  intros Hext.
  induction defs as [|expr defs IH]; intros pr ast rinfo o calls;
    [reflexivity|].
  cbn [recurse_imports].
  destruct (asts pr !! ast) as [a|]; [|reflexivity].
  destruct (nodes a !! expr) as [e|]; [|reflexivity].
  destruct (negb (bool_decide (etype e = H64EXPRTYPE_IMPORT_STMT)));
    [apply IH|].
  destruct (importstmt_referenced_ast e) as [ra|]; [|apply IH].
  rewrite Hext. unfold mbind, outcome_bind, obind.
  destruct (self2 pr ra false _ o) as [[[[r pr1] o1] made]| |];
    [|reflexivity..].
  destruct (r =? 0); [reflexivity|].
  destruct (asts pr1 !! ra) as [imported|]; [|reflexivity].
  destruct (result_TransferMessages _ _ _) as [[transferred res] o2].
  destruct (negb transferred); [reflexivity | apply IH].
Qed.

(** A call that is not recursive makes no call. *)
Lemma BuildASTGlobalStorage_body_not_recursive
    (self1 self2 : BuildASTGlobalStorage_t) pr ast rinfo o :
  BuildASTGlobalStorage_body_ self1 pr ast false rinfo o
  = BuildASTGlobalStorage_body_ self2 pr ast false rinfo o.
Proof. reflexivity. Qed.

Lemma BuildASTGlobalStorage_body_ext
    (self1 self2 : BuildASTGlobalStorage_t) :
  (forall pr ra rinfo o,
     self1 pr ra false rinfo o = self2 pr ra false rinfo o) ->
  forall pr ast recursive rinfo o,
    BuildASTGlobalStorage_body_ self1 pr ast recursive rinfo o
    = BuildASTGlobalStorage_body_ self2 pr ast recursive rinfo o.
Proof.
  intros Hext pr ast recursive rinfo o.
  destruct recursive; [|apply BuildASTGlobalStorage_body_not_recursive].
  unfold BuildASTGlobalStorage_body, mbind, outcome_bind, obind.
  destruct (asts pr !! ast) as [a0|]; [|reflexivity].
  destruct (global_storage_built a0); [reflexivity|].
  destruct (assign_module_path _ _ _ _ _ _) as [[[early1 pr1] o1]| |];
    [|reflexivity..].
  destruct early1 as [r1|]; [reflexivity|].
  destruct (load_imports _ _ _ _ _ _) as [[[early2 pr2] o2]| |];
    [|reflexivity..].
  destruct early2 as [r2|]; [reflexivity|].
  destruct (asttransform_Apply _ _ _ _ _) as [[[r3 pr3] o3]| |];
    [|reflexivity..].
  destruct (r3 =? 0); [reflexivity|].
  destruct (asts pr3 !! ast) as [a3|]; [|reflexivity].
  rewrite (recurse_imports_ext self1 self2 _ Hext). reflexivity.
Qed.

(** The calls nest one level deep at most: the calls that a call makes
    for the imports make no call themselves, so the bound on the nesting
    plays no part from 2 on. *)
Theorem BuildASTGlobalStorage_nests_one_level
    (depth : nat) (pr : h64compileproject) (ast : nat) (recursive : bool)
    (rinfo : resolveinfo) (o : alloc_oracle) :
  BuildASTGlobalStorage (S (S depth)) pr ast recursive rinfo o
  = BuildASTGlobalStorage 2 pr ast recursive rinfo o.
Proof.
  cbn [scoperesolver_BuildASTGlobalStorage].
  apply BuildASTGlobalStorage_body_ext.
  intros pr1 ra rinfo1 o1. destruct depth as [|depth].
  - reflexivity.
  - cbn [scoperesolver_BuildASTGlobalStorage].
    apply BuildASTGlobalStorage_body_not_recursive.
Qed.

(** The walk up the parents ends on a class definition, when it ends on
    an expression. *)
Lemma find_owningclass_classdef fuel l : forall start oc,
  find_owningclass fuel l start = Ret (Some oc) ->
  exists e, l !! oc = Some e /\ etype e = H64EXPRTYPE_CLASSDEF_STMT.
Proof.
  induction fuel as [|fuel IH]; intros start oc H;
    destruct start as [id|]; cbn [find_owningclass] in H;
    try discriminate H.
  destruct (l !! id) as [e|] eqn:He; [|discriminate].
  destruct (bool_decide (etype e = H64EXPRTYPE_CLASSDEF_STMT)) eqn:Hty.
  - inversion H; subst. apply bool_decide_eq_true in Hty. eauto.
  - destruct (_ || _); [discriminate|]. eapply IH; eassumption.
Qed.

(** On a class definition the function returns out of its first block:
    it does not call itself. *)
Lemma ComputeItemStorage_body_classdef
    (self1 self2 : ComputeItemStorage_t) pr oc ast a e extract_main o :
  asts pr !! ast = Some a -> nodes a !! oc = Some e ->
  etype e = H64EXPRTYPE_CLASSDEF_STMT ->
  ComputeItemStorage_body H64CLASS_HASH_SIZE H64CLASS_MAX_METHODS
    uri_Normalize indeterminate self1 pr oc ast extract_main o
  = ComputeItemStorage_body H64CLASS_HASH_SIZE H64CLASS_MAX_METHODS
      uri_Normalize indeterminate self2 pr oc ast extract_main o.
Proof.
  intros Ha He Hty.
  unfold ComputeItemStorage_body, storage_global_items.
  rewrite Ha, He, Hty. unfold mbind, outcome_bind, obind.
  destruct (assert _); [|reflexivity..].
  destruct (scope_is_global e) as [is_global|]; [|reflexivity].
  rewrite orb_true_r. destruct (set (storage e)); [reflexivity|].
  cbn [bool_decide decide_rel].
  rewrite (bool_decide_eq_false_2
             (H64EXPRTYPE_CLASSDEF_STMT = H64EXPRTYPE_VARDEF_STMT))
    by discriminate.
  rewrite (bool_decide_eq_true_2
             (H64EXPRTYPE_CLASSDEF_STMT = H64EXPRTYPE_CLASSDEF_STMT))
    by reflexivity.
  destruct (Bytecode.h64program_AddClass _ _ _ _ _ _ _ _)
    as [[[global_id p] o1]| |]; [|reflexivity..].
  destruct (global_id <? 0); reflexivity.
Qed.

Section WithSelves.

Variables self1 self2 : ComputeItemStorage_t.
Hypothesis selves_on_classdef : forall pr oc ast a e extract_main o,
  asts pr !! ast = Some a -> nodes a !! oc = Some e ->
  etype e = H64EXPRTYPE_CLASSDEF_STMT ->
  self1 pr oc ast extract_main o = self2 pr oc ast extract_main o.

Lemma owningclass_storage_ext pr ast a start oc extract_main o :
  asts pr !! ast = Some a ->
  find_owningclass (length (nodes a)) (nodes a) start = Ret (Some oc) ->
  owningclass_storage self1 pr ast oc extract_main o
  = owningclass_storage self2 pr ast oc extract_main o.
Proof.
  intros Ha Hfind. apply find_owningclass_classdef in Hfind.
  destruct Hfind as (oce & Hoce & Hty).
  unfold owningclass_storage. rewrite Ha, Hoce.
  destruct (negb (set (storage oce))); [|reflexivity].
  eapply selves_on_classdef; eassumption.
Qed.

Lemma storage_class_members_ext pr expr ast extract_main o :
  storage_class_members H64CLASS_HASH_SIZE H64CLASS_MAX_METHODS
    uri_Normalize indeterminate self1 pr expr ast extract_main o
  = storage_class_members H64CLASS_HASH_SIZE H64CLASS_MAX_METHODS
      uri_Normalize indeterminate self2 pr expr ast extract_main o.
Proof.
  unfold storage_class_members.
  destruct (asts pr !! ast) as [a|] eqn:Ha; [|reflexivity].
  destruct (nodes a !! expr) as [e|]; [|reflexivity].
  destruct (scope_is_global e) as [is_global|]; [|reflexivity].
  destruct (_ && _); [|reflexivity].
  unfold mbind, outcome_bind, obind.
  destruct (find_owningclass _ _ _) as [[oc|]| |] eqn:Hfind;
    [|reflexivity..].
  rewrite (owningclass_storage_ext pr ast a _ oc extract_main o Ha Hfind).
  reflexivity.
Qed.

Lemma storage_functions_ext pr expr ast extract_main o :
  storage_functions H64CLASS_HASH_SIZE H64CLASS_MAX_METHODS uri_Normalize
    indeterminate self1 pr expr ast extract_main o
  = storage_functions H64CLASS_HASH_SIZE H64CLASS_MAX_METHODS uri_Normalize
      indeterminate self2 pr expr ast extract_main o.
Proof.
  unfold storage_functions.
  destruct (asts pr !! ast) as [a|] eqn:Ha; [|reflexivity].
  destruct (nodes a !! expr) as [e|]; [|reflexivity].
  destruct (scope_is_global e) as [is_global|]; [|reflexivity].
  destruct (_ || _); [|reflexivity].
  unfold mbind, outcome_bind, obind.
  destruct (find_owningclass _ _ _) as [[oc|]| |] eqn:Hfind;
    [|reflexivity..].
  rewrite (owningclass_storage_ext pr ast a _ oc extract_main o Ha Hfind).
  reflexivity.
Qed.

Lemma ComputeItemStorage_body_ext pr expr ast extract_main o :
  ComputeItemStorage_body H64CLASS_HASH_SIZE H64CLASS_MAX_METHODS
    uri_Normalize indeterminate self1 pr expr ast extract_main o
  = ComputeItemStorage_body H64CLASS_HASH_SIZE H64CLASS_MAX_METHODS
      uri_Normalize indeterminate self2 pr expr ast extract_main o.
Proof.
  unfold ComputeItemStorage_body, mbind, outcome_bind, obind.
  destruct (storage_global_items _ _ _ _ _ _) as [[[returned pr1] o1]| |];
    [|reflexivity..].
  destruct returned as [[r oom]|]; [reflexivity|].
  rewrite storage_class_members_ext.
  destruct (storage_class_members _ _ _ _ _ _ _ _ _ _)
    as [[[returned pr2] o2]| |]; [|reflexivity..].
  destruct returned as [[r oom]|]; [reflexivity|].
  apply storage_functions_ext.
Qed.

End WithSelves.

(** [scoperesolver_ComputeItemStorage] calls itself for the class that
    owns the item only, and the call for a class makes no call: the calls
    nest one level deep at most, so the bound on the nesting plays no
    part from 2 on, which is the bound the visitor calls with. *)
Theorem ComputeItemStorage_nests_one_level
    (depth : nat) (pr : h64compileproject) (expr ast : nat)
    (extract_main : bool) (o : alloc_oracle) :
  ComputeItemStorage (S (S depth)) pr expr ast extract_main o
  = ComputeItemStorage 2 pr expr ast extract_main o.
Proof.
  cbn [scoperesolver_ComputeItemStorage].
  apply ComputeItemStorage_body_ext.
  intros pr1 oc ast1 a e extract_main1 o1 Ha He Hty.
  destruct depth as [|depth]; [reflexivity|].
  cbn [scoperesolver_ComputeItemStorage].
  eapply ComputeItemStorage_body_classdef; eassumption.
Qed.

(** [scoperesolver_ComputeItemStorage] without [extract_main] leaves the
    index of main, whatever it registers. *)
Theorem ComputeItemStorage_without_extract_main_keeps_main
    (depth : nat) (pr : h64compileproject) (expr ast : nat)
    (o : alloc_oracle) (r : Z) (oom : bool) (pr' : h64compileproject)
    (o' : alloc_oracle) :
  ComputeItemStorage depth pr expr ast false o = Ret (r, oom, pr', o') ->
  Bytecode.main_func_index (program pr')
  = Bytecode.main_func_index (program pr).
Proof.
  intros H.
  apply (keeps_main_ComputeItemStorage _ _ _ _ _ pr) in H;
    [exact H | reflexivity].
Qed.

Section WithResolvingLoader.

Hypothesis loader : loader_resolves compileproject_GetAST.

(** The AST is marked before anything can fail, and the mark is what a
    call looks at first: after a call that returns, with whatever result,
    a further call on the same AST returns 1 at once and changes
    nothing. *)
Theorem BuildASTGlobalStorage_again_returns_1
    (depth : nat) (pr : h64compileproject) (ast : nat) (recursive : bool)
    (rinfo : resolveinfo) (o : alloc_oracle) (r : Z)
    (pr' : h64compileproject) (o' : alloc_oracle) (calls : list invocation)
    (depth2 : nat) (recursive2 : bool) (rinfo2 : resolveinfo)
    (o2 : alloc_oracle) :
  BuildASTGlobalStorage depth pr ast recursive rinfo o
  = Ret (r, pr', o', calls) ->
  BuildASTGlobalStorage (S depth2) pr' ast recursive2 rinfo2 o2
  = Ret (1, pr', o2,
         [{| inv_ast := ast; inv_recursive := recursive2;
             inv_extract_main := extract_main rinfo2 |}]).
Proof.
  intros H.
  apply (BuildASTGlobalStorage_keeps_built _ _ _ _ _ _ _ _ _ _ _ loader)
    in H.
  destruct H as (_ & a' & Ha' & Hb').
  cbn [scoperesolver_BuildASTGlobalStorage].
  unfold BuildASTGlobalStorage_body. rewrite Ha', Hb'. reflexivity.
Qed.


(** A call without [extract_main] leaves the index of main, recursive or
    not, whatever the files it goes through define. *)
Theorem BuildASTGlobalStorage_without_extract_main_keeps_main
    (depth : nat) (pr : h64compileproject) (ast : nat) (recursive : bool)
    (rinfo : resolveinfo) (o : alloc_oracle) (r : Z)
    (pr' : h64compileproject) (o' : alloc_oracle) (calls : list invocation) :
  extract_main rinfo = false ->
  BuildASTGlobalStorage depth pr ast recursive rinfo o
  = Ret (r, pr', o', calls) ->
  Bytecode.main_func_index (program pr')
  = Bytecode.main_func_index (program pr).
Proof.
  intros Hoff H.
  exact (BuildASTGlobalStorage_keeps_main _ _ _ _ _ _ _ _ _ _ _ loader
           _ _ _ _ _ _ _ _ _ _ Hoff H).
Qed.

End WithResolvingLoader.

End ResolverFurther.

(** ** The further properties on the example data *)

Section FurtherInstances.
Import Unicode Values Stack DebugSymbols Bytecode Scoperesolver.
Import StackExamples BytecodeExamples ResolverExamples.

(** The text "hi". *)
Lemma utf8_to_utf32_of_hi_overruns_temp_buf :
  utf8_to_utf32_ex [104; 105] [] true = (BufferOverrun, []).
Proof.
  apply (utf8_to_utf32_of_ascii_overruns_temp_buf [104; 105] [] true).
  - repeat constructor; lia.
  - simpl. lia.
Defined.

(** The stack with two values in an allocation of four cells, sized to
    four. *)
Lemma stack_ToSize_two_written_to_4_aborts :
  stack_ToSize overshoot maxovershoot emergency_margin stale_cell
    two_written (alloc_count two_written) true [] = AssertFail.
Proof.
  apply (stack_ToSize_to_whole_allocation_aborts overshoot maxovershoot
           emergency_margin stale_cell two_written []).
  unfold stack_wf. simpl. lia.
Defined.

(** The same stack shrunk to one value: the four cells, two more than
    the values before, become 1 + 4. *)
Lemma stack_Shrink_two_written_reallocates :
  exists st',
    stack_Shrink overshoot maxovershoot stale_cell two_written 1 [true]
    = Ret (st', []) /\
    entry_count st' = 1 /\
    alloc_count st' = 1 + overshoot /\
    entry st' = realloc_entries stale_cell (entry two_written)
                  (1 + overshoot).
Proof.
  apply (stack_Shrink_reallocates_each_time overshoot maxovershoot
           stale_cell two_written 1 []).
  - unfold maxovershoot. lia.
  - unfold stack_wf. simpl. lia.
  - intros k vc Hk Hvc. destruct k as [|[|k]]; simpl in Hk, Hvc;
      [inversion Hvc; subst; discriminate..|lia].
  - simpl. lia.
Defined.


(** The storage of the first function of the file with two functions
    named main, without [extract_main]. *)
Lemma first_main_without_extract_main_keeps_main :
  main_func_index
    (program (stored (ComputeItemStorage two_mains 0%nat 0%nat false [])))
  = main_func_index (program two_mains).
Proof.
  apply (ComputeItemStorage_without_extract_main_keeps_main
           hash_size max_methods with_scheme stale_record
           2 two_mains 0%nat 0%nat [] 1 false
           (stored (ComputeItemStorage two_mains 0%nat 0%nat false [])) []).
  vm_compute. reflexivity.
Defined.

(** After the recursive call on a.h64, a call on a.h64 that is not
    recursive. *)
Lemma chain_again_returns_1 :
  scoperesolver_BuildASTGlobalStorage hash_size max_methods with_scheme
    stale_record to_json type_name project_of_file rel_path normalized_path
    resolve_import (get_ast 4) 1 (built chain_built) 0%nat false
    imported_file [true]
  = Ret (1, built chain_built, [true],
         [{| inv_ast := 0; inv_recursive := false;
             inv_extract_main := extract_main imported_file |}]).
Proof.
  apply (BuildASTGlobalStorage_again_returns_1
           hash_size max_methods with_scheme stale_record
           to_json type_name project_of_file rel_path normalized_path
           resolve_import (get_ast 4) (get_ast_resolves 4)
           3 chain 0%nat true entry_file [] 1 (built chain_built) []
           (calls_of chain_built) 0 false imported_file [true]).
  vm_compute. reflexivity.
Defined.


(** The recursive call on a.h64 without [extract_main]: the function main
    of a.h64 is registered, and the index of main stays -1. *)
Lemma chain_without_extract_main_keeps_main :
  main_func_index
    (program (built (BuildASTGlobalStorage chain 0%nat true imported_file [])))
  = main_func_index (program chain).
Proof.
  apply (BuildASTGlobalStorage_without_extract_main_keeps_main
           hash_size max_methods with_scheme stale_record
           to_json type_name project_of_file rel_path normalized_path
           resolve_import (get_ast 4) (get_ast_resolves 4)
           3 chain 0%nat true imported_file [] 1
           (built (BuildASTGlobalStorage chain 0%nat true imported_file []))
           []
           (calls_of (BuildASTGlobalStorage chain 0%nat true imported_file
                        []))).
  - reflexivity.
  - vm_compute. reflexivity.
Defined.

End FurtherInstances.
